(** * github-action-builder: configuration, entry detection, validation, build

    A shallow embedding of the pipeline of [@savvy-web/github-action-builder]
    (schemas/config.ts, schemas/action-yml.ts, services/config-live.ts,
    services/validation-live.ts, services/build-live.ts) and the properties
    of that pipeline.

    Layout:
    - JavaScript values and the part of Effect's [Schema] the code uses;
    - the configuration and manifest schemas, [defineConfig];
    - the platform (node:fs, node:path, yaml, ncc) as an interface, the
      world the services run in, and the [Effect] monad over it;
    - the three services;
    - an in-memory platform to run the services on;
    - the theorems. *)

From Stdlib Require Import ZArith String Ascii List Bool Lia.
From stdpp Require Import base option strings gmap pretty.

Local Open Scope string_scope.
Local Open Scope list_scope.

Set Warnings "-register-all".

(* ===================================================================== *)
(** ** Either *)
(* ===================================================================== *)

Inductive Either (E A : Type) : Type :=
| Left (e : E)
| Right (a : A).
Arguments Left {E A} e.
Arguments Right {E A} a.

Definition isRight {E A} (x : Either E A) : bool :=
  match x with Right _ => true | Left _ => false end.

Definition isLeft {E A} (x : Either E A) : bool := negb (isRight x).

Definition map_right {E A B} (f : A -> B) (x : Either E A) : Either E B :=
  match x with
  | Left e => Left e
  | Right a => Right (f a)
  end.

(* ===================================================================== *)
(** ** JavaScript values

    What [unknown] ranges over here: the result of [yaml.parse] and the
    argument of [Schema.decodeUnknown*].  An object is the list of its own
    enumerable properties in insertion order, which is the order
    [Object.entries] visits; a property read takes the first binding.  A
    function is kept by its name: it is what reading a method gives. *)
(* ===================================================================== *)

Inductive value : Type :=
| VUndefined
| VNull
| VBool (b : bool)
| VNum (n : Z)
| VStr (s : string)
| VArr (items : list value)
| VObj (props : list (string * value))
| VFun (name : string).

Fixpoint own {A} (props : list (string * A)) (k : string) : option A :=
  match props with
  | [] => None
  | (k', v) :: rest => if String.eqb k' k then Some v else own rest k
  end.

(** [v.k]: [undefined] when [v] has no such property. *)
Definition get (v : value) (k : string) : value :=
  match v with
  | VObj props => default VUndefined (own props k)
  | _ => VUndefined
  end.

(** JavaScript truthiness, as [!x] and [if (x)] test it. *)
Definition truthy (v : value) : bool :=
  match v with
  | VUndefined | VNull => false
  | VBool b => b
  | VNum n => negb (n =? 0)%Z
  | VStr s => negb (String.eqb s "")
  | VArr _ | VObj _ | VFun _ => true
  end.

(** [Object.entries] of a record. *)
Definition Object_entries (v : value) : list (string * value) :=
  match v with
  | VObj props => props
  | _ => []
  end.

(** Truthiness of an optional string, [if (config.entries.pre)]. *)
Definition truthy_string (o : option string) : bool :=
  match o with
  | Some s => negb (String.eqb s "")
  | None => false
  end.

(* ===================================================================== *)
(** ** Effect Schema

    A schema is its decoder.  A [ParseError] is kept as the list of its
    leaf issues, each with the path of property keys that leads to it.
    [ParseOptions.errors] is ["first"] by default: a composite schema stops
    at its first failing member; with ["all"] it reports every one. *)
(* ===================================================================== *)

Inductive PropertyKey : Type :=
| Key (k : string)
| Index (i : nat).

Inductive IssueKind : Type :=
| Missing
| Mismatch (expected : string) (actual : value).

Record Issue : Type := { issue_path : list PropertyKey; issue_kind : IssueKind }.

Definition ParseError : Type := list Issue.

Inductive ErrorsMode : Type := FirstError | AllErrors.

Definition Schema (A : Type) : Type := ErrorsMode -> value -> Either ParseError A.

Definition mismatch {A} (expected : string) (actual : value) : Either ParseError A :=
  Left [ {| issue_path := []; issue_kind := Mismatch expected actual |} ].

(** Prefix every issue of a member with the key it was found under. *)
Definition at_key {A} (k : PropertyKey) (r : Either ParseError A) : Either ParseError A :=
  match r with
  | Right a => Right a
  | Left es =>
      Left (map (fun i => {| issue_path := k :: issue_path i; issue_kind := issue_kind i |}) es)
  end.

(** Two members of one composite: the first failure alone, or both. *)
Definition both {A B C} (m : ErrorsMode) (f : A -> B -> C)
    (x : Either ParseError A) (y : Either ParseError B) : Either ParseError C :=
  match x, y with
  | Right a, Right b => Right (f a b)
  | Left e, Right _ => Left e
  | Right _, Left e => Left e
  | Left e1, Left e2 =>
      Left (match m with FirstError => e1 | AllErrors => e1 ++ e2 end)
  end.

Definition SString : Schema string := fun _ v =>
  match v with
  | VStr s => Right s
  | _ => mismatch "string" v
  end.

Definition SBoolean : Schema bool := fun _ v =>
  match v with
  | VBool b => Right b
  | _ => mismatch "boolean" v
  end.

(** [Schema.Literal(l1, ..., ln)], typed by the members [all] and the
    string each one is written as. *)
Definition SLiteralOf {A} (name : A -> string) (all : list A) : Schema A := fun _ v =>
  match v with
  | VStr s =>
      match find (fun a => String.eqb (name a) s) all with
      | Some a => Right a
      | None => mismatch "literal" v
      end
  | _ => mismatch "literal" v
  end.

Definition SLiteral (all : list string) : Schema string := SLiteralOf id all.

Fixpoint decode_items {A} (item : Schema A) (m : ErrorsMode) (i : nat) (vs : list value)
    : Either ParseError (list A) :=
  match vs with
  | [] => Right []
  | v :: rest =>
      both m cons (at_key (Index i) (item m v)) (decode_items item m (S i) rest)
  end.

Definition SArray {A} (item : Schema A) : Schema (list A) := fun m v =>
  match v with
  | VArr vs => decode_items item m 0 vs
  | _ => mismatch "array" v
  end.

Fixpoint decode_entries {A} (item : Schema A) (m : ErrorsMode) (props : list (string * value))
    : Either ParseError (list (string * A)) :=
  match props with
  | [] => Right []
  | (k, v) :: rest =>
      both m (fun a r => (k, a) :: r) (at_key (Key k) (item m v)) (decode_entries item m rest)
  end.

(** [Schema.Record({ key: Schema.String, value })]. *)
Definition SRecord {A} (item : Schema A) : Schema (list (string * A)) := fun m v =>
  match v with
  | VObj props => decode_entries item m props
  | _ => mismatch "object" v
  end.

(** The property signatures of a [Schema.Struct], read off an object. *)
Definition Props (A : Type) : Type := ErrorsMode -> list (string * value) -> Either ParseError A.

Definition pure_props {A} (a : A) : Props A := fun _ _ => Right a.

Definition ap_props {A B} (f : Props (A -> B)) (x : Props A) : Props B :=
  fun m o => both m (fun g a => g a) (f m o) (x m o).

Notation "f <*> x" := (ap_props f x) (at level 61, left associativity).

(** [k: S]: the key must be there. *)
Definition required {A} (k : string) (s : Schema A) : Props A := fun m o =>
  match own o k with
  | None => Left [ {| issue_path := [Key k]; issue_kind := Missing |} ]
  | Some v => at_key (Key k) (s m v)
  end.

(** [k: Schema.optional(S)]: absent or [undefined] is accepted as it is. *)
Definition optional {A} (k : string) (s : Schema A) : Props (option A) := fun m o =>
  match own o k with
  | None | Some VUndefined => Right None
  | Some v => at_key (Key k) (map_right Some (s m v))
  end.

(** [k: Schema.optionalWith(S, { default: () => d })]. *)
Definition optionalWith {A} (k : string) (s : Schema A) (d : A) : Props A := fun m o =>
  match own o k with
  | None | Some VUndefined => Right d
  | Some v => at_key (Key k) (s m v)
  end.

Definition Struct {A} (p : Props A) : Schema A := fun m v =>
  match v with
  | VObj o => p m o
  | _ => mismatch "object" v
  end.

(** [Schema.decodeUnknownEither(S)(input)], with the default options. *)
Definition decodeUnknownEither {A} (s : Schema A) (input : value) : Either ParseError A :=
  s FirstError input.

(** [Schema.decodeUnknownSync(S)(input)]: [Left] is the [ParseError] it throws. *)
Definition decodeUnknownSync {A} (s : Schema A) (input : value) : Either ParseError A :=
  s FirstError input.

(* ===================================================================== *)
(** ** schemas/config.ts *)
(* ===================================================================== *)

Record Entries : Type := {
  entries_main : string;
  entries_pre : option string;
  entries_post : option string;
}.

Definition EntriesSchema : Schema Entries :=
  Struct (pure_props Build_Entries
    <*> optionalWith "main" SString "src/main.ts"
    <*> optional "pre" SString
    <*> optional "post" SString).

Inductive EsTarget : Type := es2020 | es2021 | es2022 | es2023 | es2024.

Definition EsTarget_name (t : EsTarget) : string :=
  match t with
  | es2020 => "es2020"
  | es2021 => "es2021"
  | es2022 => "es2022"
  | es2023 => "es2023"
  | es2024 => "es2024"
  end.

Definition EsTargetSchema : Schema EsTarget :=
  SLiteralOf EsTarget_name [es2020; es2021; es2022; es2023; es2024].

Record BuildOptions : Type := {
  build_minify : bool;
  build_target : EsTarget;
  build_sourceMap : bool;
  build_externals : list string;
  build_quiet : bool;
}.

Definition BuildOptionsSchema : Schema BuildOptions :=
  Struct (pure_props Build_BuildOptions
    <*> optionalWith "minify" SBoolean true
    <*> optionalWith "target" EsTargetSchema es2022
    <*> optionalWith "sourceMap" SBoolean false
    <*> optionalWith "externals" (SArray SString) []
    <*> optionalWith "quiet" SBoolean false).

Record ValidationOptions : Type := {
  validation_requireActionYml : bool;
  validation_maxBundleSize : option string;
  validation_strict : option bool;
}.

Definition ValidationOptionsSchema : Schema ValidationOptions :=
  Struct (pure_props Build_ValidationOptions
    <*> optionalWith "requireActionYml" SBoolean true
    <*> optional "maxBundleSize" SString
    <*> optional "strict" SBoolean).

(** [ConfigInput]: every section and every field optional.  [None] is a
    property that is absent or [undefined]; the schemas above treat the two
    alike. *)
Record EntriesInput : Type := {
  input_main : option string;
  input_pre : option string;
  input_post : option string;
}.

Record BuildInput : Type := {
  input_minify : option bool;
  input_target : option EsTarget;
  input_sourceMap : option bool;
  input_externals : option (list string);
  input_quiet : option bool;
}.

Record ValidationInput : Type := {
  input_requireActionYml : option bool;
  input_maxBundleSize : option string;
  input_strict : option bool;
}.

Record ConfigInput : Type := {
  input_entries : option EntriesInput;
  input_build : option BuildInput;
  input_validation : option ValidationInput;
}.

Record Config : Type := {
  config_entries : Entries;
  config_build : BuildOptions;
  config_validation : ValidationOptions;
}.

Definition ConfigSchema : Schema Config :=
  Struct (pure_props Build_Config
    <*> required "entries" EntriesSchema
    <*> required "build" BuildOptionsSchema
    <*> required "validation" ValidationOptionsSchema).

(** A typed object as the [unknown] the decoder receives. *)
Definition prop {A} (k : string) (inj : A -> value) (o : option A) : list (string * value) :=
  match o with
  | Some a => [(k, inj a)]
  | None => []
  end.

Definition EntriesInput_value (e : EntriesInput) : value :=
  VObj (prop "main" VStr (input_main e)
     ++ prop "pre" VStr (input_pre e)
     ++ prop "post" VStr (input_post e)).

Definition BuildInput_value (b : BuildInput) : value :=
  VObj (prop "minify" VBool (input_minify b)
     ++ prop "target" (fun t => VStr (EsTarget_name t)) (input_target b)
     ++ prop "sourceMap" VBool (input_sourceMap b)
     ++ prop "externals" (fun xs => VArr (map VStr xs)) (input_externals b)
     ++ prop "quiet" VBool (input_quiet b)).

Definition ValidationInput_value (v : ValidationInput) : value :=
  VObj (prop "requireActionYml" VBool (input_requireActionYml v)
     ++ prop "maxBundleSize" VStr (input_maxBundleSize v)
     ++ prop "strict" VBool (input_strict v)).

(** The empty input, [{}]. *)
Definition empty_input : ConfigInput :=
  {| input_entries := None; input_build := None; input_validation := None |}.

(** [defineConfig(config = {})]; [Left] is the [ParseError] thrown by
    [decodeUnknownSync]. *)
Definition defineConfig (config : ConfigInput) : Either ParseError Config :=
  decodeUnknownSync ConfigSchema
    (VObj [ ("entries", default (VObj []) (EntriesInput_value <$> input_entries config));
            ("build", default (VObj []) (BuildInput_value <$> input_build config));
            ("validation", default (VObj []) (ValidationInput_value <$> input_validation config)) ]).

(* ===================================================================== *)
(** ** schemas/action-yml.ts *)
(* ===================================================================== *)

Definition BrandingIcon_literals : list string :=
  ["activity"; "airplay"; "alert-circle"; "alert-octagon"; "alert-triangle";
   "align-center"; "align-justify"; "align-left"; "align-right"; "anchor";
   "aperture"; "archive"; "arrow-down-circle"; "arrow-down-left";
   "arrow-down-right"; "arrow-down"; "arrow-left-circle"; "arrow-left";
   "arrow-right-circle"; "arrow-right"; "arrow-up-circle"; "arrow-up-left";
   "arrow-up-right"; "arrow-up"; "at-sign"; "award"; "bar-chart-2";
   "bar-chart"; "battery-charging"; "battery"; "bell-off"; "bell";
   "bluetooth"; "bold"; "book-open"; "book"; "bookmark"; "box"; "briefcase";
   "calendar"; "camera-off"; "camera"; "cast"; "check-circle";
   "check-square"; "check"; "chevron-down"; "chevron-left"; "chevron-right";
   "chevron-up"; "chevrons-down"; "chevrons-left"; "chevrons-right";
   "chevrons-up"; "circle"; "clipboard"; "clock"; "cloud-drizzle";
   "cloud-lightning"; "cloud-off"; "cloud-rain"; "cloud-snow"; "cloud";
   "code"; "command"; "compass"; "copy"; "corner-down-left";
   "corner-down-right"; "corner-left-down"; "corner-left-up";
   "corner-right-down"; "corner-right-up"; "corner-up-left";
   "corner-up-right"; "cpu"; "credit-card"; "crop"; "crosshair"; "database";
   "delete"; "disc"; "dollar-sign"; "download-cloud"; "download"; "droplet";
   "edit-2"; "edit-3"; "edit"; "external-link"; "eye-off"; "eye";
   "fast-forward"; "feather"; "file-minus"; "file-plus"; "file-text"; "file";
   "film"; "filter"; "flag"; "folder-minus"; "folder-plus"; "folder"; "gift";
   "git-branch"; "git-commit"; "git-merge"; "git-pull-request"; "globe";
   "grid"; "hard-drive"; "hash"; "headphones"; "heart"; "help-circle";
   "home"; "image"; "inbox"; "info"; "italic"; "layers"; "layout";
   "life-buoy"; "link-2"; "link"; "list"; "loader"; "lock"; "log-in";
   "log-out"; "mail"; "map-pin"; "map"; "maximize-2"; "maximize"; "menu";
   "message-circle"; "message-square"; "mic-off"; "mic"; "minimize-2";
   "minimize"; "minus-circle"; "minus-square"; "minus"; "monitor"; "moon";
   "more-horizontal"; "more-vertical"; "move"; "music"; "navigation-2";
   "navigation"; "octagon"; "package"; "paperclip"; "pause-circle"; "pause";
   "percent"; "phone-call"; "phone-forwarded"; "phone-incoming";
   "phone-missed"; "phone-off"; "phone-outgoing"; "phone"; "pie-chart";
   "play-circle"; "play"; "plus-circle"; "plus-square"; "plus"; "pocket";
   "power"; "printer"; "radio"; "refresh-ccw"; "refresh-cw"; "repeat";
   "rewind"; "rotate-ccw"; "rotate-cw"; "rss"; "save"; "scissors"; "search";
   "send"; "server"; "settings"; "share-2"; "share"; "shield-off"; "shield";
   "shopping-bag"; "shopping-cart"; "shuffle"; "sidebar"; "skip-back";
   "skip-forward"; "slash"; "sliders"; "smartphone"; "speaker"; "square";
   "star"; "stop-circle"; "sun"; "sunrise"; "sunset"; "table"; "tablet";
   "tag"; "target"; "terminal"; "thermometer"; "thumbs-down"; "thumbs-up";
   "toggle-left"; "toggle-right"; "trash-2"; "trash"; "trending-down";
   "trending-up"; "triangle"; "truck"; "tv"; "type"; "umbrella"; "underline";
   "unlock"; "upload-cloud"; "upload"; "user-check"; "user-minus";
   "user-plus"; "user-x"; "user"; "users"; "video-off"; "video"; "voicemail";
   "volume-1"; "volume-2"; "volume-x"; "volume"; "watch"; "wifi-off"; "wifi";
   "wind"; "x-circle"; "x-square"; "x"; "zap-off"; "zap"; "zoom-in";
   "zoom-out"].

Definition BrandingIcon : Schema string := SLiteral BrandingIcon_literals.

Record ActionInput : Type := {
  ainput_description : string;
  ainput_required : option bool;
  ainput_default : option string;
  ainput_deprecationMessage : option string;
}.

Definition ActionInputSchema : Schema ActionInput :=
  Struct (pure_props Build_ActionInput
    <*> required "description" SString
    <*> optional "required" SBoolean
    <*> optional "default" SString
    <*> optional "deprecationMessage" SString).

Record ActionOutput : Type := { aoutput_description : string }.

Definition ActionOutputSchema : Schema ActionOutput :=
  Struct (pure_props Build_ActionOutput <*> required "description" SString).

Record Runs : Type := {
  runs_using : string;
  runs_main : string;
  runs_pre : option string;
  runs_pre_if : option string;
  runs_post : option string;
  runs_post_if : option string;
}.

Definition RunsSchema : Schema Runs :=
  Struct (pure_props Build_Runs
    <*> required "using" (SLiteral ["node24"])
    <*> required "main" SString
    <*> optional "pre" SString
    <*> optional "pre-if" SString
    <*> optional "post" SString
    <*> optional "post-if" SString).

Definition BrandingColor : Schema string :=
  SLiteral ["white"; "black"; "yellow"; "blue"; "green"; "orange"; "red"; "purple"; "gray-dark"].

Record Branding : Type := {
  branding_icon : option string;
  branding_color : option string;
}.

Definition BrandingSchema : Schema Branding :=
  Struct (pure_props Build_Branding
    <*> optional "icon" BrandingIcon
    <*> optional "color" BrandingColor).

Record ActionYml : Type := {
  yml_name : string;
  yml_description : string;
  yml_author : option string;
  yml_inputs : option (list (string * ActionInput));
  yml_outputs : option (list (string * ActionOutput));
  yml_runs : Runs;
  yml_branding : option Branding;
}.

Definition ActionYmlSchema : Schema ActionYml :=
  Struct (pure_props Build_ActionYml
    <*> required "name" SString
    <*> required "description" SString
    <*> optional "author" SString
    <*> optional "inputs" (SRecord ActionInputSchema)
    <*> optional "outputs" (SRecord ActionOutputSchema)
    <*> required "runs" RunsSchema
    <*> optional "branding" BrandingSchema).

(* ===================================================================== *)
(** ** The platform and the world

    What the services call and do not define: [node:path], [node:fs],
    [yaml], [@vercel/ncc] and Effect's [TreeFormatter].  A call that can
    throw returns [Left] with what it threw; a call on the file system
    returns the file system it leaves, also when it throws. *)
(* ===================================================================== *)

(** What a [throw] carries: an [Error] with its message, or anything else
    with its [String(...)]. *)
Inductive thrown : Type :=
| ThrownError (message : string)
| ThrownOther (repr : string).

(** [error instanceof Error ? error.message : String(error)] *)
Definition cause_of_thrown (t : thrown) : string :=
  match t with
  | ThrownError m => m
  | ThrownOther r => r
  end.

(** The options [bundle] is called with and passes on ([NccOptions]; the
    fields never set by this code are left out). *)
Record NccOptions : Type := {
  minify : option bool;
  sourceMap : option bool;
  target : option string;
  externals : option (list string);
  quiet : option bool;
}.

(** [NccResult]; an asset is kept as its name and its utf8 content. *)
Record NccResult : Type := {
  ncc_code : string;
  ncc_map : option string;
  ncc_assets : list (string * string);
}.

Record Platform : Type := {
  FS : Type;
  path_resolve : string -> string -> string;
  existsSync : FS -> string -> bool;
  readFileSync : FS -> string -> Either thrown string;
  rmSync : FS -> string -> Either thrown unit * FS;
  mkdirSync : FS -> string -> Either thrown unit * FS;
  writeFileSync : FS -> string -> string -> Either thrown unit * FS;
  parseYaml : string -> Either thrown value;
  (** the bundler: its outcome, and the milliseconds it took *)
  ncc : FS -> string -> NccOptions -> Either thrown NccResult * Z;
  formatErrorSync : ParseError -> string;
}.

(** The tagged errors of errors.ts that the three services raise. *)
Inductive TaggedError : Type :=
| MainEntryMissing (expectedPath cwd : string)
| ActionYmlMissing (cwd : string)
| ActionYmlSyntaxError (path message : string)
| ActionYmlSchemaError (path : string) (errors : list (string * string))
| ValidationFailed (errorCount warningCount : nat) (message : string)
| BundleFailed (entry cause : string)
| WriteError (path cause : string)
| CleanError (directory cause : string).

(** [error.cause]: [undefined] on the errors that have no such field. *)
Definition cause (e : TaggedError) : option string :=
  match e with
  | BundleFailed _ c | WriteError _ c | CleanError _ c => Some c
  | _ => None
  end.

Inductive Exit (E A : Type) : Type :=
| Success (a : A)
| Failure (e : E)
| Die (defect : thrown).
Arguments Success {E A} a.
Arguments Failure {E A} e.
Arguments Die {E A} defect.

Section Services.

Context (P : Platform).

(** The process: its file system, [process.env], [process.cwd()], the
    clock [Date.now()] reads, and the entry paths handed to the bundler so
    far (a record of the calls made; nothing reads it). *)
Record World : Type := {
  fs : FS P;
  env : gmap string string;
  process_cwd : string;
  clock : Z;
  ncc_calls : list string;
}.

Definition with_fs (w : World) (f : FS P) : World :=
  {| fs := f; env := env w; process_cwd := process_cwd w; clock := clock w;
     ncc_calls := ncc_calls w |}.

(** ** Effect *)

Definition Effect (E A : Type) : Type := World -> Exit E A * World.

Definition Effect_succeed {E A} (a : A) : Effect E A := fun w => (Success a, w).

Definition Effect_fail {E A} (e : E) : Effect E A := fun w => (Failure e, w).

Definition Effect_bind {E A B} (x : Effect E A) (k : A -> Effect E B) : Effect E B :=
  fun w =>
    match x w with
    | (Success a, w') => k a w'
    | (Failure e, w') => (Failure e, w')
    | (Die d, w') => (Die d, w')
    end.

Notation "'let*' x ':=' e 'in' k" := (Effect_bind e (fun x => k))
  (at level 10, x name, e at level 100, k at level 200).

Notation "'do*' e 'in' k" := (Effect_bind e (fun _ => k))
  (at level 10, e at level 100, k at level 200).

(** [Effect.either]: a failure becomes a value; a defect is not caught. *)
Definition Effect_either {E E' A} (x : Effect E A) : Effect E' (Either E A) :=
  fun w =>
    match x w with
    | (Success a, w') => (Success (Right a), w')
    | (Failure e, w') => (Success (Left e), w')
    | (Die d, w') => (Die d, w')
    end.

(** [Effect.try({ try, catch })] around a call on the file system. *)
Definition Effect_try {E A} (call : FS P -> Either thrown A * FS P) (catch : thrown -> E)
    : Effect E A :=
  fun w =>
    match call (fs w) with
    | (Right a, f) => (Success a, with_fs w f)
    | (Left t, f) => (Failure (catch t), with_fs w f)
    end.

Definition Date_now {E} : Effect E Z := fun w => (Success (clock w), w).

(** [Effect.tryPromise] around the bundler: the call is recorded and the
    clock moves on by the time it took. *)
Definition call_ncc {E} (entryPath : string) (options : NccOptions) (catch : thrown -> E)
    : Effect E NccResult :=
  fun w =>
    let '(r, elapsed) := ncc P (fs w) entryPath options in
    let w' := {| fs := fs w; env := env w; process_cwd := process_cwd w;
                 clock := (clock w + elapsed)%Z;
                 ncc_calls := ncc_calls w ++ [entryPath] |} in
    match r with
    | Right res => (Success res, w')
    | Left t => (Failure (catch t), w')
    end.

(* ===================================================================== *)
(** ** services/config-live.ts *)
(* ===================================================================== *)

Inductive EntryType : Type := main | pre | post.

Definition EntryType_name (t : EntryType) : string :=
  match t with
  | main => "main"
  | pre => "pre"
  | post => "post"
  end.

Record DetectedEntry : Type := {
  entry_type : EntryType;
  entry_path : string;
  entry_output : string;
}.

Record DetectEntriesResult : Type := {
  detect_success : bool;
  detect_entries : list DetectedEntry;
}.

Definition DEFAULT_ENTRIES (t : EntryType) : string :=
  match t with
  | main => "src/main.ts"
  | pre => "src/pre.ts"
  | post => "src/post.ts"
  end.

(** [detectOptionalEntry(cwd, type, explicitPath?)], for [type] one of
    ["pre"] and ["post"]. *)
Definition detectOptionalEntry (f : FS P) (cwd : string) (type : EntryType)
    (explicitPath : option string) : option DetectedEntry :=
  let defaultPath := DEFAULT_ENTRIES type in
  let entryPath := default defaultPath explicitPath in
  let absolutePath := path_resolve P cwd entryPath in
  if existsSync P f absolutePath then
    Some {| entry_type := type;
            entry_path := absolutePath;
            entry_output := "dist/" +:+ EntryType_name type +:+ ".js" |}
  else None.

(** [resolve(input = {})]: [defineConfig] runs before the effect is made,
    so what it throws is not a failure of the effect. *)
Definition resolve (input : option ConfigInput) : Effect TaggedError Config :=
  fun w =>
    match defineConfig (default empty_input input) with
    | Right c => (Success c, w)
    | Left e => (Die (ThrownError (formatErrorSync P e)), w)
    end.

(** [detectEntries(cwd, entries?)] *)
Definition detectEntries (cwd : string) (entries : option EntriesInput)
    : Effect TaggedError DetectEntriesResult :=
  fun w =>
    let mainPath := default (DEFAULT_ENTRIES main) (entries ≫= input_main) in
    let absoluteMainPath := path_resolve P cwd mainPath in
    if negb (existsSync P (fs w) absoluteMainPath) then
      Effect_fail (MainEntryMissing mainPath cwd) w
    else
      let detected := [ {| entry_type := main;
                           entry_path := absoluteMainPath;
                           entry_output := "dist/main.js" |} ] in
      let preEntry := detectOptionalEntry (fs w) cwd pre (entries ≫= input_pre) in
      let detected := match preEntry with
                      | Some e => detected ++ [e]
                      | None => detected
                      end in
      let postEntry := detectOptionalEntry (fs w) cwd post (entries ≫= input_post) in
      let detected := match postEntry with
                      | Some e => detected ++ [e]
                      | None => detected
                      end in
      Effect_succeed {| detect_success := true; detect_entries := detected |} w.

(** The [entriesConfig] both orchestrators build from the configuration:
    [pre] and [post] are copied only when truthy. *)
Definition entriesConfig (config : Config) : EntriesInput :=
  {| input_main := Some (entries_main (config_entries config));
     input_pre := if truthy_string (entries_pre (config_entries config))
                  then entries_pre (config_entries config) else None;
     input_post := if truthy_string (entries_post (config_entries config))
                   then entries_post (config_entries config) else None |}.

(* ===================================================================== *)
(** ** services/validation-live.ts *)
(* ===================================================================== *)

(** A [ValidationErrorItem]; a [ValidationWarning] has the same shape. *)
Record ValidationItem : Type := {
  code : string;
  message : string;
  file : option string;
  suggestion : option string;
}.

Abbreviation ValidationErrorItem := ValidationItem (only parsing).
Abbreviation ValidationWarning := ValidationItem (only parsing).

Record ValidateOptions : Type := {
  validate_cwd : option string;
  validate_strict : option bool;
}.

Record ValidationResult : Type := {
  valid : bool;
  errors : list ValidationErrorItem;
  warnings : list ValidationWarning;
}.

Record ActionYmlResult : Type := {
  yml_valid : bool;
  yml_content : ActionYml;
  yml_errors : list ValidationErrorItem;
  yml_warnings : list ValidationWarning;
}.

(** [process.env.X === s] *)
Definition env_is (w : World) (x s : string) : bool :=
  bool_decide (env w !! x = Some s).

Definition isCI (w : World) : bool :=
  env_is w "CI" "true" || env_is w "CI" "1" || env_is w "GITHUB_ACTIONS" "true".

(** [configStrict ?? isCI()] *)
Definition resolveStrict (configStrict : option bool) (w : World) : bool :=
  match configStrict with
  | Some b => b
  | None => isCI w
  end.

Definition makeWarning (code message suggestion : string) (file : option string)
    : ValidationWarning :=
  {| code := code; message := message; file := file; suggestion := Some suggestion |}.

Definition formatSchemaErrors (error : ParseError) (filePath : string)
    : list (string * string) :=
  [ (filePath, formatErrorSync P error) ].

Definition readActionYml (path : string) : Effect TaggedError value :=
  fun w =>
    if negb (existsSync P (fs w) path) then Effect_fail (ActionYmlMissing path) w
    else
      (let* content := Effect_try (fun f => (readFileSync P f path, f))
                         (fun _ => ActionYmlSyntaxError path "Failed to read file") in
       let* parsed := Effect_try (fun f => (parseYaml P content, f))
                        (fun error =>
                           ActionYmlSyntaxError path
                             match error with
                             | ThrownError m => m
                             | ThrownOther _ => "Invalid YAML syntax"
                             end) in
       match parsed with
       | VObj _ | VArr _ => Effect_succeed parsed
       | _ => Effect_fail (ActionYmlSyntaxError path "action.yml must be an object")
       end) w.

Definition validateSchema (parsed : value) (path : string) : Effect TaggedError ActionYml :=
  match decodeUnknownEither ActionYmlSchema parsed with
  | Left parseError =>
      Effect_fail (ActionYmlSchemaError path (formatSchemaErrors parseError path))
  | Right content => Effect_succeed content
  end.

Definition checkRecommendations (content : value) (filePath : option string)
    : list ValidationWarning :=
  let branding :=
    if negb (truthy (get content "branding")) then
      [ makeWarning "ACTION_YML_NO_BRANDING" "No branding configuration found"
          "Add branding.icon and branding.color for better marketplace visibility" filePath ]
    else
      let branding := get content "branding" in
      (if negb (truthy (get branding "icon")) then
         [ makeWarning "ACTION_YML_NO_BRANDING_ICON" "Branding icon not specified"
             "Add branding.icon for better marketplace visibility" filePath ]
       else [])
      ++
      (if negb (truthy (get branding "color")) then
         [ makeWarning "ACTION_YML_NO_BRANDING_COLOR" "Branding color not specified"
             "Add branding.color for better marketplace visibility" filePath ]
       else []) in
  let inputs :=
    if truthy (get content "inputs") then
      flat_map (fun '(name, input) =>
          if negb (truthy (get input "description")) then
            [ makeWarning "ACTION_YML_INPUT_NO_DESCRIPTION"
                ("Input '" +:+ name +:+ "' has no description")
                ("Add a description for the '" +:+ name +:+ "' input") filePath ]
          else [])
        (Object_entries (get content "inputs"))
    else [] in
  let outputs :=
    if truthy (get content "outputs") then
      flat_map (fun '(name, output) =>
          if negb (truthy (get output "description")) then
            [ makeWarning "ACTION_YML_OUTPUT_NO_DESCRIPTION"
                ("Output '" +:+ name +:+ "' has no description")
                ("Add a description for the '" +:+ name +:+ "' output") filePath ]
          else [])
        (Object_entries (get content "outputs"))
    else [] in
  branding ++ inputs ++ outputs.

Definition validateActionYml (path : string) : Effect TaggedError ActionYmlResult :=
  let* parsed := readActionYml path in
  let* content := validateSchema parsed path in
  let warnings := checkRecommendations parsed (Some path) in
  Effect_succeed {| yml_valid := true; yml_content := content;
                    yml_errors := []; yml_warnings := warnings |}.

Definition checkEntries (config : Config) (cwd : string)
    : Effect TaggedError (list ValidationErrorItem) :=
  let* result := Effect_either (detectEntries cwd (Some (entriesConfig config))) in
  match result with
  | Left (MainEntryMissing expectedPath _) =>
      Effect_succeed
        [ {| code := "MAIN_ENTRY_MISSING";
             message := "Main entry point not found: " +:+ expectedPath;
             file := Some expectedPath;
             suggestion := Some "Create src/main.ts or specify a different path in config" |} ]
  | _ => Effect_succeed []
  end.

Definition checkActionYml (config : Config) (cwd : string)
    : Effect TaggedError (list ValidationErrorItem * list ValidationWarning) :=
  if negb (validation_requireActionYml (config_validation config)) then
    Effect_succeed ([], [])
  else
    let actionYmlPath := path_resolve P cwd "action.yml" in
    let* result := Effect_either (validateActionYml actionYmlPath) in
    match result with
    | Left error =>
        match error with
        | ActionYmlMissing _ =>
            Effect_succeed
              ([],
               [ {| code := "ACTION_YML_MISSING";
                    message := "action.yml not found";
                    file := Some actionYmlPath;
                    suggestion := Some "Create action.yml to define your action metadata" |} ])
        | ActionYmlSyntaxError path message =>
            Effect_succeed
              ([ {| code := "ACTION_YML_SYNTAX_ERROR"; message := message;
                    file := Some path; suggestion := None |} ], [])
        | ActionYmlSchemaError path errors =>
            Effect_succeed
              (map (fun schemaError =>
                      {| code := "ACTION_YML_SCHEMA_ERROR"; message := snd schemaError;
                         file := Some path; suggestion := None |}) errors, [])
        | _ => Effect_succeed ([], [])
        end
    | Right ok => Effect_succeed ([], yml_warnings ok)
    end.

(** [resolveStrict(options.strict ?? config.validation.strict)], the
    [strict] of [validate]. *)
Definition strictOf (config : Config) (options : ValidateOptions) (w : World) : bool :=
  resolveStrict
    (match validate_strict options with
     | Some b => Some b
     | None => validation_strict (config_validation config)
     end) w.

Definition validate (config : Config) (options : ValidateOptions)
    : Effect TaggedError ValidationResult :=
  fun w =>
    let cwd := default (process_cwd w) (validate_cwd options) in
    let strict := strictOf config options w in
    (let* entryErrors := checkEntries config cwd in
     let* actionYmlResult := checkActionYml config cwd in
     let errors := entryErrors ++ fst actionYmlResult in
     let warnings := snd actionYmlResult in
     let valid := Nat.eqb (length errors) 0 && (negb strict || Nat.eqb (length warnings) 0) in
     if strict && Nat.ltb 0 (length warnings) && Nat.eqb (length errors) 0 then
       Effect_fail (ValidationFailed 0 (length warnings)
                      "Warnings treated as errors in strict mode")
     else
       Effect_succeed {| valid := valid; errors := errors; warnings := warnings |}) w.

(* ===================================================================== *)
(** ** services/build-live.ts *)
(* ===================================================================== *)

Record BuildRunnerOptions : Type := {
  run_cwd : option string;
  run_clean : option bool;
}.

Record BundleStats : Type := {
  stats_entry : string;
  stats_size : Z;
  stats_duration : Z;
  stats_outputPath : string;
}.

Record BundleResult : Type := {
  bundle_success : bool;
  bundle_stats : option BundleStats;
  bundle_error : option string;
}.

Record BuildResult : Type := {
  result_success : bool;
  result_entries : list BundleResult;
  result_duration : Z;
  result_error : option string;
}.

(** [bundle(entryPath, options = {})]: the defaults, then [...options]
    over them. *)
Definition bundle {E} (entryPath : string) (options : NccOptions) (catch : thrown -> E)
    : Effect E NccResult :=
  call_ncc entryPath
    {| minify := Some (default true (minify options));
       sourceMap := Some (default false (sourceMap options));
       target := Some (default "es2022" (target options));
       quiet := Some (default true (quiet options));
       externals := Some (default [] (externals options)) |}
    catch.

(** [Buffer.byteLength(code, "utf8")]; a string here is its utf8 bytes. *)
Definition getBundleSize (code : string) : Z := Z.of_nat (String.length code).

Definition cleanDirectory (dir : string) : Effect TaggedError unit :=
  Effect_try
    (fun f => if existsSync P f dir then rmSync P f dir else (Right tt, f))
    (fun error => CleanError dir (cause_of_thrown error)).

Definition writeFile (path content : string) : Effect TaggedError unit :=
  Effect_try
    (fun f =>
       let dir := path_resolve P path ".." in
       match mkdirSync P f dir with
       | (Right _, f') => writeFileSync P f' path content
       | (Left error, f') => (Left error, f')
       end)
    (fun error => WriteError path (cause_of_thrown error)).

(** The loop over [Object.entries(nccResult.assets)]. *)
Fixpoint writeAssets (outputDir : string) (assets : list (string * string))
    : Effect TaggedError unit :=
  match assets with
  | [] => Effect_succeed tt
  | (assetName, content) :: rest =>
      let assetPath := path_resolve P outputDir assetName in
      do* writeFile assetPath content in
      writeAssets outputDir rest
  end.

Definition bundleEntry (entry : DetectedEntry) (config : Config) (cwd : string)
    : Effect TaggedError BundleResult :=
  let* startTime := Date_now in
  let* nccResult :=
    bundle (entry_path entry)
      {| minify := Some (build_minify (config_build config));
         sourceMap := Some (build_sourceMap (config_build config));
         target := Some (EsTarget_name (build_target (config_build config)));
         externals := Some (build_externals (config_build config));
         quiet := Some (build_quiet (config_build config)) |}
      (fun error => BundleFailed (entry_path entry) (cause_of_thrown error)) in
  let outputPath := path_resolve P cwd (entry_output entry) in
  do* writeFile outputPath (ncc_code nccResult) in
  do* (if build_sourceMap (config_build config) && truthy_string (ncc_map nccResult)
       then writeFile (outputPath +:+ ".map") (default "" (ncc_map nccResult))
       else Effect_succeed tt) in
  do* writeAssets (path_resolve P outputPath "..") (ncc_assets nccResult) in
  let* endTime := Date_now in
  let duration := (endTime - startTime)%Z in
  let size := getBundleSize (ncc_code nccResult) in
  Effect_succeed
    {| bundle_success := true;
       bundle_stats := Some {| stats_entry := EntryType_name (entry_type entry);
                               stats_size := size;
                               stats_duration := duration;
                               stats_outputPath := entry_output entry |};
       bundle_error := None |}.

(** The loop of [build] over the detected entries. *)
Fixpoint buildEntries (entries : list DetectedEntry) (config : Config) (cwd : string)
    : Effect TaggedError (list BundleResult) :=
  match entries with
  | [] => Effect_succeed []
  | entry :: rest =>
      let* result := Effect_either (bundleEntry entry config cwd) in
      let entryResult :=
        match result with
        | Left failure =>
            {| bundle_success := false; bundle_stats := None; bundle_error := cause failure |}
        | Right ok => ok
        end in
      let* entryResults := buildEntries rest config cwd in
      Effect_succeed (entryResult :: entryResults)
  end.

Definition dquote : string := String "034"%char EmptyString.

(** The text ['{ "type": "module" }'] written to [dist/package.json]. *)
Definition module_marker : string :=
  "{ " +:+ dquote +:+ "type" +:+ dquote +:+ ": " +:+ dquote +:+ "module" +:+ dquote +:+ " }".

Definition build (config : Config) (options : BuildRunnerOptions)
    : Effect TaggedError BuildResult :=
  fun w =>
    let cwd := default (process_cwd w) (run_cwd options) in
    let shouldClean := default true (run_clean options) in
    (let* startTime := Date_now in
     let* entriesResult := detectEntries cwd (Some (entriesConfig config)) in
     do* (if shouldClean then cleanDirectory (path_resolve P cwd "dist")
          else Effect_succeed tt) in
     let* entryResults := buildEntries (detect_entries entriesResult) config cwd in
     do* writeFile (path_resolve P cwd "dist/package.json") module_marker in
     let* endTime := Date_now in
     let duration := (endTime - startTime)%Z in
     let success := forallb bundle_success entryResults in
     if negb success then
       Effect_succeed {| result_success := success; result_entries := entryResults;
                         result_duration := duration;
                         result_error := Some "One or more entries failed to build" |}
     else
       Effect_succeed {| result_success := success; result_entries := entryResults;
                         result_duration := duration; result_error := None |}) w.

End Services.

Arguments fs {P} w.
Arguments env {P} w.
Arguments process_cwd {P} w.
Arguments clock {P} w.
Arguments ncc_calls {P} w.

(* ===================================================================== *)
(** ** Formatting: [formatResult] (validation-live.ts), [formatBytes] and
    [formatBuildResult] (build-live.ts)

    A JavaScript string is kept as its utf8 bytes; the four marks are the
    characters U+2717, U+2192, U+26A0 and U+2713. *)
(* ===================================================================== *)

Definition newline : string := String "010"%char EmptyString.

(** The lines [formatResult] pushes, before [lines.join("\n")]. *)
Definition formatResult_lines (result : ValidationResult) : list string :=
  let lines : list string := [] in
  let lines :=
    if Nat.ltb 0 (length (errors result)) then
      lines ++ ["Errors:"]
        ++ flat_map (fun error =>
             ["  ✗ " +:+ message error]
             ++ (if truthy_string (suggestion error)
                 then ["    → " +:+ default "" (suggestion error)] else []))
           (errors result)
    else lines in
  let lines :=
    if Nat.ltb 0 (length (warnings result)) then
      lines ++ (if Nat.ltb 0 (length lines) then [""] else [])
        ++ ["Warnings:"]
        ++ flat_map (fun warning =>
             ["  ⚠ " +:+ message warning]
             ++ (if truthy_string (suggestion warning)
                 then ["    → " +:+ default "" (suggestion warning)] else []))
           (warnings result)
    else lines in
  if valid result && Nat.eqb (length (errors result)) 0
     && Nat.eqb (length (warnings result)) 0
  then lines ++ ["✓ All checks passed"]
  else lines.

Definition formatResult (result : ValidationResult) : string :=
  String.concat newline (formatResult_lines result).

(** [(num / den).toFixed(1)] for integers [0 <= num] and [den] a power of
    two, [num < 2^53]: the quotient is then an exact double, and [toFixed]
    takes the integer number of tenths nearest to it, the larger of two
    equally near. *)
Definition toFixed1 (num den : Z) : string :=
  let tenths := ((2 * 10 * num + den) / (2 * den))%Z in
  pretty (tenths / 10)%Z +:+ "." +:+ pretty (tenths mod 10)%Z.

(** [formatBytes(bytes)], on the integers (a bundle size is one). *)
Definition formatBytes (bytes : Z) : string :=
  if (bytes <? 1024)%Z then pretty bytes +:+ " B"
  else if (bytes <? 1024 * 1024)%Z then toFixed1 bytes 1024 +:+ " KB"
  else toFixed1 bytes (1024 * 1024) +:+ " MB".

(** The lines [formatBuildResult] pushes; [${entry.error}] of an absent
    error reads "undefined". *)
Definition formatBuildResult_lines (result : BuildResult) : list string :=
  if result_success result then
    ["Build Summary:"]
    ++ flat_map (fun entry =>
         match bundle_stats entry with
         | Some stats =>
             if bundle_success entry then
               [ "  ✓ " +:+ stats_entry stats +:+ ": " +:+ formatBytes (stats_size stats)
                 +:+ " (" +:+ pretty (stats_duration stats) +:+ "ms) → "
                 +:+ stats_outputPath stats ]
             else []
         | None => []
         end)
       (result_entries result)
    ++ [ newline +:+ "Total time: " +:+ pretty (result_duration result) +:+ "ms" ]
  else
    ["Build Failed:"]
    ++ flat_map (fun entry =>
         if negb (bundle_success entry)
         then [ "  ✗ " +:+ default "undefined" (bundle_error entry) ]
         else [])
       (result_entries result).

Definition formatBuildResult (result : BuildResult) : string :=
  String.concat newline (formatBuildResult_lines result).

(* ===================================================================== *)
(** ** services/config-live.ts: [findConfigFile] and [load]

    [load] hands [defineConfig] whatever the configuration module exports,
    so [defineConfig] is read here on an [unknown] as well; and the dynamic
    [import()] is one more call on the platform. *)
(* ===================================================================== *)

(** [x ?? {}] *)
Definition or_empty (x : value) : value :=
  match x with
  | VUndefined | VNull => VObj []
  | _ => x
  end.

(** [config.entries] of what a module exports: on an array it is the
    method [Array.prototype.entries]. *)
Definition entries_of (config : value) : value :=
  match config with
  | VArr _ => VFun "entries"
  | _ => get config "entries"
  end.

(** [defineConfig(config)] on the object a module exports. *)
Definition defineConfig_unknown (config : value) : Either ParseError Config :=
  decodeUnknownSync ConfigSchema
    (VObj [ ("entries", or_empty (entries_of config));
            ("build", or_empty (get config "build"));
            ("validation", or_empty (get config "validation")) ]).

(** A typed input as the object it is. *)
Definition ConfigInput_value (i : ConfigInput) : value :=
  VObj (prop "entries" EntriesInput_value (input_entries i)
     ++ prop "build" BuildInput_value (input_build i)
     ++ prop "validation" ValidationInput_value (input_validation i)).

Inductive ConfigError : Type :=
| ConfigNotFound (path message : string)
| ConfigInvalid (path : string) (errors : list string)
| ConfigLoadFailed (path cause : string).

Record LoadConfigOptions : Type := {
  load_cwd : option string;
  load_configPath : option string;
}.

Record LoadConfigResult : Type := {
  loaded_config : Config;
  loaded_configPath : option string;
  loaded_usingDefaults : bool;
}.

Definition CONFIG_FILENAMES : list string :=
  ["action.config.ts"; "action.config.js"; "action.config.mjs"].

Section Loading.

Context (P : Platform).

(** [import(absolutePath)]: the module namespace, or what loading threw. *)
Context (importModule : FS P -> string -> Either thrown value).

(** The loop of [findConfigFile] over the candidate names. *)
Fixpoint findConfigFile_in (f : FS P) (cwd : string) (filenames : list string)
    : option string :=
  match filenames with
  | [] => None
  | filename :: rest =>
      let configPath := path_resolve P cwd filename in
      if existsSync P f configPath then Some configPath
      else findConfigFile_in f cwd rest
  end.

Definition findConfigFile (f : FS P) (cwd : string) : option string :=
  findConfigFile_in f cwd CONFIG_FILENAMES.

(** A synchronous [defineConfig] inside [Effect.gen]: what it throws is a
    defect. *)
Definition defined (r : Either ParseError Config) : Effect P ConfigError Config :=
  fun w =>
    match r with
    | Right c => (Success c, w)
    | Left e => (Die (ThrownError (formatErrorSync P e)), w)
    end.

(** [load(options = {})] *)
Definition load (options : LoadConfigOptions) : Effect P ConfigError LoadConfigResult :=
  fun w =>
    let cwd := default (process_cwd w) (load_cwd options) in
    let configPath :=
      match load_configPath options with
      | Some p => Some p
      | None => findConfigFile (fs w) cwd
      end in
    if negb (truthy_string configPath) then
      Effect_bind P (defined (defineConfig empty_input)) (fun config =>
        Effect_succeed P {| loaded_config := config; loaded_configPath := None;
                            loaded_usingDefaults := true |}) w
    else
      let configPath := default "" configPath in
      if negb (existsSync P (fs w) configPath) then
        Effect_fail P
          (ConfigNotFound configPath "Specified config file does not exist") w
      else
        let absolutePath := path_resolve P cwd configPath in
        match importModule (fs w) absolutePath with
        | Left error =>
            Effect_fail P (ConfigLoadFailed configPath (cause_of_thrown error)) w
        | Right configModule =>
            let configInput := get configModule "default" in
            if negb (truthy configInput)
               || negb (match configInput with VObj _ | VArr _ => true | _ => false end)
            then
              Effect_fail P
                (ConfigInvalid configPath
                   ["Config file must export a default configuration object"]) w
            else
              Effect_bind P (defined (defineConfig_unknown configInput)) (fun config =>
                Effect_succeed P {| loaded_config := config;
                                    loaded_configPath := Some configPath;
                                    loaded_usingDefaults := false |}) w
        end.

(* ===================================================================== *)
(** ** index.ts: the [GitHubAction] class

    The object is its fields; a method returns what its promise settles
    with, the object as the method leaves it, and the world.  The [layer]
    option is left out: the services are the live ones. *)
(* ===================================================================== *)

Inductive ConfigSource : Type :=
| FromObject (input : ConfigInput)
| FromPath (path : string).

Record GitHubActionOptions : Type := {
  option_config : option ConfigSource;
  option_cwd : option string;
  option_skipValidation : option bool;
  option_clean : option bool;
}.

Record GitHubAction : Type := {
  this_config : option Config;
  this_cwd : string;
  this_configSource : option ConfigSource;
  this_skipValidation : bool;
  this_clean : bool;
}.

Record GitHubActionBuildResult : Type := {
  outcome_success : bool;
  outcome_build : option BuildResult;
  outcome_validation : option ValidationResult;
  outcome_error : option string;
}.

(** What [runPromise] rejects with: the failure or the defect of the
    effect it ran. *)
Inductive Rejection : Type :=
| RejectConfig (e : ConfigError)
| RejectTagged (e : TaggedError)
| RejectDefect (d : thrown).

Inductive Settled (A : Type) : Type :=
| Fulfilled (a : A)
| Rejected (reason : Rejection).
Arguments Fulfilled {A} a.
Arguments Rejected {A} reason.

(** [error.message] of a rejection of [runPromise]. *)
Context (rejection_message : Rejection -> string).

Definition runPromise {E A} (reject : E -> Rejection) (program : Effect P E A)
    (w : World P) : Settled A * World P :=
  match program w with
  | (Success a, w') => (Fulfilled a, w')
  | (Failure e, w') => (Rejected (reject e), w')
  | (Die d, w') => (Rejected (RejectDefect d), w')
  end.

(** [GitHubAction.create(options = {})] *)
Definition create (options : GitHubActionOptions) (w : World P) : GitHubAction :=
  {| this_config := None;
     this_cwd := default (process_cwd w) (option_cwd options);
     this_configSource := option_config options;
     this_skipValidation := default false (option_skipValidation options);
     this_clean := default true (option_clean options) |}.

Definition with_config (this : GitHubAction) (config : Config) : GitHubAction :=
  {| this_config := Some config;
     this_cwd := this_cwd this;
     this_configSource := this_configSource this;
     this_skipValidation := this_skipValidation this;
     this_clean := this_clean this |}.

(** [loadConfig()] *)
Definition loadConfig (this : GitHubAction) (w : World P)
    : Settled Config * GitHubAction * World P :=
  match this_config this with
  | Some config => (Fulfilled config, this, w)
  | None =>
      let program : Effect P ConfigError Config :=
        match this_configSource this with
        | Some (FromPath configSource) =>
            Effect_bind P
              (load {| load_cwd := Some (this_cwd this);
                       load_configPath := Some configSource |})
              (fun result => Effect_succeed P (loaded_config result))
        | Some (FromObject configSource) => defined (defineConfig configSource)
        | None =>
            Effect_bind P
              (load {| load_cwd := Some (this_cwd this); load_configPath := None |})
              (fun result => Effect_succeed P (loaded_config result))
        end in
      match runPromise RejectConfig program w with
      | (Fulfilled config, w') => (Fulfilled config, with_config this config, w')
      | (Rejected reason, w') => (Rejected reason, this, w')
      end
  end.

(** [validate(options = {})]; the options go over [{ cwd }], an option
    that is [None] being one that is not there. *)
Definition facade_validate (this : GitHubAction) (options : ValidateOptions) (w : World P)
    : Settled ValidationResult * GitHubAction * World P :=
  match loadConfig this w with
  | (Rejected reason, this', w') => (Rejected reason, this', w')
  | (Fulfilled config, this', w') =>
      let '(settled, w'') :=
        runPromise RejectTagged
          (validate P config
             {| validate_cwd := Some (default (this_cwd this) (validate_cwd options));
                validate_strict := validate_strict options |}) w' in
      (settled, this', w'')
  end.

(** [build()]: the [try] block, and the [catch] that turns a rejection
    into a result. *)
Definition facade_build (this : GitHubAction) (w : World P)
    : GitHubActionBuildResult * GitHubAction * World P :=
  let caught (reason : Rejection) :=
    {| outcome_success := false; outcome_build := None; outcome_validation := None;
       outcome_error := Some (rejection_message reason) |} in
  match loadConfig this w with
  | (Rejected reason, this1, w1) => (caught reason, this1, w1)
  | (Fulfilled config, this1, w1) =>
      let validated :=
        if negb (this_skipValidation this)
        then
          match facade_validate this1 {| validate_cwd := None; validate_strict := None |} w1
          with
          | (Fulfilled validationResult, this2, w2) => (Fulfilled (Some validationResult), this2, w2)
          | (Rejected reason, this2, w2) => (Rejected reason, this2, w2)
          end
        else (Fulfilled None, this1, w1) in
      match validated with
      | (Rejected reason, this2, w2) => (caught reason, this2, w2)
      | (Fulfilled validationResult, this2, w2) =>
          if match validationResult with
             | Some v => negb (valid v)
             | None => false
             end
          then
            ({| outcome_success := false; outcome_build := None;
                outcome_validation := validationResult;
                outcome_error := Some "Validation failed" |}, this2, w2)
          else
            match runPromise RejectTagged
                    (build P config {| run_cwd := Some (this_cwd this);
                                       run_clean := Some (this_clean this) |}) w2
            with
            | (Rejected reason, w3) => (caught reason, this2, w3)
            | (Fulfilled buildResult, w3) =>
                if negb (result_success buildResult) then
                  ({| outcome_success := false; outcome_build := Some buildResult;
                      outcome_validation := validationResult;
                      outcome_error :=
                        Some (default "Build failed" (result_error buildResult)) |},
                   this2, w3)
                else
                  ({| outcome_success := true; outcome_build := Some buildResult;
                      outcome_validation := validationResult;
                      outcome_error := None |}, this2, w3)
            end
      end
  end.

End Loading.

Arguments Fulfilled {A} a.
Arguments Rejected {A} reason.

(* ===================================================================== *)
(** ** cli/commands/build.ts and cli/commands/validate.ts

    A handler runs on the world and on the console, whose lines are kept
    in the order they are written. *)
(* ===================================================================== *)

Inductive ConsoleLine : Type :=
| Console_log (text : string)
| Console_error (text : string).

(** What a handler fails with: a failure of a service, or the
    [new Error(message)] it raises itself. *)
Inductive HandlerFailure : Type :=
| OfConfig (e : ConfigError)
| OfService (e : TaggedError)
| JsError (message : string).

Section Commands.

Context (P : Platform).
Context (importModule : FS P -> string -> Either thrown value).

Definition Handler (A : Type) : Type :=
  World P * list ConsoleLine -> Exit HandlerFailure A * (World P * list ConsoleLine).

Definition Handler_succeed {A} (a : A) : Handler A := fun s => (Success a, s).

Definition Handler_fail {A} (e : HandlerFailure) : Handler A := fun s => (Failure e, s).

Definition Handler_bind {A B} (x : Handler A) (k : A -> Handler B) : Handler B :=
  fun s =>
    match x s with
    | (Success a, s') => k a s'
    | (Failure e, s') => (Failure e, s')
    | (Die d, s') => (Die d, s')
    end.

Notation "'let*' x ':=' e 'in' k" := (Handler_bind e (fun x => k))
  (at level 10, x name, e at level 100, k at level 200).

Notation "'do*' e 'in' k" := (Handler_bind e (fun _ => k))
  (at level 10, e at level 100, k at level 200).

(** [yield* Console.log(..)] and [yield* Console.error(..)] *)
Definition say (line : ConsoleLine) : Handler unit :=
  fun s => (Success tt, (fst s, snd s ++ [line])).

(** [yield*] of a service's effect. *)
Definition service {E A} (inject : E -> HandlerFailure) (x : Effect P E A) : Handler A :=
  fun s =>
    match x (fst s) with
    | (Success a, w') => (Success a, (w', snd s))
    | (Failure e, w') => (Failure (inject e), (w', snd s))
    | (Die d, w') => (Die d, (w', snd s))
    end.

Definition when (b : bool) (x : Handler unit) : Handler unit :=
  if b then x else Handler_succeed tt.

(** [buildHandler({ config, quiet, noValidate })] *)
Definition buildHandler (config : option string) (quiet noValidate : bool) : Handler unit :=
  fun s =>
    let cwd := process_cwd (fst s) in
    (do* when (negb quiet) (say (Console_log "Loading configuration...")) in
     let loadOptions := {| load_cwd := Some cwd; load_configPath := config |} in
     let* configResult := service OfConfig (load P importModule loadOptions) in
     do* when (negb quiet)
           (if loaded_usingDefaults configResult
            then say (Console_log "  Using default configuration")
            else say (Console_log
                        ("  Found "
                         +:+ default "undefined" (loaded_configPath configResult)))) in
     do* (if negb noValidate then
            do* when (negb quiet) (say (Console_log (newline +:+ "Validating..."))) in
            let* validationResult :=
              service OfService
                (validate P (loaded_config configResult)
                   {| validate_cwd := Some cwd; validate_strict := None |}) in
            if negb (valid validationResult) then
              do* say (Console_error (newline +:+ formatResult validationResult)) in
              Handler_fail (JsError "Validation failed")
            else if negb quiet && Nat.ltb 0 (length (warnings validationResult)) then
              say (Console_log (formatResult validationResult))
            else if negb quiet then say (Console_log "  All checks passed")
            else Handler_succeed tt
          else Handler_succeed tt) in
     do* when (negb quiet) (say (Console_log (newline +:+ "Building..."))) in
     let* buildResult :=
       service OfService
         (build P (loaded_config configResult) {| run_cwd := Some cwd; run_clean := None |}) in
     if negb (result_success buildResult) then
       do* say (Console_error (newline +:+ "Build failed: "
                               +:+ default "undefined" (result_error buildResult))) in
       Handler_fail (JsError "Build failed")
     else
       when (negb quiet)
         (do* say (Console_log (newline +:+ formatBuildResult buildResult)) in
          say (Console_log (newline +:+ "Build completed successfully!")))) s.

(** [validateHandler({ config, quiet })] *)
Definition validateHandler (config : option string) (quiet : bool) : Handler unit :=
  fun s =>
    let cwd := process_cwd (fst s) in
    (do* when (negb quiet) (say (Console_log "Loading configuration...")) in
     let loadOptions := {| load_cwd := Some cwd; load_configPath := config |} in
     let* configResult := service OfConfig (load P importModule loadOptions) in
     do* when (negb quiet)
           (if loaded_usingDefaults configResult
            then say (Console_log "  Using default configuration")
            else say (Console_log
                        ("  Found "
                         +:+ default "undefined" (loaded_configPath configResult)))) in
     do* when (negb quiet) (say (Console_log (newline +:+ "Validating..."))) in
     let* validationResult :=
       service OfService
         (validate P (loaded_config configResult)
            {| validate_cwd := Some cwd; validate_strict := None |}) in
     do* say (Console_log (newline +:+ formatResult validationResult)) in
     if negb (valid validationResult) then Handler_fail (JsError "Validation failed")
     else when (negb quiet) (say (Console_log (newline +:+ "Validation completed successfully!")))) s.

End Commands.

Definition is_error_line (l : ConsoleLine) : bool :=
  match l with
  | Console_error _ => true
  | Console_log _ => false
  end.


(* ===================================================================== *)
(** ** An in-memory platform

    Files are a finite map from absolute paths to contents; a directory
    exists when a file lies under it.  [locked] are the paths the file
    system refuses to write or remove, [broken] the entry files the
    bundler rejects, and [documents] the YAML texts with the values they
    parse to (any other text is a syntax error). *)
(* ===================================================================== *)

Module Mem.

Definition under (dir path : string) : bool := String.prefix (dir +:+ "/") path.

Definition resolve (base p : string) : string :=
  if String.prefix "/" p then p else base +:+ "/" +:+ p.

Definition exists_ (f : gmap string string) (p : string) : bool :=
  bool_decide (is_Some (f !! p))
  || existsb (fun kv => under p (fst kv)) (map_to_list f).

Definition read (f : gmap string string) (p : string) : Either thrown string :=
  match f !! p with
  | Some content => Right content
  | None => Left (ThrownError "ENOENT: no such file or directory")
  end.

Definition is_locked (locked : list string) (p : string) : bool :=
  existsb (String.eqb p) locked.

Definition rm (locked : list string) (f : gmap string string) (dir : string)
    : Either thrown unit * gmap string string :=
  if is_locked locked dir then (Left (ThrownError "EACCES: permission denied"), f)
  else (Right tt,
        filter (fun kv => under dir (fst kv) = false /\ fst kv <> dir) f).

Definition mkdir (f : gmap string string) (dir : string)
    : Either thrown unit * gmap string string := (Right tt, f).

Definition write (locked : list string) (f : gmap string string) (p content : string)
    : Either thrown unit * gmap string string :=
  if is_locked locked p then (Left (ThrownError "EACCES: permission denied"), f)
  else (Right tt, <[p := content]> f).

Definition parse (documents : list (string * value)) (text : string) : Either thrown value :=
  match own documents text with
  | Some v => Right v
  | None => Left (ThrownError "YAMLParseError")
  end.

Definition run_ncc (broken : list string) (f : gmap string string) (entryPath : string)
    (options : NccOptions) : Either thrown NccResult * Z :=
  match f !! entryPath with
  | None => (Left (ThrownError "Cannot find module"), 1%Z)
  | Some source =>
      if existsb (String.eqb entryPath) broken
      then (Left (ThrownError "Module build failed"), 2%Z)
      else (Right {| ncc_code := "/* bundled */ " +:+ source;
                     ncc_map := if default false (sourceMap options)
                                then Some "{}" else None;
                     ncc_assets := [] |}, 5%Z)
  end.

Definition format_key (k : PropertyKey) : string :=
  match k with
  | Key s => s
  | Index i => "[" +:+ String.concat "" (repeat "i" i) +:+ "]"
  end.

Definition format_issue (i : Issue) : string :=
  String.concat "." (map format_key (issue_path i)) +:+
  match issue_kind i with
  | Missing => ": is missing"
  | Mismatch expected _ => ": expected " +:+ expected
  end.

Definition format (e : ParseError) : string := String.concat "; " (map format_issue e).

Definition platform (locked broken : list string) (documents : list (string * value))
    : Platform :=
  {| FS := gmap string string;
     path_resolve := resolve;
     existsSync := exists_;
     readFileSync := read;
     rmSync := rm locked;
     mkdirSync := mkdir;
     writeFileSync := write locked;
     parseYaml := parse documents;
     ncc := run_ncc broken;
     formatErrorSync := format |}.

Definition world (locked broken : list string) (documents : list (string * value))
    (files : list (string * string)) (vars : list (string * string))
    : World (platform locked broken documents) :=
  Build_World (platform locked broken documents)
    (list_to_map files : gmap string string) (list_to_map vars) "/work" 1000 [].

(** The files of a world, in key order. *)
Definition files_of {locked broken documents}
    (w : World (platform locked broken documents)) : list (string * string) :=
  map_to_list (fs w : gmap string string).

End Mem.

(* ===================================================================== *)
(** ** Sample projects on the in-memory platform *)
(* ===================================================================== *)

Module Sample.

(** The defaults, as [defineConfig({})] returns them. *)
Definition config : Config :=
  {| config_entries :=
       {| entries_main := "src/main.ts"; entries_pre := None; entries_post := None |};
     config_build :=
       {| build_minify := true; build_target := es2022; build_sourceMap := false;
          build_externals := []; build_quiet := false |};
     config_validation :=
       {| validation_requireActionYml := true; validation_maxBundleSize := None;
          validation_strict := None |} |}.

Definition manifest (runtime : string) : value :=
  VObj [ ("name", VStr "Sample");
         ("description", VStr "A sample action");
         ("runs", VObj [ ("using", VStr runtime); ("main", VStr "dist/main.js") ]);
         ("branding", VObj [ ("icon", VStr "zap"); ("color", VStr "blue") ]) ].

(** YAML texts, named by what they parse to. *)
Definition documents : list (string * value) :=
  [ ("node24 manifest", manifest "node24");
    ("node20 manifest", manifest "node20");
    ("empty mapping", VObj []) ].

(** No path is locked; the bundler rejects [src/pre.ts]. *)
Definition platform : Platform := Mem.platform [] ["/work/src/pre.ts"] documents.

Definition world (files : list (string * string)) (vars : list (string * string))
    : World platform :=
  Mem.world [] ["/work/src/pre.ts"] documents files vars.

Definition no_options : ValidateOptions :=
  {| validate_cwd := None; validate_strict := None |}.

Definition clean_build : BuildRunnerOptions :=
  {| run_cwd := None; run_clean := Some true |}.

(** The primary entry alone, no manifest, on a CI runner. *)
Definition ci_without_manifest : World platform :=
  world [ ("/work/src/main.ts", "main()") ] [ ("CI", "true") ].

(** A manifest for node20 beside the primary entry. *)
Definition node20_project : World platform :=
  world [ ("/work/src/main.ts", "main()"); ("/work/action.yml", "node20 manifest") ] [].

(** The three entries, of which the bundler rejects the second, and an
    earlier build in dist. *)
Definition three_entries : World platform :=
  world [ ("/work/src/main.ts", "main()"); ("/work/src/pre.ts", "pre()");
          ("/work/src/post.ts", "post()"); ("/work/dist/stale.js", "old") ] [].

(** An earlier build in dist, and no source. *)
Definition only_dist : World platform :=
  world [ ("/work/dist/main.js", "old") ] [].

End Sample.

(* ===================================================================== *)
(** ** Definitions used to state the properties *)
(* ===================================================================== *)

(** A schema reads back what an injection wrote. *)
Definition reads_back {A} (s : Schema A) (inj : A -> value) : Prop :=
  forall m a, s m (inj a) = Right a /\ inj a <> VUndefined.

(** The defaults of the three sections, as the schemas document them. *)
Definition resolved_entries (e : option EntriesInput) : Entries :=
  {| entries_main := default "src/main.ts" (e ≫= input_main);
     entries_pre := e ≫= input_pre;
     entries_post := e ≫= input_post |}.

Definition resolved_build (b : option BuildInput) : BuildOptions :=
  {| build_minify := default true (b ≫= input_minify);
     build_target := default es2022 (b ≫= input_target);
     build_sourceMap := default false (b ≫= input_sourceMap);
     build_externals := default [] (b ≫= input_externals);
     build_quiet := default false (b ≫= input_quiet) |}.

Definition resolved_validation (v : option ValidationInput) : ValidationOptions :=
  {| validation_requireActionYml := default true (v ≫= input_requireActionYml);
     validation_maxBundleSize := v ≫= input_maxBundleSize;
     validation_strict := v ≫= input_strict |}.

(** A resolved configuration, given back as an input. *)
Definition as_input (c : Config) : ConfigInput :=
  {| input_entries :=
       Some {| input_main := Some (entries_main (config_entries c));
               input_pre := entries_pre (config_entries c);
               input_post := entries_post (config_entries c) |};
     input_build :=
       Some {| input_minify := Some (build_minify (config_build c));
               input_target := Some (build_target (config_build c));
               input_sourceMap := Some (build_sourceMap (config_build c));
               input_externals := Some (build_externals (config_build c));
               input_quiet := Some (build_quiet (config_build c)) |};
     input_validation :=
       Some {| input_requireActionYml :=
                 Some (validation_requireActionYml (config_validation c));
               input_maxBundleSize := validation_maxBundleSize (config_validation c);
               input_strict := validation_strict (config_validation c) |} |}.

(** The items the validation orchestrator reports. *)
Definition main_entry_missing_item (expectedPath : string) : ValidationItem :=
  {| code := "MAIN_ENTRY_MISSING";
     message := "Main entry point not found: " +:+ expectedPath;
     file := Some expectedPath;
     suggestion := Some "Create src/main.ts or specify a different path in config" |}.

Definition action_yml_missing_item (actionYmlPath : string) : ValidationItem :=
  {| code := "ACTION_YML_MISSING";
     message := "action.yml not found";
     file := Some actionYmlPath;
     suggestion := Some "Create action.yml to define your action metadata" |}.

Definition syntax_error_item (path message : string) : ValidationItem :=
  {| code := "ACTION_YML_SYNTAX_ERROR"; message := message;
     file := Some path; suggestion := None |}.

Definition schema_error_item (path : string) (schemaError : string * string) : ValidationItem :=
  {| code := "ACTION_YML_SCHEMA_ERROR"; message := snd schemaError;
     file := Some path; suggestion := None |}.

Definition has_code (c : string) (i : ValidationItem) : bool := String.eqb (code i) c.

(** Every field-level violation of the manifest schema in a parsed tree:
    what decoding reports when no violation is skipped. *)
Definition all_violations (parsed : value) : list Issue :=
  match ActionYmlSchema AllErrors parsed with
  | Left issues => issues
  | Right _ => []
  end.

(** The [BundleResult] of one entry: its statistics, or a cause. *)
Definition result_for (entry : DetectedEntry) (r : BundleResult) : Prop :=
  (bundle_success r = true /\ bundle_error r = None /\
   exists stats, bundle_stats r = Some stats
     /\ stats_entry stats = EntryType_name (entry_type entry)
     /\ stats_outputPath stats = entry_output entry)
  \/
  (bundle_success r = false /\ bundle_stats r = None /\
   exists c, bundle_error r = Some c).

(** The options the bundler receives for an entry: those of the
    configuration, which [bundleEntry] sets one by one. *)
Definition ncc_options (config : Config) : NccOptions :=
  {| minify := Some (build_minify (config_build config));
     sourceMap := Some (build_sourceMap (config_build config));
     target := Some (EsTarget_name (build_target (config_build config)));
     externals := Some (build_externals (config_build config));
     quiet := Some (build_quiet (config_build config)) |}.

(** The results of the loop of [build], entry by entry: an entry is
    bundled in the world its predecessors left; its result is the one
    [bundleEntry] returned, or, when [bundleEntry] failed, success = false
    with the cause of that failure; and the next entry follows in either
    case. *)
Inductive entry_results (P : Platform) (config : Config) (cwd : string)
    : list DetectedEntry -> World P -> list BundleResult -> World P -> Prop :=
| results_none (w : World P) : entry_results P config cwd [] w [] w
| results_bundled (entry : DetectedEntry) (rest : list DetectedEntry) (w w1 w2 : World P)
    (r : BundleResult) (rs : list BundleResult) :
    bundleEntry P entry config cwd w = (Success r, w1) ->
    entry_results P config cwd rest w1 rs w2 ->
    entry_results P config cwd (entry :: rest) w (r :: rs) w2
| results_failed (entry : DetectedEntry) (rest : list DetectedEntry) (w w1 w2 : World P)
    (e : TaggedError) (c : string) (rs : list BundleResult) :
    bundleEntry P entry config cwd w = (Failure e, w1) ->
    cause e = Some c ->
    entry_results P config cwd rest w1 rs w2 ->
    entry_results P config cwd (entry :: rest) w
      ({| bundle_success := false; bundle_stats := None; bundle_error := Some c |} :: rs) w2.

(** An effect that touches nothing but the file system, fails only with
    a [WriteError], and on success returns a value satisfying [Q]. *)
Definition writes_only (P : Platform) {A} (Q : A -> Prop) (x : Effect P TaggedError A)
    : Prop :=
  forall w, exists f',
    snd (x w) = with_fs P w f'
    /\ match fst (x w) with
       | Success a => Q a
       | Failure e => exists p c, e = WriteError p c
       | Die _ => False
       end.

(** A configuration with an empty-string [pre] or [post] taken out. *)
Definition without_empty_entries (config : Config) : Config :=
  {| config_entries :=
       {| entries_main := entries_main (config_entries config);
          entries_pre := if truthy_string (entries_pre (config_entries config))
                         then entries_pre (config_entries config) else None;
          entries_post := if truthy_string (entries_post (config_entries config))
                          then entries_post (config_entries config) else None |};
     config_build := config_build config;
     config_validation := config_validation config |}.

(** Every member of an [inputs] or [outputs] map has a truthy
    description. *)
Definition all_described (members : value) : bool :=
  forallb (fun kv => truthy (get (snd kv) "description")) (Object_entries members).

(** The three warnings about branding. *)
Definition is_branding_warning (i : ValidationItem) : bool :=
  String.prefix "ACTION_YML_NO_BRANDING" (code i).

Definition is_empty_string (v : value) : bool :=
  match v with
  | VStr s => String.eqb s ""
  | _ => false
  end.

(** The lines [formatResult] prints for one item, under its mark. *)
Definition item_lines (mark : string) (item : ValidationItem) : list string :=
  [mark +:+ message item]
  ++ (if truthy_string (suggestion item)
      then ["    → " +:+ default "" (suggestion item)] else []).

(** The entries of a build result that failed. *)
Definition failed_entries (rs : list BundleResult) : list BundleResult :=
  List.filter (fun r => negb (bundle_success r)) rs.

(** An effect under which a property of the file system is kept. *)
Definition keeps (P : Platform) {E A} (I : FS P -> Prop) (x : Effect P E A) : Prop :=
  forall w, I (fs w) -> I (fs (snd (x w))).

(** What [build()] does once the configuration is there. *)
Definition build_step (P : Platform) (rejection_message : Rejection -> string)
    (this : GitHubAction) (config : Config)
    (validationResult : option ValidationResult) (w : World P)
    : GitHubActionBuildResult * World P :=
  match build P config {| run_cwd := Some (this_cwd this);
                          run_clean := Some (this_clean this) |} w with
  | (Success buildResult, w') =>
      ({| outcome_success := result_success buildResult;
          outcome_build := Some buildResult;
          outcome_validation := validationResult;
          outcome_error := if result_success buildResult then None
                           else Some (default "Build failed" (result_error buildResult)) |},
       w')
  | (Failure e, w') =>
      ({| outcome_success := false; outcome_build := None; outcome_validation := None;
          outcome_error := Some (rejection_message (RejectTagged e)) |}, w')
  | (Die d, w') =>
      ({| outcome_success := false; outcome_build := None; outcome_validation := None;
          outcome_error := Some (rejection_message (RejectDefect d)) |}, w')
  end.

(* ===================================================================== *)
(** ** More sample projects *)
(* ===================================================================== *)

Module Cases.

(** A manifest whose input [token] and output [digest] have an empty
    description, and that has no branding. *)
Definition terse_manifest : value :=
  VObj [ ("name", VStr "Terse");
         ("description", VStr "A terse action");
         ("inputs", VObj [ ("token", VObj [ ("description", VStr "") ]);
                           ("ref", VObj [ ("description", VStr "The ref to build") ]) ]);
         ("outputs", VObj [ ("digest", VObj [ ("description", VStr "") ]) ]);
         ("runs", VObj [ ("using", VStr "node24"); ("main", VStr "dist/main.js") ]) ].

Definition documents : list (string * value) :=
  [ ("terse manifest", terse_manifest);
    ("a sequence", VArr [ VStr "name"; VStr "runs" ]) ].

Definition platform : Platform := Mem.platform [] [] documents.

(** The primary entry beside a manifest that is a sequence. *)
Definition sequence_project : World platform :=
  Mem.world [] [] documents
    [ ("/work/src/main.ts", "main()"); ("/work/action.yml", "a sequence") ] [].

(** Configuration modules, named by their text, with what they export. *)
Definition modules : list (string * value) :=
  [ ("minify off",
     VObj [ ("default", VObj [ ("build", VObj [ ("minify", VBool false) ]) ]) ]);
    ("a text", VObj [ ("default", VStr "none") ]) ].

(** [import(path)] on the files of the in-memory platform. *)
Definition importModule (f : gmap string string) (p : string) : Either thrown value :=
  match f !! p with
  | None => Left (ThrownError "Cannot find module")
  | Some text =>
      match own modules text with
      | Some namespace => Right namespace
      | None => Left (ThrownError "SyntaxError")
      end
  end.

Definition rejection_message (reason : Rejection) : string :=
  match reason with
  | RejectConfig _ => "ConfigError"
  | RejectTagged (ValidationFailed _ _ message) => message
  | RejectTagged e => default "An error has occurred" (cause e)
  | RejectDefect d => cause_of_thrown d
  end.

(** The primary entry alone, off CI. *)
Definition lenient_project : World Sample.platform :=
  Sample.world [ ("/work/src/main.ts", "main()") ] [].

(** The primary entry beside a configuration file with the given text. *)
Definition configured (text : string) : World Sample.platform :=
  Sample.world [ ("/work/src/main.ts", "main()"); ("/work/action.config.ts", text) ] [].

(** The primary entry beside a file that no build writes. *)
Definition notes_project : World Sample.platform :=
  Sample.world [ ("/work/src/main.ts", "main()"); ("/work/NOTES.md", "notes") ] [].

Definition keep_build : BuildRunnerOptions :=
  {| run_cwd := None; run_clean := Some false |}.

(** [load({ cwd: "/work" })]: the file is looked for. *)
Definition in_work : LoadConfigOptions :=
  {| load_cwd := Some "/work"; load_configPath := None |}.

(** The defaults with [build.minify] off. *)
Definition unminified : Config :=
  {| config_entries := config_entries Sample.config;
     config_build :=
       {| build_minify := false; build_target := es2022; build_sourceMap := false;
          build_externals := []; build_quiet := false |};
     config_validation := config_validation Sample.config |}.

(** [GitHubAction.create({ cwd: "/work" })] *)
Definition action : GitHubAction :=
  create Sample.platform
    {| option_config := None; option_cwd := Some "/work";
       option_skipValidation := None; option_clean := None |}
    lenient_project.

(** The defaults with [validation.requireActionYml] switched off. *)
Definition manifest_not_required : Config :=
  {| config_entries := config_entries Sample.config;
     config_build := config_build Sample.config;
     config_validation :=
       {| validation_requireActionYml := false; validation_maxBundleSize := None;
          validation_strict := None |} |}.

Definition pre_entry : DetectedEntry :=
  {| entry_type := pre; entry_path := "/work/src/pre.ts"; entry_output := "dist/pre.js" |}.

(** What [validate] returns for [lenient_project]. *)
Definition lenient_result : ValidationResult :=
  {| valid := true; errors := [];
     warnings := [action_yml_missing_item "/work/action.yml"] |}.

End Cases.

(* ===================================================================== *)
(** * Properties *)
(* ===================================================================== *)

(** ** Decoding *)

Lemma isLeft_both {A B C} m (f : A -> B -> C) x y :
  isLeft (both m f x y) = isLeft x || isLeft y.
Proof. destruct x, y; reflexivity. Qed.

Lemma isLeft_at_key {A} k (r : Either ParseError A) : isLeft (at_key k r) = isLeft r.
Proof. destruct r; reflexivity. Qed.

Lemma isLeft_ap_props {A B} (f : Props (A -> B)) (x : Props A) m o :
  isLeft ((f <*> x) m o) = isLeft (f m o) || isLeft (x m o).
Proof. apply isLeft_both. Qed.

Lemma isLeft_true {E A} (x : Either E A) : isLeft x = true -> exists e, x = Left e.
Proof. destruct x; [eauto | discriminate]. Qed.

(** A property written by [prop] is read back, and hides nothing else. *)
Lemma own_prop_last {A} k (inj : A -> value) (o : option A) :
  own (prop k inj o) k = inj <$> o.
Proof. destruct o; simpl; [rewrite String.eqb_refl|]; reflexivity. Qed.

Lemma own_prop_last_ne {A} k k' (inj : A -> value) (o : option A) :
  String.eqb k' k = false -> own (prop k' inj o) k = None.
Proof. intros H. destruct o; simpl; [rewrite H|]; reflexivity. Qed.

Lemma own_prop_ne {A} k k' (inj : A -> value) (o : option A) rest :
  String.eqb k' k = false -> own (prop k' inj o ++ rest) k = own rest k.
Proof. intros H. destruct o; simpl; [rewrite H|]; reflexivity. Qed.

Lemma own_prop_eq {A} k (inj : A -> value) (o : option A) rest :
  own rest k = None -> own (prop k inj o ++ rest) k = inj <$> o.
Proof. intros H. destruct o; simpl; [rewrite String.eqb_refl|]; auto. Qed.

Lemma optionalWith_reads {A} k (s : Schema A) d inj m o (x : option A) :
  reads_back s inj -> own o k = inj <$> x -> optionalWith k s d m o = Right (default d x).
Proof.
  intros Hs Ho. unfold optionalWith. rewrite Ho.
  destruct x as [a|]; simpl; [|reflexivity].
  destruct (Hs m a) as [Hd Hu]. rewrite Hd.
  destruct (inj a); try reflexivity. congruence.
Qed.

Lemma optional_reads {A} k (s : Schema A) inj m o (x : option A) :
  reads_back s inj -> own o k = inj <$> x -> optional k s m o = Right x.
Proof.
  intros Hs Ho. unfold optional. rewrite Ho.
  destruct x as [a|]; simpl; [|reflexivity].
  destruct (Hs m a) as [Hd Hu]. rewrite Hd.
  destruct (inj a); try reflexivity. congruence.
Qed.

Lemma SString_reads : reads_back SString VStr.
Proof. intros m a. split; [reflexivity | discriminate]. Qed.

Lemma SBoolean_reads : reads_back SBoolean VBool.
Proof. intros m a. split; [reflexivity | discriminate]. Qed.

Lemma EsTargetSchema_reads : reads_back EsTargetSchema (fun t => VStr (EsTarget_name t)).
Proof. intros m a. split; [destruct a; reflexivity | discriminate]. Qed.

Lemma decode_items_strings m i (xs : list string) :
  decode_items SString m i (map VStr xs) = Right xs.
Proof.
  revert i. induction xs as [|x xs IH]; intros i; simpl; [reflexivity|].
  rewrite IH. reflexivity.
Qed.

Lemma SArray_SString_reads : reads_back (SArray SString) (fun xs => VArr (map VStr xs)).
Proof. intros m a. split; [apply decode_items_strings | discriminate]. Qed.

Create HintDb schema.

#[local] Hint Resolve SString_reads SBoolean_reads EsTargetSchema_reads
  SArray_SString_reads : schema.

Ltac absent_prop :=
  first [ apply own_prop_last_ne; reflexivity
        | rewrite own_prop_ne by reflexivity; absent_prop ].

Ltac read_prop :=
  first [ apply own_prop_last
        | apply own_prop_eq; absent_prop
        | rewrite own_prop_ne by reflexivity; read_prop ].

Lemma EntriesSchema_input m (e : option EntriesInput) :
  EntriesSchema m (default (VObj []) (EntriesInput_value <$> e)) = Right (resolved_entries e).
Proof.
  destruct e as [e|]; [|reflexivity].
  unfold EntriesSchema, Struct, ap_props, pure_props.
  change (default (VObj []) (EntriesInput_value <$> Some e)) with (EntriesInput_value e).
  unfold EntriesInput_value.
  rewrite (optionalWith_reads "main" SString _ VStr m _ (input_main e))
    by (auto with schema; read_prop).
  rewrite (optional_reads "pre" SString VStr m _ (input_pre e))
    by (auto with schema; read_prop).
  rewrite (optional_reads "post" SString VStr m _ (input_post e))
    by (auto with schema; read_prop).
  reflexivity.
Qed.

Lemma BuildOptionsSchema_input m (b : option BuildInput) :
  BuildOptionsSchema m (default (VObj []) (BuildInput_value <$> b)) = Right (resolved_build b).
Proof.
  destruct b as [b|]; [|reflexivity].
  unfold BuildOptionsSchema, Struct, ap_props, pure_props.
  change (default (VObj []) (BuildInput_value <$> Some b)) with (BuildInput_value b).
  unfold BuildInput_value.
  rewrite (optionalWith_reads "minify" SBoolean _ VBool m _ (input_minify b))
    by (auto with schema; read_prop).
  rewrite (optionalWith_reads "target" EsTargetSchema _ (fun t => VStr (EsTarget_name t)) m _
             (input_target b)) by (auto with schema; read_prop).
  rewrite (optionalWith_reads "sourceMap" SBoolean _ VBool m _ (input_sourceMap b))
    by (auto with schema; read_prop).
  rewrite (optionalWith_reads "externals" (SArray SString) _ (fun xs => VArr (map VStr xs)) m _
             (input_externals b)) by (auto with schema; read_prop).
  rewrite (optionalWith_reads "quiet" SBoolean _ VBool m _ (input_quiet b))
    by (auto with schema; read_prop).
  reflexivity.
Qed.

Lemma ValidationOptionsSchema_input m (v : option ValidationInput) :
  ValidationOptionsSchema m (default (VObj []) (ValidationInput_value <$> v))
  = Right (resolved_validation v).
Proof.
  destruct v as [v|]; [|reflexivity].
  unfold ValidationOptionsSchema, Struct, ap_props, pure_props.
  change (default (VObj []) (ValidationInput_value <$> Some v)) with (ValidationInput_value v).
  unfold ValidationInput_value.
  rewrite (optionalWith_reads "requireActionYml" SBoolean _ VBool m _ (input_requireActionYml v))
    by (auto with schema; read_prop).
  rewrite (optional_reads "maxBundleSize" SString VStr m _ (input_maxBundleSize v))
    by (auto with schema; read_prop).
  rewrite (optional_reads "strict" SBoolean VBool m _ (input_strict v))
    by (auto with schema; read_prop).
  reflexivity.
Qed.

(** [defineConfig] never throws on a typed input, and fills in exactly
    the documented defaults. *)
Lemma defineConfig_resolved (config : ConfigInput) :
  defineConfig config
  = Right {| config_entries := resolved_entries (input_entries config);
             config_build := resolved_build (input_build config);
             config_validation := resolved_validation (input_validation config) |}.
Proof.
  unfold defineConfig, decodeUnknownSync, ConfigSchema, Struct, ap_props, pure_props, required.
  cbn [own String.eqb Ascii.eqb Bool.eqb].
  rewrite EntriesSchema_input, BuildOptionsSchema_input, ValidationOptionsSchema_input.
  reflexivity.
Qed.

Section Properties.

Context (P : Platform).

(** ** Effects that only read *)

Lemma with_fs_same (w : World P) : with_fs P w (fs w) = w.
Proof. destruct w; reflexivity. Qed.

(** ** Configuration *)

(** C9: [resolve] never fails on a typed partial input, and leaves the
    world as it was: it returns the configuration in which every field the
    input does not set has its documented default (entries.main
    "src/main.ts", build.minify true, build.target es2022, build.sourceMap
    false, build.externals [], build.quiet false,
    validation.requireActionYml true) and every field it sets has the
    value given; resolving the same input twice gives the same
    configuration twice, and resolving a resolved configuration gives it
    back. *)
Theorem resolve_defaults (input : option ConfigInput) (w : World P) :
  let i := default empty_input input in
  exists c : Config,
    resolve P input w = (Success c, w)
    /\ entries_main (config_entries c) = default "src/main.ts" (input_entries i ≫= input_main)
    /\ entries_pre (config_entries c) = input_entries i ≫= input_pre
    /\ entries_post (config_entries c) = input_entries i ≫= input_post
    /\ build_minify (config_build c) = default true (input_build i ≫= input_minify)
    /\ build_target (config_build c) = default es2022 (input_build i ≫= input_target)
    /\ build_sourceMap (config_build c) = default false (input_build i ≫= input_sourceMap)
    /\ build_externals (config_build c) = default [] (input_build i ≫= input_externals)
    /\ build_quiet (config_build c) = default false (input_build i ≫= input_quiet)
    /\ validation_requireActionYml (config_validation c)
       = default true (input_validation i ≫= input_requireActionYml)
    /\ validation_maxBundleSize (config_validation c)
       = input_validation i ≫= input_maxBundleSize
    /\ validation_strict (config_validation c) = input_validation i ≫= input_strict
    /\ Effect_bind P (resolve P input) (fun a =>
         Effect_bind P (resolve P input) (fun b => Effect_succeed P (a, b))) w
       = (Success (c, c), w)
    /\ resolve P (Some (as_input c)) w = (Success c, w).
Proof.
  intros i.
  assert (Hr : forall x, resolve P x w
            = (Success {| config_entries := resolved_entries (input_entries (default empty_input x));
                          config_build := resolved_build (input_build (default empty_input x));
                          config_validation :=
                            resolved_validation (input_validation (default empty_input x)) |}, w)).
  { intros x. unfold resolve. rewrite defineConfig_resolved. reflexivity. }
  eexists. split; [apply Hr|]. fold i.
  repeat (split; [reflexivity|]).
  split.
  - unfold Effect_bind, Effect_succeed. rewrite Hr. cbv beta iota. rewrite Hr. reflexivity.
  - rewrite Hr. reflexivity.
Qed.

(** ** Entry detection *)

(** The two ways [detectEntries] ends; it only reads. *)
Lemma detectEntries_cases (cwd : string) (entries : option EntriesInput) (w : World P) :
  let mainPath := default "src/main.ts" (entries ≫= input_main) in
  let prePath := default "src/pre.ts" (entries ≫= input_pre) in
  let postPath := default "src/post.ts" (entries ≫= input_post) in
  let present p := existsSync P (fs w) (path_resolve P cwd p) in
  let entry t p := {| entry_type := t;
                      entry_path := path_resolve P cwd p;
                      entry_output := "dist/" +:+ EntryType_name t +:+ ".js" |} in
  (present mainPath = false ->
   detectEntries P cwd entries w = (Failure (MainEntryMissing mainPath cwd), w))
  /\ (present mainPath = true ->
      detectEntries P cwd entries w
      = (Success {| detect_success := true;
                    detect_entries :=
                      [entry main mainPath]
                      ++ (if present prePath then [entry pre prePath] else [])
                      ++ (if present postPath then [entry post postPath] else []) |}, w)).
Proof.
  intros mainPath prePath postPath present entry. unfold present. split; intros H.
  - unfold detectEntries. cbv zeta.
    change (default (DEFAULT_ENTRIES main) (entries ≫= input_main)) with mainPath.
    rewrite H. reflexivity.
  - unfold detectEntries, detectOptionalEntry. cbv zeta.
    change (default (DEFAULT_ENTRIES main) (entries ≫= input_main)) with mainPath.
    rewrite H.
    change (default (DEFAULT_ENTRIES pre) (entries ≫= input_pre)) with prePath.
    change (default (DEFAULT_ENTRIES post) (entries ≫= input_post)) with postPath.
    destruct (existsSync P (fs w) (path_resolve P cwd prePath)),
             (existsSync P (fs w) (path_resolve P cwd postPath)); reflexivity.
Qed.

(** C6: [detectEntries] fails, with [MainEntryMissing] carrying the
    relative path it looked for and the working directory, exactly when
    the primary entry file (the override, else src/main.ts) does not exist;
    otherwise it returns the main entry followed by the pre and the post
    entry, each one present exactly when its file (the override, else
    src/pre.ts, src/post.ts) exists, with output dist/<role>.js.  With
    the primary file alone there is one entry, with all three files there
    are three.  The world is left as it was. *)
Theorem detectEntries_spec (cwd : string) (entries : option EntriesInput) (w : World P) :
  let mainPath := default "src/main.ts" (entries ≫= input_main) in
  let prePath := default "src/pre.ts" (entries ≫= input_pre) in
  let postPath := default "src/post.ts" (entries ≫= input_post) in
  let present p := existsSync P (fs w) (path_resolve P cwd p) in
  let entry t p := {| entry_type := t;
                      entry_path := path_resolve P cwd p;
                      entry_output := "dist/" +:+ EntryType_name t +:+ ".js" |} in
  ((exists e, fst (detectEntries P cwd entries w) = Failure e) <-> present mainPath = false)
  /\ (present mainPath = false ->
      detectEntries P cwd entries w = (Failure (MainEntryMissing mainPath cwd), w))
  /\ (present mainPath = true ->
      detectEntries P cwd entries w
      = (Success {| detect_success := true;
                    detect_entries :=
                      [entry main mainPath]
                      ++ (if present prePath then [entry pre prePath] else [])
                      ++ (if present postPath then [entry post postPath] else []) |}, w))
  /\ (present mainPath = true -> present prePath = false -> present postPath = false ->
      exists r, detectEntries P cwd entries w = (Success r, w)
                /\ detect_entries r = [entry main mainPath])
  /\ (present mainPath = true -> present prePath = true -> present postPath = true ->
      exists r, detectEntries P cwd entries w = (Success r, w)
                /\ detect_entries r
                   = [entry main mainPath; entry pre prePath; entry post postPath]).
Proof.
  intros mainPath prePath postPath present entry.
  destruct (detectEntries_cases cwd entries w) as [Hmiss Hok].
  split; [|split; [exact Hmiss|split; [exact Hok|split]]].
  - split.
    + intros [e He]. destruct (present mainPath) eqn:Hp; [|reflexivity].
      rewrite (Hok Hp) in He. discriminate.
    + intros H. rewrite (Hmiss H). eauto.
  - intros Hm Hp Hq. rewrite (Hok Hm).
    unfold present, prePath, postPath in Hp, Hq. rewrite Hp, Hq.
    eexists. split; reflexivity.
  - intros Hm Hp Hq. rewrite (Hok Hm).
    unfold present, prePath, postPath in Hp, Hq. rewrite Hp, Hq.
    eexists. split; reflexivity.
Qed.

(** ** Strict mode *)

Lemma isCI_env (w : World P) :
  isCI P w = true <->
  (env w !! "CI" = Some "true" \/ env w !! "CI" = Some "1"
   \/ env w !! "GITHUB_ACTIONS" = Some "true").
Proof.
  unfold isCI, env_is. rewrite !orb_true_iff, !bool_decide_eq_true. tauto.
Qed.

(** ** The manifest validator *)

Lemma readActionYml_spec (path : string) (w : World P) :
  readActionYml P path w
  = (if negb (existsSync P (fs w) path) then Failure (ActionYmlMissing path)
     else match readFileSync P (fs w) path with
          | Left _ => Failure (ActionYmlSyntaxError path "Failed to read file")
          | Right content =>
              match parseYaml P content with
              | Left error =>
                  Failure (ActionYmlSyntaxError path
                             match error with
                             | ThrownError m => m
                             | ThrownOther _ => "Invalid YAML syntax"
                             end)
              | Right parsed =>
                  match parsed with
                  | VObj _ | VArr _ => Success parsed
                  | _ => Failure (ActionYmlSyntaxError path "action.yml must be an object")
                  end
              end
          end, w).
Proof.
  unfold readActionYml.
  destruct (existsSync P (fs w) path); simpl; [|reflexivity].
  unfold Effect_bind, Effect_try.
  destruct (readFileSync P (fs w) path) as [t|content]; rewrite with_fs_same; [reflexivity|].
  destruct (parseYaml P content) as [t|parsed]; rewrite with_fs_same; [reflexivity|].
  destruct parsed; reflexivity.
Qed.

Lemma validateSchema_spec (parsed : value) (path : string) (w : World P) :
  validateSchema P parsed path w
  = (match decodeUnknownEither ActionYmlSchema parsed with
     | Left e => Failure (ActionYmlSchemaError path [(path, formatErrorSync P e)])
     | Right content => Success content
     end, w).
Proof.
  unfold validateSchema.
  destruct (decodeUnknownEither ActionYmlSchema parsed); reflexivity.
Qed.

(** The manifest validator only reads, and ends in one of four ways. *)
Lemma validateActionYml_cases (path : string) (w : World P) :
  (existsSync P (fs w) path = false
     /\ validateActionYml P path w = (Failure (ActionYmlMissing path), w))
  \/ (existsSync P (fs w) path = true
     /\ exists msg, validateActionYml P path w = (Failure (ActionYmlSyntaxError path msg), w))
  \/ (existsSync P (fs w) path = true
     /\ exists parsed e,
          fst (readActionYml P path w) = Success parsed
          /\ decodeUnknownEither ActionYmlSchema parsed = Left e
          /\ validateActionYml P path w
             = (Failure (ActionYmlSchemaError path [(path, formatErrorSync P e)]), w))
  \/ (existsSync P (fs w) path = true
     /\ exists parsed content,
          fst (readActionYml P path w) = Success parsed
          /\ decodeUnknownEither ActionYmlSchema parsed = Right content
          /\ validateActionYml P path w
             = (Success {| yml_valid := true; yml_content := content; yml_errors := [];
                           yml_warnings := checkRecommendations parsed (Some path) |}, w)).
Proof.
  unfold validateActionYml, Effect_bind. rewrite readActionYml_spec.
  destruct (existsSync P (fs w) path); simpl; [|left; auto].
  right.
  destruct (readFileSync P (fs w) path) as [t|text]; [left; eauto|].
  destruct (parseYaml P text) as [t|parsed]; [left; eauto|].
  destruct parsed as [| |b|n|s|a|o|f]; try (left; split; [reflexivity|eauto]; fail);
    right; rewrite validateSchema_spec;
    match goal with
    | |- context [decodeUnknownEither ActionYmlSchema ?v] =>
        destruct (decodeUnknownEither ActionYmlSchema v) as [e|content] eqn:Hd;
        [left; split; [reflexivity|]; exists v, e
        |right; split; [reflexivity|]; exists v, content];
        (split; [reflexivity|split; [exact Hd|reflexivity]])
    end.
Qed.

(** ** The validation orchestrator *)

Lemma checkEntries_spec (config : Config) (cwd : string) (w : World P) :
  checkEntries P config cwd w
  = (Success
       (if existsSync P (fs w) (path_resolve P cwd (entries_main (config_entries config)))
        then []
        else [main_entry_missing_item (entries_main (config_entries config))]), w).
Proof.
  unfold checkEntries, Effect_bind, Effect_either.
  destruct (detectEntries_cases cwd (Some (entriesConfig config)) w) as (Hmiss & Hok).
  simpl in Hmiss, Hok.
  destruct (existsSync P (fs w) (path_resolve P cwd (entries_main (config_entries config)))).
  - rewrite (Hok eq_refl). reflexivity.
  - rewrite (Hmiss eq_refl). reflexivity.
Qed.

(** What [checkActionYml] makes of each way the manifest validator ends. *)
Lemma checkActionYml_skipped (config : Config) (cwd : string) (w : World P) :
  validation_requireActionYml (config_validation config) = false ->
  checkActionYml P config cwd w = (Success ([], []), w).
Proof. intros H. unfold checkActionYml. rewrite H. reflexivity. Qed.

Lemma checkActionYml_of (config : Config) (cwd : string) (w : World P) :
  validation_requireActionYml (config_validation config) = true ->
  checkActionYml P config cwd w
  = (match fst (validateActionYml P (path_resolve P cwd "action.yml") w) with
     | Failure (ActionYmlMissing _) =>
         Success ([], [action_yml_missing_item (path_resolve P cwd "action.yml")])
     | Failure (ActionYmlSyntaxError path message) =>
         Success ([syntax_error_item path message], [])
     | Failure (ActionYmlSchemaError path errors) =>
         Success (map (schema_error_item path) errors, [])
     | Failure _ => Success ([], [])
     | Success ok => Success ([], yml_warnings ok)
     | Die d => Die d
     end, w).
Proof.
  intros H. unfold checkActionYml. rewrite H. simpl.
  unfold Effect_bind, Effect_either.
  destruct (validateActionYml_cases (path_resolve P cwd "action.yml") w)
    as [[_ E]|[[_ [msg E]]|[[_ (v & e & _ & _ & E)]|[_ (v & c & _ & _ & E)]]]];
    rewrite E; reflexivity.
Qed.

Lemma checkActionYml_total (config : Config) (cwd : string) (w : World P) :
  exists yErrors yWarnings,
    checkActionYml P config cwd w = (Success (yErrors, yWarnings), w).
Proof.
  destruct (validation_requireActionYml (config_validation config)) eqn:H.
  - rewrite (checkActionYml_of _ _ _ H).
    destruct (validateActionYml_cases (path_resolve P cwd "action.yml") w)
      as [[_ E]|[[_ [msg E]]|[[_ (v & e & _ & _ & E)]|[_ (v & c & _ & _ & E)]]]];
      rewrite E; simpl; eauto.
  - rewrite (checkActionYml_skipped _ _ _ H). eauto.
Qed.

(** [validate] after its two checks: the verdict on what they found. *)
Lemma validate_verdict (config : Config) (options : ValidateOptions) (w : World P)
    (entryErrors yErrors : list ValidationItem) (yWarnings : list ValidationItem) :
  let cwd := default (process_cwd w) (validate_cwd options) in
  checkEntries P config cwd w = (Success entryErrors, w) ->
  checkActionYml P config cwd w = (Success (yErrors, yWarnings), w) ->
  validate P config options w
  = (if strictOf P config options w && Nat.ltb 0 (length yWarnings)
        && Nat.eqb (length (entryErrors ++ yErrors)) 0
     then Failure (ValidationFailed 0 (length yWarnings)
                     "Warnings treated as errors in strict mode")
     else Success {| valid := Nat.eqb (length (entryErrors ++ yErrors)) 0
                              && (negb (strictOf P config options w)
                                  || Nat.eqb (length yWarnings) 0);
                     errors := entryErrors ++ yErrors;
                     warnings := yWarnings |}, w).
Proof.
  intros cwd He Hy. unfold validate, Effect_bind. fold cwd. rewrite He, Hy. simpl.
  destruct (strictOf P config options w && Nat.ltb 0 (length yWarnings)
            && Nat.eqb (length (entryErrors ++ yErrors)) 0); reflexivity.
Qed.

(** ** The runtime literal *)

Lemma SLiteral_node24 m (u : value) :
  u <> VStr "node24" -> isLeft (SLiteral ["node24"] m u) = true.
Proof.
  intros H. destruct u; try reflexivity.
  unfold SLiteral, SLiteralOf, id. cbn [find].
  destruct (String.eqb "node24" s) eqn:E; [|reflexivity].
  apply String.eqb_eq in E. subst. congruence.
Qed.

Lemma RunsSchema_rejects m (runs : value) :
  get runs "using" <> VStr "node24" -> isLeft (RunsSchema m runs) = true.
Proof.
  intros H. destruct runs as [| |b|n|s|a|o|f]; try reflexivity.
  unfold RunsSchema, Struct. rewrite !isLeft_ap_props.
  assert (Hu : isLeft (required "using" (SLiteral ["node24"]) m o) = true).
  { unfold required. simpl in H.
    destruct (own o "using") as [u|]; [|reflexivity].
    rewrite isLeft_at_key. apply SLiteral_node24. exact H. }
  rewrite Hu. rewrite orb_true_r. reflexivity.
Qed.

Lemma ActionYmlSchema_rejects m (parsed : value) :
  get (get parsed "runs") "using" <> VStr "node24" ->
  isLeft (ActionYmlSchema m parsed) = true.
Proof.
  intros H. destruct parsed as [| |b|n|s|a|o|f]; try reflexivity.
  unfold ActionYmlSchema, Struct. rewrite !isLeft_ap_props.
  assert (Hr : isLeft (required "runs" RunsSchema m o) = true).
  { unfold required. simpl in H.
    destruct (own o "runs") as [r|]; [|reflexivity].
    rewrite isLeft_at_key. apply RunsSchema_rejects. exact H. }
  rewrite Hr. rewrite orb_true_r. reflexivity.
Qed.

Lemma validateActionYml_schema_failure (path : string) (w : World P) (parsed : value)
    (e : ParseError) :
  fst (readActionYml P path w) = Success parsed ->
  decodeUnknownEither ActionYmlSchema parsed = Left e ->
  validateActionYml P path w
  = (Failure (ActionYmlSchemaError path [(path, formatErrorSync P e)]), w).
Proof.
  intros Hread Hdec. unfold validateActionYml, Effect_bind.
  pose proof (readActionYml_spec path w) as Hs.
  destruct (readActionYml P path w) as [x w'].
  simpl in Hread. subst x. injection Hs as _ Hw. subst w'.
  rewrite validateSchema_spec, Hdec. reflexivity.
Qed.

(** C1: [validate] runs its two checks, which always produce their items
    and change nothing.  In strict mode with no error item and at least
    one warning item it fails with [ValidationFailed] carrying errorCount
    0 and the number of warnings, and returns no result; with at least one
    error item, strict or not, it returns a result whose [valid] is false
    and does not fail; in the remaining case it returns a result whose
    [valid] is true. *)
Theorem validate_strict_asymmetry (config : Config) (options : ValidateOptions)
    (w : World P) :
  let cwd := default (process_cwd w) (validate_cwd options) in
  let strict := strictOf P config options w in
  exists entryErrors yErrors yWarnings : list ValidationItem,
    checkEntries P config cwd w = (Success entryErrors, w)
    /\ checkActionYml P config cwd w = (Success (yErrors, yWarnings), w)
    /\ (strict = true -> entryErrors ++ yErrors = [] -> yWarnings <> [] ->
        validate P config options w
        = (Failure (ValidationFailed 0 (length yWarnings)
                      "Warnings treated as errors in strict mode"), w))
    /\ (entryErrors ++ yErrors <> [] ->
        validate P config options w
        = (Success {| valid := false; errors := entryErrors ++ yErrors;
                      warnings := yWarnings |}, w))
    /\ (entryErrors ++ yErrors = [] -> strict = false \/ yWarnings = [] ->
        validate P config options w
        = (Success {| valid := true; errors := []; warnings := yWarnings |}, w)).
Proof.
  intros cwd strict.
  destruct (checkActionYml_total config cwd w) as (yErrors & yWarnings & Hy).
  pose proof (checkEntries_spec config cwd w) as He.
  eexists _, yErrors, yWarnings. split; [exact He|]. split; [exact Hy|].
  rewrite (validate_verdict config options w _ yErrors yWarnings He Hy).
  fold strict.
  set (entryErrors :=
         if existsSync P (fs w) (path_resolve P cwd (entries_main (config_entries config)))
         then [] else [main_entry_missing_item (entries_main (config_entries config))]).
  repeat split.
  - intros Hs Hn Hw. rewrite Hs, Hn.
    destruct yWarnings; [congruence | reflexivity].
  - intros Hn. destruct (entryErrors ++ yErrors); [congruence|].
    simpl. rewrite andb_false_r. reflexivity.
  - intros Hn [Hs|Hw]; rewrite Hn.
    + rewrite Hs. reflexivity.
    + rewrite Hw. simpl. rewrite andb_false_r, orb_true_r. reflexivity.
Qed.

(** C2: the strict flag [validate] uses is [options.strict] when that is
    defined, else [config.validation.strict] when that is defined, else
    the CI detection, which is true exactly when CI is "true" or "1" or
    GITHUB_ACTIONS is "true"; an explicit false in the options, or in the
    configuration when the options leave it open, makes [validate] return
    a result whatever the environment says. *)
Theorem strict_precedence (config : Config) (options : ValidateOptions) (w : World P) :
  strictOf P config options w
  = match validate_strict options, validation_strict (config_validation config) with
    | Some b, _ => b
    | None, Some b => b
    | None, None => isCI P w
    end
  /\ (isCI P w = true <->
      (env w !! "CI" = Some "true" \/ env w !! "CI" = Some "1"
       \/ env w !! "GITHUB_ACTIONS" = Some "true"))
  /\ (validate_strict options = Some false ->
      strictOf P config options w = false
      /\ exists r, validate P config options w = (Success r, w))
  /\ (validate_strict options = None ->
      validation_strict (config_validation config) = Some false ->
      strictOf P config options w = false
      /\ exists r, validate P config options w = (Success r, w)).
Proof.
  assert (Hreturn : strictOf P config options w = false ->
                    exists r, validate P config options w = (Success r, w)).
  { intros Hs.
    destruct (checkActionYml_total config (default (process_cwd w) (validate_cwd options)) w)
      as (ye & yw & Hy).
    rewrite (validate_verdict config options w _ ye yw (checkEntries_spec _ _ _) Hy).
    rewrite Hs. simpl. eauto. }
  split; [|split; [apply isCI_env|split]].
  - unfold strictOf, resolveStrict.
    destruct (validate_strict options), (validation_strict (config_validation config));
      reflexivity.
  - intros Ho.
    assert (Hs : strictOf P config options w = false)
      by (unfold strictOf; rewrite Ho; reflexivity).
    auto.
  - intros Ho Hc.
    assert (Hs : strictOf P config options w = false)
      by (unfold strictOf; rewrite Ho, Hc; reflexivity).
    auto.
Qed.

(** C3 (as the code has it): a parsed manifest whose runs.using is
    anything but the string "node24" (another string, another kind of
    value, or nothing at all) does not decode, whatever its other fields
    hold: schema validation fails with [ActionYmlSchemaError]; and when
    such a manifest is the one read at <cwd>/action.yml and
    validation.requireActionYml is true, [validate] returns a result whose
    [valid] is false and whose errors (not its warnings, which are empty)
    hold the schema error.  When validation.requireActionYml is false the
    manifest is not looked at: [validate] returns a result without
    warnings, whose only possible error is the missing primary entry and
    which is valid exactly when that entry exists. *)
Theorem runs_using_must_be_node24 (parsed : value) :
  get (get parsed "runs") "using" <> VStr "node24" ->
  exists e : ParseError,
    decodeUnknownEither ActionYmlSchema parsed = Left e
    /\ (forall path (w : World P),
          validateSchema P parsed path w
          = (Failure (ActionYmlSchemaError path [(path, formatErrorSync P e)]), w))
    /\ (forall config options (w : World P),
          let cwd := default (process_cwd w) (validate_cwd options) in
          let path := path_resolve P cwd "action.yml" in
          validation_requireActionYml (config_validation config) = true ->
          fst (readActionYml P path w) = Success parsed ->
          exists r, validate P config options w = (Success r, w)
                    /\ valid r = false
                    /\ warnings r = []
                    /\ In (schema_error_item path (path, formatErrorSync P e)) (errors r))
    /\ (forall config options (w : World P),
          let cwd := default (process_cwd w) (validate_cwd options) in
          let mainPath := entries_main (config_entries config) in
          validation_requireActionYml (config_validation config) = false ->
          exists r, validate P config options w = (Success r, w)
                    /\ warnings r = []
                    /\ errors r = (if existsSync P (fs w) (path_resolve P cwd mainPath)
                                   then [] else [main_entry_missing_item mainPath])
                    /\ (valid r = true
                        <-> existsSync P (fs w) (path_resolve P cwd mainPath) = true)).
Proof.
  intros H.
  destruct (isLeft_true _ (ActionYmlSchema_rejects FirstError parsed H)) as [e He].
  exists e. split; [exact He|]. split; [|split].
  3: { intros config options w cwd mainPath Hreq.
       pose proof (checkActionYml_skipped config cwd w Hreq) as Hy.
       rewrite (validate_verdict config options w _ _ _ (checkEntries_spec _ _ _) Hy).
       cbn [length Nat.ltb andb]. rewrite andb_false_r. cbn [Nat.eqb].
       rewrite orb_true_r, andb_true_r, app_nil_r.
       eexists. split; [reflexivity|]. cbn [warnings errors valid].
       split; [reflexivity|]. split; [reflexivity|].
       fold cwd mainPath.
       destruct (existsSync P (fs w) (path_resolve P cwd mainPath)); cbn;
         split; congruence. }
  - intros path w. rewrite validateSchema_spec.
    unfold decodeUnknownEither. rewrite He. reflexivity.
  - intros config options w cwd path Hreq Hread.
    pose proof (validateActionYml_schema_failure path w parsed e Hread He) as Hv.
    pose proof (checkActionYml_of config cwd w Hreq) as Hy.
    fold path in Hy. rewrite Hv in Hy. simpl in Hy.
    rewrite (validate_verdict config options w _ _ _ (checkEntries_spec _ _ _) Hy).
    simpl. rewrite andb_false_r.
    eexists. split; [reflexivity|]. simpl. repeat split.
    + rewrite length_app. simpl. rewrite Nat.add_comm. reflexivity.
    + apply in_or_app. right. left. reflexivity.
Qed.

(** C5 (as the code has it): when a parsed manifest does not decode, the
    [ActionYmlSchemaError] carries exactly one entry, however many fields
    are in violation: its path is the path of the manifest file and its
    message is the formatted parse error.  That is the error the manifest
    validator fails with when the manifest is the one read at [path], and
    the manifest check then reports exactly one error item. *)
Theorem schema_error_has_one_entry (parsed : value) (path : string) (w : World P)
    (e : ParseError) :
  decodeUnknownEither ActionYmlSchema parsed = Left e ->
  validateSchema P parsed path w
  = (Failure (ActionYmlSchemaError path (formatSchemaErrors P e path)), w)
  /\ formatSchemaErrors P e path = [(path, formatErrorSync P e)]
  /\ length (formatSchemaErrors P e path) = 1
  /\ (fst (readActionYml P path w) = Success parsed ->
      validateActionYml P path w
      = (Failure (ActionYmlSchemaError path [(path, formatErrorSync P e)]), w))
  /\ (forall config cwd,
        validation_requireActionYml (config_validation config) = true ->
        path = path_resolve P cwd "action.yml" ->
        fst (readActionYml P path w) = Success parsed ->
        checkActionYml P config cwd w
        = (Success ([schema_error_item path (path, formatErrorSync P e)], []), w)).
Proof.
  intros He. rewrite validateSchema_spec, He.
  split; [reflexivity|]. split; [reflexivity|]. split; [reflexivity|]. split.
  - intros Hread. apply (validateActionYml_schema_failure path w parsed e Hread He).
  - intros config cwd Hreq -> Hread.
    rewrite (checkActionYml_of config cwd w Hreq).
    rewrite (validateActionYml_schema_failure _ w parsed e Hread He). reflexivity.
Qed.

(** C7: when the configuration does not require the manifest, the manifest
    check contributes nothing and [validate] returns the entry errors
    alone, with no warning.  When it does, the check runs the manifest
    validator at <cwd>/action.yml: a missing file gives one warning, code
    ACTION_YML_MISSING, and no error; a syntax failure gives one error;
    a schema failure gives one error for each entry of its error list; and
    nothing else gives an error.  What the check gives is what a result of
    [validate] holds after the entry errors. *)
Theorem checkActionYml_contribution (config : Config) (options : ValidateOptions)
    (w : World P) :
  let cwd := default (process_cwd w) (validate_cwd options) in
  let path := path_resolve P cwd "action.yml" in
  let entryErrors := fst (checkEntries P config cwd w) in
  (validation_requireActionYml (config_validation config) = false ->
   checkActionYml P config cwd w = (Success ([], []), w)
   /\ exists es, entryErrors = Success es
        /\ validate P config options w
           = (Success {| valid := Nat.eqb (length es) 0; errors := es; warnings := [] |}, w))
  /\ (validation_requireActionYml (config_validation config) = true ->
      (existsSync P (fs w) path = false ->
       checkActionYml P config cwd w = (Success ([], [action_yml_missing_item path]), w))
      /\ (forall p msg,
            fst (validateActionYml P path w) = Failure (ActionYmlSyntaxError p msg) ->
            checkActionYml P config cwd w = (Success ([syntax_error_item p msg], []), w))
      /\ (forall p errs,
            fst (validateActionYml P path w) = Failure (ActionYmlSchemaError p errs) ->
            checkActionYml P config cwd w
            = (Success (map (schema_error_item p) errs, []), w)
            /\ length (map (schema_error_item p) errs) = length errs)
      /\ (forall ok,
            fst (validateActionYml P path w) = Success ok ->
            checkActionYml P config cwd w = (Success ([], yml_warnings ok), w)))
  /\ (exists es yErrors yWarnings,
        entryErrors = Success es
        /\ checkActionYml P config cwd w = (Success (yErrors, yWarnings), w)
        /\ forall r, fst (validate P config options w) = Success r ->
                     errors r = es ++ yErrors /\ warnings r = yWarnings).
Proof.
  intros cwd path entryErrors.
  pose proof (checkEntries_spec config cwd w) as He.
  assert (Hee : entryErrors = Success
            (if existsSync P (fs w) (path_resolve P cwd (entries_main (config_entries config)))
             then [] else [main_entry_missing_item (entries_main (config_entries config))])).
  { unfold entryErrors. rewrite He. reflexivity. }
  split; [|split].
  - intros Hreq. pose proof (checkActionYml_skipped config cwd w Hreq) as Hy.
    split; [exact Hy|]. eexists. split; [exact Hee|].
    rewrite (validate_verdict config options w _ _ _ He Hy).
    simpl. rewrite andb_false_r, app_nil_r, orb_true_r, andb_true_r. reflexivity.
  - intros Hreq. pose proof (checkActionYml_of config cwd w Hreq) as Hy. fold path in Hy.
    split; [|split; [|split]].
    + intros Hmiss.
      destruct (validateActionYml_cases path w)
        as [[_ E]|[[Hx _]|[[Hx _]|[Hx _]]]]; try congruence.
      rewrite E in Hy. exact Hy.
    + intros p msg Hv. rewrite Hv in Hy. exact Hy.
    + intros p errs Hv. rewrite Hv in Hy. split; [exact Hy | apply length_map].
    + intros ok Hv. rewrite Hv in Hy. exact Hy.
  - destruct (checkActionYml_total config cwd w) as (ye & yw & Hy).
    eexists _, ye, yw. split; [exact Hee|]. split; [exact Hy|].
    intros r. rewrite (validate_verdict config options w _ _ _ He Hy). simpl.
    match goal with |- context [if ?c then _ else _] => destruct c end; simpl.
    + discriminate.
    + intros [= <-]. split; reflexivity.
Qed.

(** ** The build orchestrator *)

Lemma with_fs_with_fs (w : World P) f g : with_fs P (with_fs P w f) g = with_fs P w g.
Proof. reflexivity. Qed.

Lemma writes_only_succeed {A} (Q : A -> Prop) (a : A) :
  Q a -> writes_only P Q (Effect_succeed P a).
Proof. intros H w. exists (fs w). rewrite with_fs_same. simpl. auto. Qed.

Lemma writes_only_Date_now : writes_only P (fun _ => True) (Date_now P).
Proof. intros w. exists (fs w). rewrite with_fs_same. simpl. auto. Qed.

Lemma writes_only_bind {A B} (Q1 : A -> Prop) (Q2 : B -> Prop)
    (x : Effect P TaggedError A) (k : A -> Effect P TaggedError B) :
  writes_only P Q1 x -> (forall a, Q1 a -> writes_only P Q2 (k a)) ->
  writes_only P Q2 (Effect_bind P x k).
Proof.
  intros Hx Hk w. unfold Effect_bind.
  destruct (Hx w) as (f1 & Hw & Hr).
  destruct (x w) as [[a|e|d] w1]; simpl in *; subst w1.
  - destruct (Hk a Hr (with_fs P w f1)) as (f2 & Hw2 & Hr2).
    exists f2. rewrite Hw2. auto.
  - exists f1. auto.
  - contradiction.
Qed.

Lemma writes_only_writeFile (path content : string) :
  writes_only P (fun _ => True) (writeFile P path content).
Proof.
  intros w. unfold writeFile, Effect_try.
  destruct (mkdirSync P (fs w) (path_resolve P path "..")) as [[t|u] f1].
  - exists f1. simpl. eauto.
  - destruct (writeFileSync P f1 path content) as [[t|u'] f2]; exists f2; simpl; eauto.
Qed.

Lemma writeFile_cases (path content : string) (w : World P) :
  exists f', writeFile P path content w = (Success tt, with_fs P w f')
             \/ exists c, writeFile P path content w
                          = (Failure (WriteError path c), with_fs P w f').
Proof.
  unfold writeFile, Effect_try.
  destruct (mkdirSync P (fs w) (path_resolve P path "..")) as [[t|u] f1].
  - exists f1. eauto.
  - destruct (writeFileSync P f1 path content) as [[t|[]] f2]; exists f2; eauto.
Qed.

Lemma writes_only_writeAssets (outputDir : string) (assets : list (string * string)) :
  writes_only P (fun _ => True) (writeAssets P outputDir assets).
Proof.
  induction assets as [|[name content] rest IH]; simpl.
  - apply writes_only_succeed. exact I.
  - eapply writes_only_bind; [apply writes_only_writeFile|]. intros _ _. exact IH.
Qed.

Lemma bind_Date_now {A} (k : Z -> Effect P TaggedError A) (w : World P) :
  Effect_bind P (Date_now P) k w = k (clock w) w.
Proof. reflexivity. Qed.

Lemma bind_call_ncc {A} (entryPath : string) (options : NccOptions)
    (catch : thrown -> TaggedError) (k : NccResult -> Effect P TaggedError A) (w : World P) :
  Effect_bind P (call_ncc P entryPath options catch) k w
  = let w' := {| fs := fs w; env := env w; process_cwd := process_cwd w;
                 clock := (clock w + snd (ncc P (fs w) entryPath options))%Z;
                 ncc_calls := ncc_calls w ++ [entryPath] |} in
    match fst (ncc P (fs w) entryPath options) with
    | Right res => k res w'
    | Left t => (Failure (catch t), w')
    end.
Proof.
  unfold Effect_bind, call_ncc.
  destruct (ncc P (fs w) entryPath options) as [[t|res] elapsed]; reflexivity.
Qed.

(** One entry: the bundler is called once, and the entry ends with its
    statistics or with the cause of its failure. *)
Lemma bundleEntry_cases (entry : DetectedEntry) (config : Config) (cwd : string)
    (w : World P) :
  exists w', ncc_calls w' = ncc_calls w ++ [entry_path entry]
    /\ ((exists r, bundleEntry P entry config cwd w = (Success r, w')
                   /\ bundle_success r = true /\ result_for entry r)
        \/ (exists e c, bundleEntry P entry config cwd w = (Failure e, w')
                        /\ cause e = Some c )).
Proof.
  unfold bundleEntry. rewrite bind_Date_now. unfold bundle. rewrite bind_call_ncc.
  cbv zeta.
  match goal with
  | |- context [fst (ncc P (fs w) ?path ?opts)] =>
      destruct (ncc P (fs w) path opts) as [[t|res] elapsed]
  end; cbn [fst snd].
  - eexists. split; [|right; eexists _, _; split; reflexivity]. reflexivity.
  - match goal with
    | |- context [Effect_bind P ?x ?k ?w1] =>
        assert (Ht : writes_only P (fun r => bundle_success r = true /\ result_for entry r)
                       (Effect_bind P x k)); [|destruct (Ht w1) as (f' & Hw & Hr)]
    end.
    { eapply writes_only_bind; [apply writes_only_writeFile|]. intros _ _.
      eapply writes_only_bind with (Q1 := fun _ => True).
      { destruct (build_sourceMap (config_build config) && truthy_string (ncc_map res)).
        - apply writes_only_writeFile.
        - apply writes_only_succeed. exact I. }
      intros _ _.
      eapply writes_only_bind; [apply writes_only_writeAssets|]. intros _ _.
      eapply writes_only_bind; [apply writes_only_Date_now|]. intros endTime _.
      apply writes_only_succeed. split; [reflexivity|].
      left. repeat split. eexists. repeat split. }
    match type of Hw with
    | snd ?call = _ => destruct call as [[r|e|d] w'] eqn:Hcall
    end; simpl in Hw, Hr; subst w'.
    + eexists. split; [|left; exists r; split; [reflexivity|exact Hr]]. reflexivity.
    + destruct Hr as (p & c & ->).
      eexists. split; [|right; eexists _, c; split; reflexivity]. reflexivity.
    + contradiction.
Qed.

(** The loop never stops early: every entry is handed to the bundler, in
    order, and every entry has its result. *)
Lemma buildEntries_total (entries : list DetectedEntry) (config : Config) (cwd : string)
    (w : World P) :
  exists rs w',
    buildEntries P entries config cwd w = (Success rs, w')
    /\ Forall2 result_for entries rs
    /\ ncc_calls w' = ncc_calls w ++ map entry_path entries.
Proof.
  revert w. induction entries as [|entry rest IH]; intros w.
  - exists [], w. simpl. rewrite app_nil_r. repeat split. constructor.
  - cbn [buildEntries]. unfold Effect_bind at 1. unfold Effect_either.
    destruct (bundleEntry_cases entry config cwd w)
      as (w1 & Hc & [(r & Hr & _ & Hfor)|(e & c & Hr & Hcause)]); rewrite Hr.
    + destruct (IH w1) as (rs & w2 & Hrs & Hall & Hcalls).
      unfold Effect_bind. rewrite Hrs. exists (r :: rs), w2.
      split; [reflexivity|]. split; [constructor; assumption|].
      rewrite Hcalls, Hc. simpl. rewrite <- app_assoc. reflexivity.
    + destruct (IH w1) as (rs & w2 & Hrs & Hall & Hcalls).
      unfold Effect_bind. rewrite Hrs. eexists (_ :: rs), w2.
      split; [reflexivity|]. split.
      * constructor; [|assumption]. right. simpl. eauto.
      * rewrite Hcalls, Hc. simpl. rewrite <- app_assoc. reflexivity.
Qed.

Lemma cleanDirectory_cases (dir : string) (w : World P) :
  exists f', cleanDirectory P dir w = (Success tt, with_fs P w f')
             \/ exists c, cleanDirectory P dir w = (Failure (CleanError dir c), with_fs P w f').
Proof.
  unfold cleanDirectory, Effect_try.
  destruct (existsSync P (fs w) dir).
  - destruct (rmSync P (fs w) dir) as [[t|[]] f]; exists f; eauto.
  - exists (fs w). left. reflexivity.
Qed.

(** [build], step by step. *)
Lemma build_unfold (config : Config) (options : BuildRunnerOptions) (w : World P) :
  let cwd := default (process_cwd w) (run_cwd options) in
  build P config options w
  = match detectEntries P cwd (Some (entriesConfig config)) w with
    | (Success entriesResult, w0) =>
        match (if default true (run_clean options)
               then cleanDirectory P (path_resolve P cwd "dist")
               else Effect_succeed P tt) w0 with
        | (Success _, w1) =>
            match buildEntries P (detect_entries entriesResult) config cwd w1 with
            | (Success entryResults, w2) =>
                match writeFile P (path_resolve P cwd "dist/package.json") module_marker w2 with
                | (Success _, w3) =>
                    (Success {| result_success := forallb bundle_success entryResults;
                                result_entries := entryResults;
                                result_duration := (clock w3 - clock w)%Z;
                                result_error :=
                                  if forallb bundle_success entryResults then None
                                  else Some "One or more entries failed to build" |}, w3)
                | (Failure e, w3) => (Failure e, w3)
                | (Die d, w3) => (Die d, w3)
                end
            | (Failure e, w2) => (Failure e, w2)
            | (Die d, w2) => (Die d, w2)
            end
        | (Failure e, w1) => (Failure e, w1)
        | (Die d, w1) => (Die d, w1)
        end
    | (Failure e, w0) => (Failure e, w0)
    | (Die d, w0) => (Die d, w0)
    end.
Proof.
  intros cwd. unfold build. fold cwd. cbv zeta. rewrite bind_Date_now.
  unfold Effect_bind at 1.
  destruct (detectEntries P cwd (Some (entriesConfig config)) w) as [[r|e|d] w0];
    try reflexivity.
  unfold Effect_bind at 1.
  destruct ((if default true (run_clean options)
             then cleanDirectory P (path_resolve P cwd "dist")
             else Effect_succeed P tt) w0) as [[u|e|d] w1]; try reflexivity.
  unfold Effect_bind at 1.
  destruct (buildEntries P (detect_entries r) config cwd w1) as [[rs|e|d] w2];
    try reflexivity.
  unfold Effect_bind at 1.
  destruct (writeFile P (path_resolve P cwd "dist/package.json") module_marker w2)
    as [[u'|e|d] w3]; try reflexivity.
  rewrite bind_Date_now.
  destruct (forallb bundle_success rs); reflexivity.
Qed.

(** Every way [build] can end. *)
Lemma build_cases (config : Config) (options : BuildRunnerOptions) (w : World P) :
  let cwd := default (process_cwd w) (run_cwd options) in
  let mainPath := entries_main (config_entries config) in
  (existsSync P (fs w) (path_resolve P cwd mainPath) = false
   /\ build P config options w = (Failure (MainEntryMissing mainPath cwd), w))
  \/
  (existsSync P (fs w) (path_resolve P cwd mainPath) = true
   /\ exists detected,
        detectEntries P cwd (Some (entriesConfig config)) w = (Success detected, w)
        /\ ((exists c w', build P config options w
                          = (Failure (CleanError (path_resolve P cwd "dist") c), w')
                          /\ default true (run_clean options) = true
                          /\ ncc_calls w' = ncc_calls w)
            \/ (exists rs w',
                  Forall2 result_for (detect_entries detected) rs
                  /\ ncc_calls w' = ncc_calls w ++ map entry_path (detect_entries detected)
                  /\ ((exists c, build P config options w
                                  = (Failure (WriteError (path_resolve P cwd "dist/package.json")
                                                c), w'))
                      \/ (exists d,
                            build P config options w
                            = (Success {| result_success := forallb bundle_success rs;
                                          result_entries := rs;
                                          result_duration := d;
                                          result_error :=
                                            if forallb bundle_success rs then None
                                            else Some "One or more entries failed to build" |},
                               w')))))).
Proof.
  intros cwd mainPath. rewrite build_unfold. fold cwd.
  destruct (detectEntries_cases cwd (Some (entriesConfig config)) w) as (Hmiss & Hok).
  simpl in Hmiss, Hok. fold mainPath in Hmiss, Hok.
  destruct (existsSync P (fs w) (path_resolve P cwd mainPath)).
  - right. split; [reflexivity|]. rewrite (Hok eq_refl). eexists. split; [reflexivity|].
    set (detected := {| detect_success := true; detect_entries := _ |}).
    assert (Hclean : exists w1, ncc_calls w1 = ncc_calls w /\
              ((if default true (run_clean options)
                then cleanDirectory P (path_resolve P cwd "dist")
                else Effect_succeed P tt) w = (Success tt, w1)
               \/ (default true (run_clean options) = true /\ exists c,
                   (if default true (run_clean options)
                    then cleanDirectory P (path_resolve P cwd "dist")
                    else Effect_succeed P tt) w
                   = (Failure (CleanError (path_resolve P cwd "dist") c), w1)))).
    { destruct (default true (run_clean options)).
      - destruct (cleanDirectory_cases (path_resolve P cwd "dist") w) as [f' [H|[c H]]];
          exists (with_fs P w f'); (split; [reflexivity|]); eauto.
      - exists w. split; [reflexivity|]. left. reflexivity. }
    destruct Hclean as (w1 & Hc1 & [Hcl|[Hdef [c Hcl]]]); rewrite Hcl.
    + right.
      destruct (buildEntries_total (detect_entries detected) config cwd w1)
        as (rs & w2 & Hrs & Hall & Hcalls).
      rewrite Hrs.
      destruct (writeFile_cases (path_resolve P cwd "dist/package.json") module_marker w2)
        as [f3 [Hw|[c Hw]]]; rewrite Hw;
        exists rs, (with_fs P w2 f3); (split; [exact Hall|]);
        (split; [simpl; rewrite Hcalls, Hc1; reflexivity|]).
      * right. eexists. reflexivity.
      * left. eauto.
    + left. exists c, w1. auto.
  - left. split; [reflexivity|]. rewrite (Hmiss eq_refl). reflexivity.
Qed.

Lemma checkActionYml_codes (config : Config) (cwd : string) (w : World P)
    (yErrors yWarnings : list ValidationItem) :
  checkActionYml P config cwd w = (Success (yErrors, yWarnings), w) ->
  List.filter (has_code "MAIN_ENTRY_MISSING") yErrors = [].
Proof.
  destruct (validation_requireActionYml (config_validation config)) eqn:Hreq.
  - rewrite (checkActionYml_of _ _ _ Hreq).
    destruct (validateActionYml_cases (path_resolve P cwd "action.yml") w)
      as [[_ E]|[[_ [msg E]]|[[_ (v & e & _ & _ & E)]|[_ (v & c & _ & _ & E)]]]];
      rewrite E; simpl; intros [= <- _]; reflexivity.
  - rewrite (checkActionYml_skipped _ _ _ Hreq). intros [= <- _]. reflexivity.
Qed.

(** C4: when the primary entry file is missing under the working
    directory, [build] fails with [MainEntryMissing] and returns no
    [BuildResult], while [validate] does not fail: it returns a result,
    not valid, in which exactly one error item has the code
    MAIN_ENTRY_MISSING. *)
Theorem main_entry_missing_divergence (config : Config) (boptions : BuildRunnerOptions)
    (voptions : ValidateOptions) (w : World P) :
  let mainPath := entries_main (config_entries config) in
  let missing cwd := existsSync P (fs w) (path_resolve P cwd mainPath) = false in
  (missing (default (process_cwd w) (run_cwd boptions)) ->
   build P config boptions w
   = (Failure (MainEntryMissing mainPath (default (process_cwd w) (run_cwd boptions))), w))
  /\ (missing (default (process_cwd w) (validate_cwd voptions)) ->
      exists r, validate P config voptions w = (Success r, w)
                /\ valid r = false
                /\ List.filter (has_code "MAIN_ENTRY_MISSING") (errors r)
                   = [main_entry_missing_item mainPath]).
Proof.
  intros mainPath missing. split.
  - intros Hm. destruct (build_cases config boptions w) as [[_ Hb]|[Hx _]].
    + exact Hb.
    + unfold missing in Hm. fold mainPath in Hx. congruence.
  - intros Hm. unfold missing in Hm.
    set (cwd := default (process_cwd w) (validate_cwd voptions)) in *.
    destruct (checkActionYml_total config cwd w) as (ye & yw & Hy).
    pose proof (checkEntries_spec config cwd w) as He.
    fold mainPath in He. rewrite Hm in He.
    rewrite (validate_verdict config voptions w _ ye yw He Hy).
    simpl. rewrite andb_false_r.
    eexists. split; [reflexivity|]. simpl. split; [reflexivity|].
    rewrite (checkActionYml_codes config cwd w ye yw Hy). reflexivity.
Qed.

Lemma writes_only_cases {A} (Q : A -> Prop) (x : Effect P TaggedError A) (w : World P) :
  writes_only P Q x ->
  exists f', (exists a, x w = (Success a, with_fs P w f') /\ Q a)
             \/ (exists p c, x w = (Failure (WriteError p c), with_fs P w f')).
Proof.
  intros H. destruct (H w) as (f' & Hw & Hr). exists f'.
  destruct (x w) as [[a|e|d] w1]; cbn [fst snd] in *; subst w1.
  - left. eauto.
  - right. destruct Hr as (p & c & ->). eauto.
  - contradiction.
Qed.

Lemma writeFile_reads_fs (path content : string) (w w1 : World P) :
  fs w1 = fs w -> fst (writeFile P path content w1) = fst (writeFile P path content w).
Proof.
  intros H. unfold writeFile, Effect_try. rewrite H.
  destruct (mkdirSync P (fs w) (path_resolve P path "..")) as [[t|u] f1]; [reflexivity|].
  destruct (writeFileSync P f1 path content) as [[t|u'] f2]; reflexivity.
Qed.

(** What [bundleEntry] gives, by what the bundler gives. *)
Lemma bundleEntry_outcome (entry : DetectedEntry) (config : Config) (cwd : string)
    (w : World P) :
  match fst (ncc P (fs w) (entry_path entry) (ncc_options config)) with
  | Left t =>
      fst (bundleEntry P entry config cwd w)
      = Failure (BundleFailed (entry_path entry) (cause_of_thrown t))
  | Right res =>
      (forall e,
         fst (writeFile P (path_resolve P cwd (entry_output entry)) (ncc_code res) w)
         = Failure e ->
         fst (bundleEntry P entry config cwd w) = Failure e)
      /\ (fst (bundleEntry P entry config cwd w)
          = Success
              {| bundle_success := true;
                 bundle_stats :=
                   Some {| stats_entry := EntryType_name (entry_type entry);
                           stats_size := getBundleSize (ncc_code res);
                           stats_duration :=
                             snd (ncc P (fs w) (entry_path entry) (ncc_options config));
                           stats_outputPath := entry_output entry |};
                 bundle_error := None |}
          \/ exists p c, fst (bundleEntry P entry config cwd w) = Failure (WriteError p c))
  end.
Proof.
  unfold bundleEntry. rewrite bind_Date_now. unfold bundle. rewrite bind_call_ncc.
  cbv zeta.
  match goal with
  | |- context [ncc P (fs w) (entry_path entry) ?o] =>
      progress change o with (ncc_options config)
  end.
  destruct (ncc P (fs w) (entry_path entry) (ncc_options config)) as [[t|res] elapsed];
    cbn [fst snd]; [reflexivity|].
  set (w1 := {| fs := fs w; env := env w; process_cwd := process_cwd w;
                clock := (clock w + elapsed)%Z;
                ncc_calls := ncc_calls w ++ [entry_path entry] |}).
  set (outputPath := path_resolve P cwd (entry_output entry)).
  split.
  - intros e He. unfold Effect_bind at 1.
    rewrite <- (writeFile_reads_fs outputPath (ncc_code res) w w1 eq_refl) in He.
    destruct (writeFile P outputPath (ncc_code res) w1) as [[u|e'|d] w2]; cbn [fst] in He;
      try discriminate He. injection He as ->. reflexivity.
  - match goal with
    | |- fst ?x = _ \/ _ => remember x as run eqn:Hrun
    end.
    unfold Effect_bind at 1 in Hrun.
    destruct (writeFile_cases outputPath (ncc_code res) w1) as (f1 & [E|(c & E)]);
      rewrite E in Hrun; [|subst run; right; eexists _, _; reflexivity].
    unfold Effect_bind at 1 in Hrun.
    assert (Hmap : writes_only P (fun _ : unit => True)
                     (if build_sourceMap (config_build config)
                         && truthy_string (ncc_map res)
                      then writeFile P (outputPath +:+ ".map") (default "" (ncc_map res))
                      else Effect_succeed P tt)).
    { destruct (build_sourceMap (config_build config) && truthy_string (ncc_map res)).
      - apply writes_only_writeFile.
      - apply writes_only_succeed. exact I. }
    destruct (writes_only_cases _ _ (with_fs P w1 f1) Hmap)
      as (f2 & [(u2 & E2 & _)|(p & c & E2)]); rewrite E2 in Hrun;
      [|subst run; right; eexists _, _; reflexivity].
    unfold Effect_bind at 1 in Hrun.
    destruct (writes_only_cases _ _ (with_fs P (with_fs P w1 f1) f2)
                (writes_only_writeAssets (path_resolve P outputPath "..") (ncc_assets res)))
      as (f3 & [(u3 & E3 & _)|(p & c & E3)]); rewrite E3 in Hrun;
      [|subst run; right; eexists _, _; reflexivity].
    rewrite bind_Date_now in Hrun. subst run. left.
    cbn [Effect_succeed fst clock with_fs w1].
    do 4 f_equal. lia.
Qed.

(** The loop, entry by entry. *)
Lemma buildEntries_results (entries : list DetectedEntry) (config : Config) (cwd : string)
    (w : World P) :
  exists rs w',
    buildEntries P entries config cwd w = (Success rs, w')
    /\ entry_results P config cwd entries w rs w'.
Proof.
  revert w. induction entries as [|entry rest IH]; intros w.
  - exists [], w. split; [reflexivity|constructor].
  - cbn [buildEntries]. unfold Effect_bind at 1. unfold Effect_either.
    destruct (bundleEntry_cases entry config cwd w)
      as (w1 & _ & [(r & Hr & _)|(e & c & Hr & Hcause)]); rewrite Hr;
      destruct (IH w1) as (rs & w2 & Hrs & Hall); unfold Effect_bind; rewrite Hrs.
    + exists (r :: rs), w2. split; [reflexivity|].
      eapply results_bundled; eassumption.
    + eexists _, w2. split; [reflexivity|]. rewrite Hcause.
      eapply results_failed; eassumption.
Qed.

(** The results of a [build] that returns are those of its loop. *)
Lemma build_runs_the_loop (config : Config) (options : BuildRunnerOptions) (w w' : World P)
    (r : BuildResult) :
  build P config options w = (Success r, w') ->
  exists detected w1 w2,
    detectEntries P (default (process_cwd w) (run_cwd options))
      (Some (entriesConfig config)) w = (Success detected, w)
    /\ entry_results P config (default (process_cwd w) (run_cwd options))
         (detect_entries detected) w1 (result_entries r) w2.
Proof.
  intros Hb. pose proof (build_unfold config options w) as Hu. cbv zeta in Hu.
  rewrite Hu in Hb. clear Hu.
  set (cwd := default (process_cwd w) (run_cwd options)) in *.
  destruct (detectEntries_cases cwd (Some (entriesConfig config)) w) as [Hmiss Hok].
  cbv zeta in Hmiss, Hok.
  destruct (existsSync P (fs w) (path_resolve P cwd _));
    [rewrite (Hok eq_refl) in *|rewrite (Hmiss eq_refl) in Hb; discriminate Hb].
  clear Hmiss Hok.
  match type of Hb with
  | context [buildEntries P (detect_entries ?d)] => set (detected := d) in *
  end.
  destruct ((if default true (run_clean options)
             then cleanDirectory P (path_resolve P cwd "dist")
             else Effect_succeed P tt) w) as [[u|e|d] w1]; try discriminate Hb.
  destruct (buildEntries_results (detect_entries detected) config cwd w1)
    as (rs & w2 & Hrs & Hall).
  rewrite Hrs in Hb.
  destruct (writeFile P (path_resolve P cwd "dist/package.json") module_marker w2)
    as [[u'|e|d] w3]; try discriminate Hb.
  injection Hb as <- <-. exists detected, w1, w2. split; [reflexivity|exact Hall].
Qed.

(** C8: the loop of [build] over the detected entries never stops early:
    whatever fails along the way, it hands every entry to the bundler, in
    detection order, and yields one [BundleResult] for each: the result
    [bundleEntry] returned, or, for an entry whose [bundleEntry] failed,
    success = false with the cause of that failure, the next entry
    following in either case.  So a [BuildResult] has exactly one result
    for each detected entry, in order, and its success is true exactly
    when every one of them succeeded.  [build] returns such a result
    unless entry detection fails, the clean fails, or the write of
    dist/package.json fails: the failure of an entry is never the failure
    of the build.  And an entry fails when its bundling or the writing of
    its output fails: if the bundler rejects it, [bundleEntry] fails with
    [BundleFailed] and what the bundler threw as the cause; if the bundle
    cannot be written, it fails with that [WriteError]; otherwise it
    returns success = true with the statistics of the bundle, unless a
    later write fails. *)
Theorem build_attempts_every_entry (config : Config) (options : BuildRunnerOptions)
    (w : World P) :
  let cwd := default (process_cwd w) (run_cwd options) in
  (forall entries (w0 : World P),
     exists rs w',
       buildEntries P entries config cwd w0 = (Success rs, w')
       /\ length rs = length entries
       /\ Forall2 result_for entries rs
       /\ ncc_calls w' = ncc_calls w0 ++ map entry_path entries
       /\ entry_results P config cwd entries w0 rs w')
  /\ (forall r w',
        build P config options w = (Success r, w') ->
        exists detected,
          detectEntries P cwd (Some (entriesConfig config)) w = (Success detected, w)
          /\ length (result_entries r) = length (detect_entries detected)
          /\ Forall2 result_for (detect_entries detected) (result_entries r)
          /\ ncc_calls w' = ncc_calls w ++ map entry_path (detect_entries detected)
          /\ result_success r = forallb bundle_success (result_entries r)
          /\ (result_success r = true <->
              Forall (fun b => bundle_success b = true) (result_entries r))
          /\ exists w1 w2,
               entry_results P config cwd (detect_entries detected) w1
                 (result_entries r) w2)
  /\ ((exists r w', build P config options w = (Success r, w'))
      \/ build P config options w
         = (Failure (MainEntryMissing (entries_main (config_entries config)) cwd), w)
      \/ (exists c w', build P config options w
                       = (Failure (CleanError (path_resolve P cwd "dist") c), w'))
      \/ (exists c w', build P config options w
                       = (Failure (WriteError (path_resolve P cwd "dist/package.json") c),
                          w')))
  /\ (forall entry (w0 : World P),
        match fst (ncc P (fs w0) (entry_path entry) (ncc_options config)) with
        | Left t =>
            fst (bundleEntry P entry config cwd w0)
            = Failure (BundleFailed (entry_path entry) (cause_of_thrown t))
        | Right res =>
            (forall e,
               fst (writeFile P (path_resolve P cwd (entry_output entry))
                      (ncc_code res) w0) = Failure e ->
               fst (bundleEntry P entry config cwd w0) = Failure e)
            /\ (fst (bundleEntry P entry config cwd w0)
                = Success
                    {| bundle_success := true;
                       bundle_stats :=
                         Some {| stats_entry := EntryType_name (entry_type entry);
                                 stats_size := getBundleSize (ncc_code res);
                                 stats_duration :=
                                   snd (ncc P (fs w0) (entry_path entry)
                                          (ncc_options config));
                                 stats_outputPath := entry_output entry |};
                       bundle_error := None |}
                \/ exists p c,
                     fst (bundleEntry P entry config cwd w0) = Failure (WriteError p c))
        end).
Proof.
  intros cwd. split; [|split; [|split]].
  4: { intros entry w0. apply bundleEntry_outcome. }
  - intros entries w0.
    destruct (buildEntries_total entries config cwd w0) as (rs & w' & H & Hall & Hc).
    destruct (buildEntries_results entries config cwd w0) as (rs' & w'' & H' & Hres).
    rewrite H in H'. injection H' as <- <-.
    exists rs, w'. repeat split; try assumption.
    symmetry. apply (Forall2_length _ _ _ Hall).
  - intros r w' Hb.
    destruct (build_runs_the_loop config options w w' r Hb) as (det & wa & wb & Hdet & Hloop).
    destruct (build_cases config options w)
      as [[_ E]|[_ (detected & Hd & [(c & w1 & E & _)|(rs & w1 & Hall & Hc & [(c & E)|(d & E)])])]];
      rewrite E in Hb; try discriminate.
    injection Hb as <- <-. exists detected. split; [exact Hd|]. simpl.
    split; [symmetry; apply (Forall2_length _ _ _ Hall)|].
    split; [exact Hall|]. split; [exact Hc|]. split; [reflexivity|].
    split; [rewrite forallb_forall, List.Forall_forall; reflexivity|].
    unfold cwd in Hd. rewrite Hd in Hdet. injection Hdet as <-.
    exists wa, wb. exact Hloop.
  - destruct (build_cases config options w)
      as [[_ E]|[_ (detected & Hd & [(c & w1 & E & _)|(rs & w1 & Hall & Hc & [(c & E)|(d & E)])])]].
    + right. left. exact E.
    + right. right. left. exists c, w1. exact E.
    + right. right. right. exists c, w1. exact E.
    + left. eexists _, w1. exact E.
Qed.

(** C10: if [build] fails with [MainEntryMissing], the failure is that of
    entry detection, at the primary entry path under the working directory,
    and the world after the call is the world before it: the output
    directory has been neither removed nor written, whatever the clean
    option says. *)
Theorem main_entry_missing_changes_nothing (config : Config) (options : BuildRunnerOptions)
    (w : World P) (expectedPath dir : string) :
  fst (build P config options w) = Failure (MainEntryMissing expectedPath dir) ->
  snd (build P config options w) = w
  /\ expectedPath = entries_main (config_entries config)
  /\ dir = default (process_cwd w) (run_cwd options)
  /\ existsSync P (fs w) (path_resolve P dir expectedPath) = false.
Proof.
  intros Hb.
  destruct (build_cases config options w)
    as [[Hm E]|[_ (detected & Hd & [(c' & w1 & E & _)|(rs & w1 & Hall & Hc & [(c' & E)|(d & E)])])]];
    rewrite E in Hb |- *; simpl in Hb; try discriminate.
  injection Hb as <- <-. auto.
Qed.

End Properties.

(* ===================================================================== *)
(** * The properties on the sample projects *)
(* ===================================================================== *)

(** On a CI runner, with the primary entry and no manifest, [validate]
    fails with the one warning counted. *)
Lemma strict_ci_without_manifest_fails :
  validate Sample.platform Sample.config Sample.no_options Sample.ci_without_manifest
  = (Failure (ValidationFailed 0 1 "Warnings treated as errors in strict mode"),
     Sample.ci_without_manifest).
Proof.
  destruct (validate_strict_asymmetry Sample.platform Sample.config Sample.no_options
              Sample.ci_without_manifest)
    as (es & ye & yw & He & Hy & Hfail & _).
  apply (f_equal fst) in He. vm_compute in He. injection He as <-.
  apply (f_equal fst) in Hy. vm_compute in Hy. injection Hy as <- <-.
  rewrite Hfail; [reflexivity | reflexivity | reflexivity | discriminate].
Defined.

(** The same project off CI, strict left open: a result, valid, with the
    warning. *)
Example lenient_without_manifest_returns :
  fst (validate Sample.platform Sample.config Sample.no_options
         (Sample.world [ ("/work/src/main.ts", "main()") ] []))
  = Success {| valid := true; errors := [];
               warnings := [action_yml_missing_item "/work/action.yml"] |}.
Proof. vm_compute. reflexivity. Qed.

(** An explicit [strict: false] in the options wins over CI=true. *)
Example explicit_false_wins_over_ci :
  strictOf Sample.platform Sample.config
    {| validate_cwd := None; validate_strict := Some false |} Sample.ci_without_manifest
  = false
  /\ isCI Sample.platform Sample.ci_without_manifest = true.
Proof. split; vm_compute; reflexivity. Qed.

(** A manifest that says node20 makes [validate] return a result that is
    not valid. *)
Lemma node20_manifest_is_invalid :
  get (get (Sample.manifest "node20") "runs") "using" <> VStr "node24"
  /\ exists r,
       validate Sample.platform Sample.config Sample.no_options Sample.node20_project
       = (Success r, Sample.node20_project)
       /\ valid r = false.
Proof.
  assert (H : get (get (Sample.manifest "node20") "runs") "using" <> VStr "node24")
    by (vm_compute; discriminate).
  split; [exact H|].
  destruct (runs_using_must_be_node24 Sample.platform (Sample.manifest "node20") H)
    as (e & _ & _ & Hv & _).
  destruct (Hv Sample.config Sample.no_options Sample.node20_project eq_refl)
    as (r & Hr & Hvalid & _).
  - vm_compute. reflexivity.
  - exists r. split; assumption.
Defined.

(** C3, as the claim states it, fails: when the configuration does not
    require the manifest, a manifest that says node20 is there, is read
    as written, and [validate] returns a result that is valid and has no
    error. *)
Lemma unrequired_node20_manifest_is_valid :
  get (get (Sample.manifest "node20") "runs") "using" = VStr "node20"
  /\ fst (readActionYml Sample.platform "/work/action.yml" Sample.node20_project)
     = Success (Sample.manifest "node20")
  /\ validate Sample.platform Cases.manifest_not_required Sample.no_options
       Sample.node20_project
     = (Success {| valid := true; errors := []; warnings := [] |}, Sample.node20_project).
Proof.
  split; [reflexivity|]. split; [vm_compute; reflexivity|].
  destruct (checkActionYml_total Sample.platform Cases.manifest_not_required "/work"
              Sample.node20_project) as (ye & yw & Hy).
  rewrite (validate_verdict Sample.platform Cases.manifest_not_required Sample.no_options
             Sample.node20_project _ ye yw (checkEntries_spec Sample.platform _ _ _) Hy).
  apply (f_equal fst) in Hy. vm_compute in Hy. injection Hy as <- <-.
  f_equal.
Qed.

(** The empty mapping breaks the schema in three places and yields one
    entry. *)
Lemma empty_manifest_has_one_entry :
  decodeUnknownEither ActionYmlSchema (VObj [])
  = Left [ {| issue_path := [Key "name"]; issue_kind := Missing |} ]
  /\ length (formatSchemaErrors Sample.platform
               [ {| issue_path := [Key "name"]; issue_kind := Missing |} ]
               "/work/action.yml") = 1.
Proof.
  assert (H : decodeUnknownEither ActionYmlSchema (VObj [])
              = Left [ {| issue_path := [Key "name"]; issue_kind := Missing |} ])
    by reflexivity.
  split; [exact H|].
  apply (schema_error_has_one_entry Sample.platform (VObj []) "/work/action.yml"
           Sample.only_dist _ H).
Defined.

(** C5, as the claim states it, fails: the empty mapping misses name,
    description and runs, three violations, and the error carries one
    entry. *)
Lemma schema_errors_not_one_per_violation :
  exists errs,
    fst (validateSchema Sample.platform (VObj []) "/work/action.yml" Sample.only_dist)
    = Failure (ActionYmlSchemaError "/work/action.yml" errs)
    /\ map issue_path (all_violations (VObj []))
       = [ [Key "name"]; [Key "description"]; [Key "runs"] ]
    /\ length errs = 1
    /\ length errs <> length (all_violations (VObj [])).
Proof.
  eexists. split; [vm_compute; reflexivity|].
  split; [reflexivity|]. split; [reflexivity|]. vm_compute. discriminate.
Qed.

(** With no source and an earlier build in dist, a cleaning [build] fails
    and dist is still there. *)
Lemma missing_main_keeps_dist :
  fst (build Sample.platform Sample.config Sample.clean_build Sample.only_dist)
  = Failure (MainEntryMissing "src/main.ts" "/work")
  /\ snd (build Sample.platform Sample.config Sample.clean_build Sample.only_dist)
     = Sample.only_dist
  /\ Mem.files_of Sample.only_dist = [ ("/work/dist/main.js", "old") ].
Proof.
  assert (H : fst (build Sample.platform Sample.config Sample.clean_build Sample.only_dist)
              = Failure (MainEntryMissing "src/main.ts" "/work"))
    by (vm_compute; reflexivity).
  split; [exact H|]. split.
  - apply (main_entry_missing_changes_nothing Sample.platform Sample.config
             Sample.clean_build Sample.only_dist _ _ H).
  - vm_compute. reflexivity.
Defined.

(** The same project under [build] and under [validate]: a failure, and
    a result with the one item. *)
Lemma missing_main_fails_build_not_validate :
  build Sample.platform Sample.config Sample.clean_build Sample.only_dist
  = (Failure (MainEntryMissing "src/main.ts" "/work"), Sample.only_dist)
  /\ exists r,
       validate Sample.platform Sample.config Sample.no_options Sample.only_dist
       = (Success r, Sample.only_dist)
       /\ valid r = false
       /\ List.filter (has_code "MAIN_ENTRY_MISSING") (errors r)
          = [main_entry_missing_item "src/main.ts"].
Proof.
  destruct (main_entry_missing_divergence Sample.platform Sample.config Sample.clean_build
              Sample.no_options Sample.only_dist) as [Hbuild Hvalidate].
  split; [apply Hbuild | apply Hvalidate]; vm_compute; reflexivity.
Defined.

Example missing_main_is_reported :
  fst (validate Sample.platform Sample.config
         {| validate_cwd := None; validate_strict := Some false |} Sample.only_dist)
  = Success {| valid := false;
               errors := [main_entry_missing_item "src/main.ts"];
               warnings := [action_yml_missing_item "/work/action.yml"] |}.
Proof. vm_compute. reflexivity. Qed.

(** Three entries, the second rejected by the bundler: three results in
    order, three calls, no success, and the other two bundles written. *)
Example one_of_three_fails :
  let run := build Sample.platform Sample.config Sample.clean_build Sample.three_entries in
  (exists r, fst run = Success r
     /\ map bundle_success (result_entries r) = [true; false; true]
     /\ map bundle_error (result_entries r) = [None; Some "Module build failed"; None]
     /\ result_success r = false)
  /\ ncc_calls (snd run) = ["/work/src/main.ts"; "/work/src/pre.ts"; "/work/src/post.ts"]
  /\ map fst (Mem.files_of (snd run))
     = ["/work/src/main.ts"; "/work/src/post.ts"; "/work/src/pre.ts";
        "/work/dist/main.js"; "/work/dist/post.js"; "/work/dist/package.json"].
Proof.
  split; [|split].
  - eexists. split; [vm_compute; reflexivity|]. repeat split.
  - vm_compute. reflexivity.
  - vm_compute. reflexivity.
Qed.

(** The same build through the loop: three results for three entries, the
    second of which, the entry the bundler rejects, has success = false
    and what the bundler threw as its cause. *)
Lemma three_entries_three_results :
  exists r w',
    build Sample.platform Sample.config Sample.clean_build Sample.three_entries
    = (Success r, w')
    /\ length (result_entries r) = 3
    /\ length (ncc_calls w') = 3
    /\ result_success r = forallb bundle_success (result_entries r)
    /\ map bundle_success (result_entries r) = [true; false; true]
    /\ map bundle_error (result_entries r) = [None; Some "Module build failed"; None]
    /\ fst (bundleEntry Sample.platform Cases.pre_entry Sample.config "/work"
              Sample.three_entries)
       = Failure (BundleFailed "/work/src/pre.ts" "Module build failed").
Proof.
  destruct (build_attempts_every_entry Sample.platform Sample.config Sample.clean_build
              Sample.three_entries) as (_ & Hresult & Hends & Hbundler).
  destruct Hends as [(r & w' & E)|[E|[(c & w' & E)|(c & w' & E)]]];
    try (apply (f_equal fst) in E; vm_compute in E; discriminate E).
  destruct (Hresult r w' E) as (detected & Hd & Hlen & _ & Hcalls & Hsuccess & _).
  apply (f_equal fst) in Hd. vm_compute in Hd. injection Hd as <-.
  exists r, w'. split; [exact E|]. split; [exact Hlen|]. split.
  { rewrite Hcalls. vm_compute. reflexivity. }
  split; [exact Hsuccess|].
  pose proof (f_equal fst E) as Er. vm_compute in Er. injection Er as <-.
  split; [reflexivity|]. split; [reflexivity|].
  pose proof (Hbundler Cases.pre_entry Sample.three_entries) as Hpre.
  assert (Hn : fst (ncc Sample.platform (fs Sample.three_entries)
                      (entry_path Cases.pre_entry) (ncc_options Sample.config))
               = Left (ThrownError "Module build failed")) by (vm_compute; reflexivity).
  rewrite Hn in Hpre. exact Hpre.
Defined.

(** Detection with the primary entry alone, and with nothing. *)
Example detect_main_alone :
  fst (detectEntries Sample.platform "/work" None Sample.ci_without_manifest)
  = Success {| detect_success := true;
               detect_entries := [ {| entry_type := main;
                                      entry_path := "/work/src/main.ts";
                                      entry_output := "dist/main.js" |} ] |}
  /\ fst (detectEntries Sample.platform "/work" None Sample.only_dist)
     = Failure (MainEntryMissing "src/main.ts" "/work").
Proof. split; vm_compute; reflexivity. Qed.

(** The empty input resolves to the defaults. *)
Example defineConfig_empty : defineConfig empty_input = Right Sample.config.
Proof. reflexivity. Qed.

(** Detection of the primary entry alone, by the case of one entry. *)
Lemma main_alone_is_one_entry :
  exists r,
    detectEntries Sample.platform "/work" None Sample.ci_without_manifest
    = (Success r, Sample.ci_without_manifest)
    /\ detect_entries r = [ {| entry_type := main;
                               entry_path := "/work/src/main.ts";
                               entry_output := "dist/main.js" |} ].
Proof.
  destruct (detectEntries_spec Sample.platform "/work" None Sample.ci_without_manifest)
    as (_ & _ & _ & Hone & _).
  apply Hone; vm_compute; reflexivity.
Defined.

(** A missing manifest, required: one warning and no error from the
    manifest check. *)
Lemma missing_manifest_is_one_warning :
  checkActionYml Sample.platform Sample.config "/work" Sample.ci_without_manifest
  = (Success ([], [action_yml_missing_item "/work/action.yml"]), Sample.ci_without_manifest).
Proof.
  destruct (checkActionYml_contribution Sample.platform Sample.config Sample.no_options
              Sample.ci_without_manifest) as (_ & Hrequired & _).
  destruct (Hrequired eq_refl) as (Hmissing & _).
  apply Hmissing. vm_compute. reflexivity.
Defined.

(** An input that sets one field: that field is kept, the rest default. *)
Lemma resolve_keeps_what_is_set :
  exists c,
    fst (resolve Sample.platform
           (Some {| input_entries := None;
                    input_build :=
                      Some {| input_minify := Some false; input_target := None;
                              input_sourceMap := None; input_externals := None;
                              input_quiet := None |};
                    input_validation := None |})
           Sample.only_dist) = Success c
    /\ build_minify (config_build c) = false
    /\ build_target (config_build c) = es2022
    /\ entries_main (config_entries c) = "src/main.ts".
Proof.
  destruct (resolve_defaults Sample.platform
              (Some {| input_entries := None;
                       input_build :=
                         Some {| input_minify := Some false; input_target := None;
                                 input_sourceMap := None; input_externals := None;
                                 input_quiet := None |};
                       input_validation := None |})
              Sample.only_dist)
    as (c & Hr & Hmain & _ & _ & Hminify & Htarget & _).
  exists c. rewrite Hr. repeat split; assumption.
Defined.

(** Strict left open everywhere, off CI: not strict; on CI: strict. *)
Lemma strict_follows_ci_when_open :
  strictOf Sample.platform Sample.config Sample.no_options Sample.ci_without_manifest = true
  /\ strictOf Sample.platform Sample.config Sample.no_options Sample.only_dist = false.
Proof.
  split.
  - rewrite (proj1 (strict_precedence Sample.platform Sample.config Sample.no_options
                      Sample.ci_without_manifest)).
    vm_compute. reflexivity.
  - rewrite (proj1 (strict_precedence Sample.platform Sample.config Sample.no_options
                      Sample.only_dist)).
    vm_compute. reflexivity.
Defined.

(* ===================================================================== *)
(** * Further properties of the services *)
(* ===================================================================== *)

Section ServiceProperties.

Context (P : Platform).

(** ** Entry detection *)

(** X1: what [detectEntries] returns is never empty and at most three
    long: the main entry comes first, then pre, then post, each role at
    most once; every entry it lists exists on disk at the path it gives,
    and is to be written to dist/<role>.js. *)
Theorem detected_entries_shape (cwd : string) (entries : option EntriesInput)
    (w : World P) (r : DetectEntriesResult) :
  fst (detectEntries P cwd entries w) = Success r ->
  detect_success r = true
  /\ (exists (hasPre hasPost : bool),
        map entry_type (detect_entries r)
        = main :: (if hasPre then [pre] else []) ++ (if hasPost then [post] else []))
  /\ 1 <= length (detect_entries r) <= 3
  /\ Forall (fun d => existsSync P (fs w) (entry_path d) = true
                      /\ entry_output d = "dist/" +:+ EntryType_name (entry_type d) +:+ ".js")
       (detect_entries r).
Proof.
  intros Hr.
  destruct (detectEntries_cases P cwd entries w) as [Hmiss Hok].
  destruct (existsSync P (fs w)
              (path_resolve P cwd (default "src/main.ts" (entries ≫= input_main)))) eqn:Hm.
  - rewrite (Hok eq_refl) in Hr. injection Hr as <-. cbn [detect_success detect_entries].
    split; [reflexivity|].
    destruct (existsSync P (fs w)
                (path_resolve P cwd (default "src/pre.ts" (entries ≫= input_pre)))) eqn:Hp,
             (existsSync P (fs w)
                (path_resolve P cwd (default "src/post.ts" (entries ≫= input_post)))) eqn:Hq;
      (split; [first [exists true, true; reflexivity | exists true, false; reflexivity
                     | exists false, true; reflexivity | exists false, false; reflexivity]|]);
      (split; [cbn; lia|]);
      repeat (constructor; [split; [assumption|reflexivity]|]); constructor.
  - rewrite (Hmiss eq_refl) in Hr. discriminate.
Qed.

Lemma buildEntries_without_empty (entries : list DetectedEntry) (config : Config)
    (cwd : string) :
  buildEntries P entries (without_empty_entries config) cwd
  = buildEntries P entries config cwd.
Proof.
  induction entries as [|entry rest IH]; [reflexivity|].
  cbn [buildEntries]. rewrite IH. reflexivity.
Qed.

(** X2: an empty string for [entries.pre] or [entries.post] in the
    configuration counts as no value: [build] and [validate] do for such
    a configuration exactly what they do for the one without it (the
    conventional src/pre.ts and src/post.ts are looked for). *)
Theorem empty_entry_paths_are_unset (config : Config) (boptions : BuildRunnerOptions)
    (voptions : ValidateOptions) (w : World P) :
  entriesConfig config = entriesConfig (without_empty_entries config)
  /\ build P config boptions w = build P (without_empty_entries config) boptions w
  /\ validate P config voptions w = validate P (without_empty_entries config) voptions w.
Proof.
  assert (He : entriesConfig config = entriesConfig (without_empty_entries config)).
  { destruct config as [[m [a|] [b|]] bo vo];
      unfold entriesConfig, without_empty_entries, truthy_string;
      cbn [config_entries entries_main entries_pre entries_post];
      try destruct (String.eqb a "") eqn:Ea; try destruct (String.eqb b "") eqn:Eb;
      cbn; rewrite ?Ea, ?Eb; reflexivity. }
  split; [exact He|]. split.
  - rewrite !build_unfold. cbv zeta. rewrite <- He.
    destruct (detectEntries P _ (Some (entriesConfig config)) w) as [[r|e|d] w0];
      try reflexivity.
    match goal with
    | |- context [(if ?c then ?x else ?y) w0] => destruct ((if c then x else y) w0)
                                                   as [[u|e|d] w1]
    end; try reflexivity.
    rewrite buildEntries_without_empty. reflexivity.
  - unfold validate, checkEntries, checkActionYml, strictOf. rewrite <- He. reflexivity.
Qed.

(** X3: [validate] only reads: the world after it is the world before it.
    It ends in one of two ways: it returns a result, and a result it
    returns is valid exactly when it has no error (warnings never make a
    returned result invalid); or it fails with [ValidationFailed], which
    then carries no error and at least one warning, in strict mode. *)
Theorem validate_outcomes (config : Config) (options : ValidateOptions) (w : World P) :
  snd (validate P config options w) = w
  /\ ((exists r, fst (validate P config options w) = Success r
                 /\ (valid r = true <-> errors r = [])
                 /\ (strictOf P config options w = true -> valid r = true ->
                     warnings r = []))
      \/ (exists n, fst (validate P config options w)
                    = Failure (ValidationFailed 0 (S n)
                                 "Warnings treated as errors in strict mode")
                    /\ strictOf P config options w = true)).
Proof.
  destruct (checkActionYml_total P config (default (process_cwd w) (validate_cwd options)) w)
    as (ye & yw & Hy).
  rewrite (validate_verdict P config options w _ ye yw (checkEntries_spec P _ _ _) Hy).
  split; [reflexivity|]. cbn [fst].
  set (es := (if existsSync P (fs w) _ then [] else _) ++ ye).
  destruct (strictOf P config options w), yw as [|y yw], es as [|e es]; cbn;
    first [ right; exists (length yw); split; reflexivity
          | left; eexists; split; [reflexivity|]; cbn;
            split; [split; congruence | congruence] ].
Qed.

(** ** The manifest *)

Lemma flat_map_nil {A B} (f : A -> list B) (l : list A) :
  flat_map f l = [] <-> forallb (fun a => match f a with [] => true | _ => false end) l = true.
Proof.
  induction l as [|a l IH]; cbn; [tauto|].
  destruct (f a); cbn; [exact IH|]. split; discriminate.
Qed.

(** X4: the manifest gets no recommendation at all exactly when it has a
    branding block with an icon and a color, and every input and every
    output it declares has a non-empty description. *)
Theorem no_recommendation_iff (parsed : value) (filePath : option string) :
  checkRecommendations parsed filePath = [] <->
  truthy (get parsed "branding") = true
  /\ truthy (get (get parsed "branding") "icon") = true
  /\ truthy (get (get parsed "branding") "color") = true
  /\ (truthy (get parsed "inputs") = true -> all_described (get parsed "inputs") = true)
  /\ (truthy (get parsed "outputs") = true -> all_described (get parsed "outputs") = true).
Proof.
  unfold checkRecommendations, all_described.
  destruct (truthy (get parsed "branding")); cbn [negb].
  2: { split; [discriminate | intros (H & _); discriminate]. }
  destruct (truthy (get (get parsed "branding") "icon")); cbn [negb].
  2: { split; [discriminate | intros (_ & H & _); discriminate]. }
  destruct (truthy (get (get parsed "branding") "color")); cbn [negb app].
  2: { split; [discriminate | intros (_ & _ & H & _); discriminate]. }
  assert (Hloop : forall (mk : string -> ValidationItem) (l : list (string * value)),
            flat_map (fun '(name, member) =>
                        if negb (truthy (get member "description")) then [mk name] else []) l
            = [] <->
            forallb (fun kv => truthy (get (snd kv) "description")) l = true).
  { intros mk l. rewrite flat_map_nil. apply eq_iff_eq_true.
    induction l as [|[name member] l IH]; cbn; [reflexivity|]. rewrite IH.
    destruct (truthy (get member "description")); reflexivity. }
  destruct (truthy (get parsed "inputs")), (truthy (get parsed "outputs")); cbn [app].
  - split.
    + intros H. apply app_eq_nil in H. destruct H as [Hi Ho].
      apply Hloop in Hi. apply Hloop in Ho. auto.
    + intros (_ & _ & _ & Hi & Ho).
      rewrite (proj2 (Hloop _ _) (Hi eq_refl)), (proj2 (Hloop _ _) (Ho eq_refl)).
      reflexivity.
  - rewrite app_nil_r. split.
    + intros Hi. apply Hloop in Hi. repeat split; auto. discriminate.
    + intros (_ & _ & _ & Hi & _). apply Hloop; auto.
  - split.
    + intros Ho. apply Hloop in Ho. repeat split; auto. discriminate.
    + intros (_ & _ & _ & _ & Ho). apply Hloop; auto.
  - split; [|reflexivity]. intros _. repeat split; discriminate.
Qed.

(** X5: the branding block is warned about once: a manifest without one
    gets the single warning ACTION_YML_NO_BRANDING and no warning about the
    icon or the color; a manifest with one gets a warning for the icon if
    that is missing and a warning for the color if that is missing, in
    that order, and nothing else about branding. *)
Theorem branding_warned_once (parsed : value) (filePath : option string) :
  map code (List.filter is_branding_warning (checkRecommendations parsed filePath))
  = if truthy (get parsed "branding") then
      (if truthy (get (get parsed "branding") "icon") then []
       else ["ACTION_YML_NO_BRANDING_ICON"])
      ++ (if truthy (get (get parsed "branding") "color") then []
          else ["ACTION_YML_NO_BRANDING_COLOR"])
    else ["ACTION_YML_NO_BRANDING"].
Proof.
  assert (Hloop : forall (c : string) (mk : string -> string * string)
                         (l : list (string * value)),
            is_branding_warning (makeWarning c "" "" None) = false ->
            List.filter is_branding_warning
              (flat_map (fun '(name, member) =>
                           if negb (truthy (get member "description"))
                           then [makeWarning c (fst (mk name)) (snd (mk name)) filePath]
                           else []) l) = []).
  { intros c mk l Hc. induction l as [|[name member] l IH]; cbn; [reflexivity|].
    destruct (truthy (get member "description")); cbn; [exact IH|].
    unfold is_branding_warning in *. cbn in *. rewrite Hc. exact IH. }
  unfold checkRecommendations.
  rewrite !List.filter_app.
  assert (Hi : forall l,
            List.filter is_branding_warning
              (flat_map (fun '(name, input) =>
                           if negb (truthy (get input "description"))
                           then [makeWarning "ACTION_YML_INPUT_NO_DESCRIPTION"
                                   ("Input '" +:+ name +:+ "' has no description")
                                   ("Add a description for the '" +:+ name +:+ "' input")
                                   filePath]
                           else []) l) = []).
  { intros l.
    apply (Hloop "ACTION_YML_INPUT_NO_DESCRIPTION"
             (fun name => ("Input '" +:+ name +:+ "' has no description",
                           "Add a description for the '" +:+ name +:+ "' input")) l).
    reflexivity. }
  assert (Ho : forall l,
            List.filter is_branding_warning
              (flat_map (fun '(name, output) =>
                           if negb (truthy (get output "description"))
                           then [makeWarning "ACTION_YML_OUTPUT_NO_DESCRIPTION"
                                   ("Output '" +:+ name +:+ "' has no description")
                                   ("Add a description for the '" +:+ name +:+ "' output")
                                   filePath]
                           else []) l) = []).
  { intros l.
    apply (Hloop "ACTION_YML_OUTPUT_NO_DESCRIPTION"
             (fun name => ("Output '" +:+ name +:+ "' has no description",
                           "Add a description for the '" +:+ name +:+ "' output")) l).
    reflexivity. }
  assert (Hin : List.filter is_branding_warning
                  (if truthy (get parsed "inputs")
                   then flat_map (fun '(name, input) =>
                           if negb (truthy (get input "description"))
                           then [makeWarning "ACTION_YML_INPUT_NO_DESCRIPTION"
                                   ("Input '" +:+ name +:+ "' has no description")
                                   ("Add a description for the '" +:+ name +:+ "' input")
                                   filePath]
                           else []) (Object_entries (get parsed "inputs"))
                   else []) = [])
    by (destruct (truthy (get parsed "inputs")); [apply Hi | reflexivity]).
  assert (Hout : List.filter is_branding_warning
                  (if truthy (get parsed "outputs")
                   then flat_map (fun '(name, output) =>
                           if negb (truthy (get output "description"))
                           then [makeWarning "ACTION_YML_OUTPUT_NO_DESCRIPTION"
                                   ("Output '" +:+ name +:+ "' has no description")
                                   ("Add a description for the '" +:+ name +:+ "' output")
                                   filePath]
                           else []) (Object_entries (get parsed "outputs"))
                   else []) = [])
    by (destruct (truthy (get parsed "outputs")); [apply Ho | reflexivity]).
  rewrite Hin, Hout, !app_nil_r.
  destruct (truthy (get parsed "branding")); [|reflexivity].
  destruct (truthy (get (get parsed "branding") "icon")),
           (truthy (get (get parsed "branding") "color")); reflexivity.
Qed.

Lemma both_Right {A B C} m (f : A -> B -> C) x y c :
  both m f x y = Right c -> exists a b, x = Right a /\ y = Right b /\ c = f a b.
Proof. destruct x, y; try discriminate. intros [= <-]. eauto. Qed.

Lemma ap_props_Right {A B} (f : Props (A -> B)) (x : Props A) m o c :
  (f <*> x) m o = Right c -> exists g a, f m o = Right g /\ x m o = Right a /\ c = g a.
Proof. apply both_Right. Qed.

Lemma at_key_Right {A} k (r : Either ParseError A) a : at_key k r = Right a -> r = Right a.
Proof. destruct r; [discriminate | exact (fun H => H)]. Qed.

Lemma decode_entries_Right {A} (item : Schema A) m props out :
  decode_entries item m props = Right out ->
  Forall (fun kv => exists a, item m (snd kv) = Right a) props.
Proof.
  revert out. induction props as [|[k v] props IH]; intros out H; [constructor|].
  cbn in H. apply both_Right in H. destruct H as (a & r & Ha & Hr & _).
  apply at_key_Right in Ha. constructor; [cbn; eauto | eapply IH; eauto].
Qed.

Lemma required_description {A} (rest : Props (string -> A)) m v a :
  Struct (rest <*> required "description" SString) m v = Right a ->
  exists s, get v "description" = VStr s.
Proof.
  destruct v as [| |b|n|s|l|o|f]; try discriminate. cbn [Struct]. intros H.
  apply ap_props_Right in H. destruct H as (g & d & _ & Hd & _).
  unfold required in Hd. cbn [get].
  destruct (own o "description") as [v|]; [|discriminate].
  apply at_key_Right in Hd. destruct v; try discriminate. cbn. eauto.
Qed.

Lemma ActionInputSchema_description m v a :
  ActionInputSchema m v = Right a -> exists s, get v "description" = VStr s.
Proof.
  unfold ActionInputSchema. destruct v as [| |b|n|s|l|o|f]; try discriminate.
  cbn [Struct]. intros H.
  apply ap_props_Right in H. destruct H as (g3 & x3 & H & _ & _).
  apply ap_props_Right in H. destruct H as (g2 & x2 & H & _ & _).
  apply ap_props_Right in H. destruct H as (g1 & x1 & H & _ & _).
  apply (required_description (pure_props Build_ActionInput) m (VObj o) g1). exact H.
Qed.

Lemma ActionOutputSchema_description m v a :
  ActionOutputSchema m v = Right a -> exists s, get v "description" = VStr s.
Proof. apply required_description. Qed.

Lemma optional_record_Right {A} k (item : Schema A) m o r :
  optional k (SRecord item) m o = Right r ->
  (truthy (default VUndefined (own o k)) = true \/ own o k = None
   \/ own o k = Some VUndefined)
  /\ Forall (fun kv => exists a, item m (snd kv) = Right a)
       (Object_entries (default VUndefined (own o k))).
Proof.
  unfold optional. destruct (own o k) as [v|]; cbn; [|split; [auto | constructor]].
  destruct v as [| |b|n|s|l|props|f]; cbn; try discriminate.
  - split; [auto | constructor].
  - intros H. destruct (decode_entries item m props) as [e|out] eqn:Hd; [discriminate|].
    split; [auto | eapply decode_entries_Right; eauto].
Qed.

(** What the manifest schema accepts of the two maps. *)
Lemma valid_manifest_maps (parsed : value) (content : ActionYml) :
  decodeUnknownEither ActionYmlSchema parsed = Right content ->
  Forall (fun kv => exists s, get (snd kv) "description" = VStr s)
    (Object_entries (get parsed "inputs"))
  /\ Forall (fun kv => exists s, get (snd kv) "description" = VStr s)
       (Object_entries (get parsed "outputs")).
Proof.
  unfold decodeUnknownEither, ActionYmlSchema.
  destruct parsed as [| |b|n|s|l|o|f]; try discriminate. cbn [Struct get]. intros H.
  apply ap_props_Right in H. destruct H as (g7 & x7 & H & _ & _).
  apply ap_props_Right in H. destruct H as (g6 & x6 & H & _ & _).
  apply ap_props_Right in H. destruct H as (g5 & x5 & H & Hout & _).
  apply ap_props_Right in H. destruct H as (g4 & x4 & H & Hin & _).
  apply optional_record_Right in Hin. apply optional_record_Right in Hout.
  destruct Hin as [_ Hin], Hout as [_ Hout]. split.
  - eapply List.Forall_impl; [|exact Hin]. intros kv [a Ha].
    eapply ActionInputSchema_description; eauto.
  - eapply List.Forall_impl; [|exact Hout]. intros kv [a Ha].
    eapply ActionOutputSchema_description; eauto.
Qed.

Lemma filter_described (c c' : string) (mk : string -> ValidationItem)
    (l : list (string * value)) :
  (forall name, code (mk name) = c') ->
  Forall (fun kv => exists s, get (snd kv) "description" = VStr s) l ->
  List.filter (has_code c)
    (flat_map (fun '(name, member) =>
                 if negb (truthy (get member "description")) then [mk name] else []) l)
  = if String.eqb c' c
    then map (fun kv => mk (fst kv))
           (List.filter (fun kv => is_empty_string (get (snd kv) "description")) l)
    else [].
Proof.
  intros Hc Hl. induction Hl as [|[name member] l [s Hs] Hl IH].
  - cbn. destruct (String.eqb c' c); reflexivity.
  - cbn [flat_map List.filter snd fst]. cbn [snd] in Hs. rewrite Hs.
    cbn [truthy is_empty_string]. rewrite List.filter_app, IH.
    destruct (String.eqb s ""); cbn [negb List.filter app].
    + unfold has_code. rewrite Hc. destruct (String.eqb c' c); reflexivity.
    + reflexivity.
Qed.

Lemma filter_branding_none (c : string) (parsed : value) (filePath : option string) :
  String.prefix "ACTION_YML_NO_BRANDING" c = false ->
  List.filter (has_code c)
    (if negb (truthy (get parsed "branding"))
     then [makeWarning "ACTION_YML_NO_BRANDING" "No branding configuration found"
             "Add branding.icon and branding.color for better marketplace visibility"
             filePath]
     else (if negb (truthy (get (get parsed "branding") "icon"))
           then [makeWarning "ACTION_YML_NO_BRANDING_ICON"
                   "Branding icon not specified"
                   "Add branding.icon for better marketplace visibility" filePath]
           else [])
          ++ (if negb (truthy (get (get parsed "branding") "color"))
              then [makeWarning "ACTION_YML_NO_BRANDING_COLOR"
                      "Branding color not specified"
                      "Add branding.color for better marketplace visibility"
                      filePath]
              else [])) = [].
Proof.
  intros Hc.
  assert (H1 : String.eqb "ACTION_YML_NO_BRANDING" c = false).
  { destruct (String.eqb "ACTION_YML_NO_BRANDING" c) eqn:E; [|reflexivity].
    apply String.eqb_eq in E. subst c. discriminate Hc. }
  assert (H2 : String.eqb "ACTION_YML_NO_BRANDING_ICON" c = false).
  { destruct (String.eqb "ACTION_YML_NO_BRANDING_ICON" c) eqn:E; [|reflexivity].
    apply String.eqb_eq in E. subst c. discriminate Hc. }
  assert (H3 : String.eqb "ACTION_YML_NO_BRANDING_COLOR" c = false).
  { destruct (String.eqb "ACTION_YML_NO_BRANDING_COLOR" c) eqn:E; [|reflexivity].
    apply String.eqb_eq in E. subst c. discriminate Hc. }
  destruct (truthy (get parsed "branding")),
           (truthy (get (get parsed "branding") "icon")),
           (truthy (get (get parsed "branding") "color"));
    cbn [negb app List.filter]; unfold has_code; cbn [code makeWarning];
    rewrite ?H1, ?H2, ?H3; try reflexivity;
    cbn [List.filter]; unfold has_code; cbn [code makeWarning];
    rewrite ?H3; reflexivity.
Qed.

Lemma falsy_has_no_entries (v : value) : truthy v = false -> Object_entries v = [].
Proof. destruct v; cbn; try reflexivity; discriminate. Qed.

(** X6: in a manifest that passes the schema, every declared input and
    every declared output has a description that is a string; so the
    warnings that an input or an output has no description are given for
    exactly those whose description is the empty string, one each and in
    the order in which [Object.entries] gives them. *)
Theorem undescribed_means_empty_description (parsed : value) (content : ActionYml)
    (filePath : option string) :
  decodeUnknownEither ActionYmlSchema parsed = Right content ->
  Forall (fun kv => exists s, get (snd kv) "description" = VStr s)
    (Object_entries (get parsed "inputs") ++ Object_entries (get parsed "outputs"))
  /\ List.filter (has_code "ACTION_YML_INPUT_NO_DESCRIPTION")
       (checkRecommendations parsed filePath)
     = map (fun kv => makeWarning "ACTION_YML_INPUT_NO_DESCRIPTION"
                        ("Input '" +:+ fst kv +:+ "' has no description")
                        ("Add a description for the '" +:+ fst kv +:+ "' input") filePath)
         (List.filter (fun kv => is_empty_string (get (snd kv) "description"))
            (Object_entries (get parsed "inputs")))
  /\ List.filter (has_code "ACTION_YML_OUTPUT_NO_DESCRIPTION")
       (checkRecommendations parsed filePath)
     = map (fun kv => makeWarning "ACTION_YML_OUTPUT_NO_DESCRIPTION"
                        ("Output '" +:+ fst kv +:+ "' has no description")
                        ("Add a description for the '" +:+ fst kv +:+ "' output") filePath)
         (List.filter (fun kv => is_empty_string (get (snd kv) "description"))
            (Object_entries (get parsed "outputs"))).
Proof.
  intros Hdec. destruct (valid_manifest_maps parsed content Hdec) as [Hin Hout].
  split; [apply Forall_app; auto|].
  pose proof (fun c => filter_described c "ACTION_YML_INPUT_NO_DESCRIPTION"
                (fun name => makeWarning "ACTION_YML_INPUT_NO_DESCRIPTION"
                               ("Input '" +:+ name +:+ "' has no description")
                               ("Add a description for the '" +:+ name +:+ "' input")
                               filePath)
                _ (fun _ => eq_refl) Hin) as Hi.
  pose proof (fun c => filter_described c "ACTION_YML_OUTPUT_NO_DESCRIPTION"
                (fun name => makeWarning "ACTION_YML_OUTPUT_NO_DESCRIPTION"
                               ("Output '" +:+ name +:+ "' has no description")
                               ("Add a description for the '" +:+ name +:+ "' output")
                               filePath)
                _ (fun _ => eq_refl) Hout) as Ho.
  cbv beta in Hi, Ho.
  unfold checkRecommendations. rewrite !List.filter_app.
  rewrite !filter_branding_none by reflexivity.
  destruct (truthy (get parsed "inputs")) eqn:Ti, (truthy (get parsed "outputs")) eqn:To;
    try rewrite (falsy_has_no_entries _ Ti); try rewrite (falsy_has_no_entries _ To);
    rewrite ?Hi, ?Ho; cbn [List.filter map app]; rewrite ?app_nil_r; split; reflexivity.
Qed.


(** X7: a manifest file that is there, reads and parses, but not to a
    mapping, is rejected without a change to the world: a sequence passes
    the object test of [readActionYml] and fails at the schema, with
    [ActionYmlSchemaError]; null or a scalar fails with
    [ActionYmlSyntaxError] and the message "action.yml must be an
    object". *)
Theorem top_level_of_manifest (path content : string) (parsed : value) (w : World P) :
  existsSync P (fs w) path = true ->
  readFileSync P (fs w) path = Right content ->
  parseYaml P content = Right parsed ->
  (forall o, parsed <> VObj o) ->
  exists e, validateActionYml P path w = (Failure e, w)
    /\ match parsed with
       | VArr _ => exists errs, e = ActionYmlSchemaError path errs
       | _ => e = ActionYmlSyntaxError path "action.yml must be an object"
       end.
Proof.
  intros He Hr Hp Hobj.
  unfold validateActionYml, Effect_bind. rewrite readActionYml_spec, He, Hr, Hp. cbn [negb].
  destruct parsed as [| |b|n|s|l|o|f]; try (eexists; split; reflexivity).
  - rewrite validateSchema_spec. cbn. eexists; split; [reflexivity|]. eexists; reflexivity.
  - destruct (Hobj o eq_refl).
Qed.

Lemma validate_result_valid (config : Config) (options : ValidateOptions) (w : World P)
    (r : ValidationResult) :
  fst (validate P config options w) = Success r ->
  (valid r = true <-> errors r = []).
Proof.
  destruct (checkActionYml_total P config (default (process_cwd w) (validate_cwd options)) w)
    as (ye & yw & Hy).
  rewrite (validate_verdict P config options w _ ye yw (checkEntries_spec P _ _ _) Hy).
  cbn [fst].
  set (es := (if existsSync P (fs w) _ then [] else _) ++ ye).
  destruct (strictOf P config options w), yw as [|y yw], es as [|e es]; cbn;
    intros H; try discriminate; injection H as <-; cbn; split; congruence.
Qed.


End ServiceProperties.


Lemma formatResult_lines_eq (r : ValidationResult) :
  formatResult_lines r
  = (match errors r with [] => [] | _ => "Errors:" :: flat_map (item_lines "  ✗ ") (errors r) end)
    ++ (match errors r, warnings r with
        | _, [] => []
        | [], _ => "Warnings:" :: flat_map (item_lines "  ⚠ ") (warnings r)
        | _, _ => "" :: "Warnings:" :: flat_map (item_lines "  ⚠ ") (warnings r)
        end)
    ++ (if valid r then match errors r, warnings r with [], [] => ["✓ All checks passed"] | _, _ => [] end else []).
Proof.
  unfold formatResult_lines.
  destruct (errors r) as [|e es], (warnings r) as [|x xs], (valid r); cbn; 
    rewrite ?app_nil_r; try reflexivity.
Qed.

Lemma items_are_not_the_pass_line (mark : string) (l : list ValidationItem) :
  ~ In "✓ All checks passed" (flat_map (item_lines (String " " mark)) l).
Proof.
  induction l as [|a l IH]; cbn [flat_map]; [intros []|].
  intros H. apply in_app_or in H. destruct H as [H|H]; [|exact (IH H)].
  unfold item_lines in H. cbn [app In] in H. destruct H as [H|H]; [discriminate H|].
  destruct (truthy_string (suggestion a)); cbn in H; [|exact H].
  destruct H as [H|[]]. discriminate H.
Qed.

Lemma item_line_in (mark : string) (l : list ValidationItem) :
  Forall (fun i => In (mark +:+ message i) (flat_map (item_lines mark) l)) l.
Proof.
  induction l as [|a l IH]; constructor.
  - cbn [flat_map]. apply in_or_app. left. left. reflexivity.
  - eapply List.Forall_impl; [|exact IH]. intros i Hi. cbn [flat_map].
    apply in_or_app. right. exact Hi.
Qed.

(** X8: [formatResult] prints nothing at all only for a result that is
    invalid and yet has no error and no warning; it prints the line
    "All checks passed" exactly when the result is valid and has neither;
    and every error and every warning has its message on a line of its
    own, after its mark. *)
Theorem formatResult_report (r : ValidationResult) :
  (formatResult_lines r = [] <-> valid r = false /\ errors r = [] /\ warnings r = [])
  /\ (In "✓ All checks passed" (formatResult_lines r)
      <-> valid r = true /\ errors r = [] /\ warnings r = [])
  /\ Forall (fun e => In ("  ✗ " +:+ message e) (formatResult_lines r)) (errors r)
  /\ Forall (fun x => In ("  ⚠ " +:+ message x) (formatResult_lines r)) (warnings r).
Proof.
  rewrite formatResult_lines_eq.
  pose proof (items_are_not_the_pass_line " ✗ " (errors r)) as He.
  pose proof (items_are_not_the_pass_line " ⚠ " (warnings r)) as Hw.
  pose proof (item_line_in "  ✗ " (errors r)) as Ie.
  pose proof (item_line_in "  ⚠ " (warnings r)) as Iw.
  change (String " " " ✗ ") with "  ✗ " in He.
  change (String " " " ⚠ ") with "  ⚠ " in Hw.
  remember (flat_map (item_lines "  ✗ ") (errors r)) as E eqn:HE. clear HE.
  remember (flat_map (item_lines "  ⚠ ") (warnings r)) as W eqn:HW. clear HW.
  assert (Hin : forall (x : string) (a b c : list string),
            In x b -> In x (a ++ b ++ c)).
  { intros x a b c H. apply in_or_app. right. apply in_or_app. left. exact H. }
  split; [|split; [|split]].
  - destruct (errors r), (warnings r), (valid r); cbn;
      (split; [intros H; try discriminate H; repeat split; reflexivity
              | intros (H1 & H2 & H3); congruence]).
  - split.
    + intros H.
      destruct (errors r), (warnings r), (valid r); cbn in H;
        repeat match goal with
               | H : _ \/ _ |- _ => destruct H as [H|H]
               | H : In _ (_ ++ _) |- _ => apply in_app_or in H
               | H : In _ (_ :: _) |- _ => destruct H as [H|H]
               | H : In _ [] |- _ => destruct H
               | H : False |- _ => destruct H
               | H : In _ E |- _ => destruct (He H)
               | H : In _ W |- _ => destruct (Hw H)
               | H : _ = _ |- _ => discriminate H
               end;
        repeat split; reflexivity.
    + intros (-> & -> & ->). left. reflexivity.
  - destruct (errors r) as [|e es]; [constructor|].
    eapply List.Forall_impl; [|exact Ie]. intros i Hi.
    apply in_or_app. left. right. exact Hi.
  - destruct (warnings r) as [|x xs]; [constructor|].
    eapply List.Forall_impl; [|exact Iw]. intros i Hi. apply Hin.
    destruct (errors r); [right|right; right]; exact Hi.
Qed.

Section ReportProperties.
Context (P : Platform).

(** X9: the report of a result that [validate] returns is never empty: it
    opens with "Errors:" when there is an error, else with "Warnings:"
    when there is a warning, else it is the line "All checks passed" and
    nothing more. *)
Theorem validation_report_opens_with_a_heading (config : Config) (options : ValidateOptions)
    (w : World P) (r : ValidationResult) :
  fst (validate P config options w) = Success r ->
  hd_error (formatResult_lines r)
  = Some match errors r, warnings r with
         | _ :: _, _ => "Errors:"
         | [], _ :: _ => "Warnings:"
         | [], [] => "✓ All checks passed"
         end
  /\ formatResult r <> ""
  /\ (errors r = [] -> warnings r = [] ->
      formatResult_lines r = ["✓ All checks passed"]
      /\ formatResult r = "✓ All checks passed").
Proof.
  intros H. apply validate_result_valid in H.
  unfold formatResult. rewrite formatResult_lines_eq.
  destruct (errors r) as [|e es], (warnings r) as [|x xs].
  - rewrite (proj2 H eq_refl). cbn. split; [reflexivity|]. split; [discriminate|].
    intros _ _. split; reflexivity.
  - cbn [app hd_error]. split; [reflexivity|]. cbn [item_lines flat_map app].
    cbn [String.concat]. split; [discriminate|]. intros _ Hw. discriminate Hw.
  - cbn [app hd_error]. split; [reflexivity|]. cbn [item_lines flat_map app].
    cbn [String.concat]. split; [discriminate|]. intros He. discriminate He.
  - cbn [app hd_error]. split; [reflexivity|]. cbn [item_lines flat_map app].
    cbn [String.concat]. split; [discriminate|]. intros He. discriminate He.
Qed.

End ReportProperties.

Lemma toFixed1_tenths (num den t : Z) :
  (0 < den)%Z -> (2 * den * t - den <= 2 * 10 * num < 2 * den * t + den)%Z ->
  toFixed1 num den = pretty (t / 10)%Z +:+ "." +:+ pretty (t mod 10)%Z.
Proof.
  intros Hd Ht. unfold toFixed1.
  replace ((2 * 10 * num + den) / (2 * den))%Z with t; [reflexivity|].
  apply Z.div_unique with (r := (2 * 10 * num + den - 2 * den * t)%Z); lia.
Qed.

(** X10: from 1024 bytes up to one below 1024 * 1024, [formatBytes]
    prints the size in KB rounded to the nearest tenth, a half rounded up;
    so the sizes from 1048525 bytes on are printed as "1024.0 KB", not as
    "1.0 MB". *)
Theorem formatBytes_kilobytes (bytes : Z) :
  (1024 <= bytes < 1024 * 1024)%Z ->
  (exists t : Z,
     (1024 * t - 512 <= 10 * bytes < 1024 * t + 512)%Z
     /\ formatBytes bytes
        = (pretty (t / 10)%Z +:+ "." +:+ pretty (t mod 10)%Z) +:+ " KB")
  /\ ((1048525 <= bytes)%Z -> formatBytes bytes = "1024.0 KB").
Proof.
  intros Hb. unfold formatBytes.
  destruct (Z.ltb_spec bytes 1024); [lia|].
  destruct (Z.ltb_spec bytes (1024 * 1024)); [|lia].
  split.
  - exists ((2 * 10 * bytes + 1024) / (2 * 1024))%Z.
    pose proof (Z.div_mod (2 * 10 * bytes + 1024) (2 * 1024) ltac:(lia)) as Hdm.
    pose proof (Z.mod_pos_bound (2 * 10 * bytes + 1024) (2 * 1024) ltac:(lia)) as Hm.
    split; [lia|]. unfold toFixed1. cbv zeta.
    reflexivity.
  - intros Hedge. rewrite (toFixed1_tenths bytes 1024 10240) by lia. reflexivity.
Qed.

Lemma summary_lines (rs : list BundleResult) (entries : list DetectedEntry) :
  Forall2 result_for entries rs ->
  forallb bundle_success rs = true ->
  length (flat_map (fun entry =>
            match bundle_stats entry with
            | Some stats =>
                if bundle_success entry then
                  [ "  ✓ " +:+ stats_entry stats +:+ ": " +:+ formatBytes (stats_size stats)
                    +:+ " (" +:+ pretty (stats_duration stats) +:+ "ms) → "
                    +:+ stats_outputPath stats ]
                else []
            | None => []
            end) rs) = length rs.
Proof.
  induction 1 as [|e r es rs Hr Hrs IH]; [reflexivity|].
  cbn [forallb flat_map]. intros H. apply andb_prop in H. destruct H as [Hs Hall].
  rewrite length_app, (IH Hall).
  destruct Hr as [(_ & _ & stats & -> & _)|(Hf & _)]; [|congruence].
  rewrite Hs. reflexivity.
Qed.

Lemma failure_lines (rs : list BundleResult) (entries : list DetectedEntry) :
  Forall2 result_for entries rs ->
  let lines := flat_map (fun entry =>
                 if negb (bundle_success entry)
                 then [ "  ✗ " +:+ default "undefined" (bundle_error entry) ]
                 else []) rs in
  length lines = length (failed_entries rs)
  /\ Forall (fun r => exists c, bundle_error r = Some c /\ In ("  ✗ " +:+ c) lines)
       (failed_entries rs).
Proof.
  induction 1 as [|e r es rs Hr Hrs IH]; [split; [reflexivity|constructor]|].
  cbn zeta in *. destruct IH as [IHl IHf]. unfold failed_entries in *.
  cbn [flat_map List.filter].
  destruct Hr as [(Hs & _)|(Hs & _ & c & Hc)]; rewrite Hs; cbn [negb app].
  - split; assumption.
  - cbn [length]. rewrite IHl. split; [reflexivity|]. constructor.
    + exists c. rewrite Hc. split; [reflexivity|]. left. reflexivity.
    + eapply List.Forall_impl; [|exact IHf]. intros a (c' & Hc' & Hin).
      exists c'. split; [exact Hc'|]. right. exact Hin.
Qed.

Section BuildReportProperties.
Context (P : Platform).

Lemma build_result_entries (config : Config) (options : BuildRunnerOptions) (w : World P)
    (r : BuildResult) :
  fst (build P config options w) = Success r ->
  result_success r = forallb bundle_success (result_entries r)
  /\ exists entries, Forall2 result_for entries (result_entries r).
Proof.
  intros H.
  destruct (build_cases P config options w) as [(_ & E)|(_ & detected & _ & E)].
  - rewrite E in H. discriminate H.
  - destruct E as [(c & w' & E & _)|(rs & w' & Hrs & _ & [(c & E)|(d & E)])];
      rewrite E in H; try discriminate H.
    injection H as <-. cbn. split; [reflexivity|]. exists (detect_entries detected). exact Hrs.
Qed.

(** X11: of a result that [build] returns, [formatBuildResult] prints, when
    it succeeded, the heading, one line for every entry and the total
    time; and when it failed, the heading and one line for every entry
    that failed, of which there is at least one, each with the cause of
    that entry. *)
Theorem build_report_lists_every_entry (config : Config) (options : BuildRunnerOptions)
    (w : World P) (r : BuildResult) :
  fst (build P config options w) = Success r ->
  (result_success r = true ->
   length (formatBuildResult_lines r) = length (result_entries r) + 2)
  /\ (result_success r = false ->
      length (formatBuildResult_lines r) = 1 + length (failed_entries (result_entries r))
      /\ failed_entries (result_entries r) <> []
      /\ Forall (fun e => exists c, bundle_error e = Some c
                                    /\ In ("  ✗ " +:+ c) (formatBuildResult_lines r))
           (failed_entries (result_entries r))).
Proof.
  intros H. apply build_result_entries in H. destruct H as (Hs & entries & Hrs).
  unfold formatBuildResult_lines. split; intros Hr; rewrite Hr.
  - rewrite Hr in Hs. symmetry in Hs. cbn [app length]. rewrite length_app.
    rewrite (summary_lines _ _ Hrs Hs). cbn. lia.
  - destruct (failure_lines _ _ Hrs) as [Hl Hf]. cbn zeta in Hl, Hf.
    cbn [app length]. rewrite Hl. split; [reflexivity|]. split.
    + intros Hnil. rewrite Hr in Hs. symmetry in Hs.
      assert (Hall : forallb bundle_success (result_entries r) = true); [|congruence].
      clear -Hnil. induction (result_entries r) as [|a l IH]; [reflexivity|].
      unfold failed_entries in *. cbn in *. destruct (bundle_success a); cbn in *;
        [auto|discriminate].
    + eapply List.Forall_impl; [|exact Hf]. intros a (c & Hc & Hin).
      exists c. split; [exact Hc|]. right. exact Hin.
Qed.

End BuildReportProperties.

Section BuildProperties.
Context (P : Platform).

Lemma keeps_bind {E A B} (I : FS P -> Prop) (x : Effect P E A) (k : A -> Effect P E B) :
  keeps P I x -> (forall a, keeps P I (k a)) -> keeps P I (Effect_bind P x k).
Proof.
  intros Hx Hk w Hw. unfold Effect_bind. specialize (Hx w Hw).
  destruct (x w) as [[a|e|d] w']; cbn [snd] in *; [apply Hk|..]; assumption.
Qed.

Lemma keeps_either {E E' A} (I : FS P -> Prop) (x : Effect P E A) :
  keeps P I x -> keeps P I (Effect_either P x : Effect P E' (Either E A)).
Proof.
  intros Hx w Hw. unfold Effect_either. specialize (Hx w Hw).
  destruct (x w) as [[a|e|d] w']; assumption.
Qed.

Lemma keeps_succeed {E A} (I : FS P -> Prop) (a : A) :
  keeps P I (Effect_succeed P a : Effect P E A).
Proof. intros w Hw. exact Hw. Qed.

Lemma keeps_Date_now {E} (I : FS P -> Prop) : keeps P I (Date_now P : Effect P E Z).
Proof. intros w Hw. exact Hw. Qed.

Lemma keeps_bundle {E} (I : FS P -> Prop) (entryPath : string) (options : NccOptions)
    (catch : thrown -> E) :
  keeps P I (bundle P entryPath options catch).
Proof.
  intros w Hw. unfold bundle, call_ncc.
  destruct (ncc P (fs w) entryPath _) as [[t|res] elapsed]; exact Hw.
Qed.

Section Writes.

Context (I : FS P -> Prop).
Hypothesis mkdir_keeps : forall f d, I f -> I (snd (mkdirSync P f d)).
Hypothesis write_keeps : forall f p c, I f -> I (snd (writeFileSync P f p c)).

Lemma keeps_writeFile (path content : string) : keeps P I (writeFile P path content).
Proof.
  intros w Hw. unfold writeFile, Effect_try.
  pose proof (mkdir_keeps (fs w) (path_resolve P path "..") Hw) as Hm.
  destruct (mkdirSync P (fs w) (path_resolve P path "..")) as [[t|u] f1]; cbn [snd] in Hm.
  - exact Hm.
  - pose proof (write_keeps f1 path content Hm) as Hf.
    destruct (writeFileSync P f1 path content) as [[t|u'] f2]; exact Hf.
Qed.

Lemma keeps_writeAssets (outputDir : string) (assets : list (string * string)) :
  keeps P I (writeAssets P outputDir assets).
Proof.
  induction assets as [|[assetName content] rest IH]; cbn [writeAssets].
  - apply keeps_succeed.
  - apply keeps_bind; [apply keeps_writeFile|intros _; exact IH].
Qed.

Lemma keeps_bundleEntry (entry : DetectedEntry) (config : Config) (cwd : string) :
  keeps P I (bundleEntry P entry config cwd).
Proof.
  unfold bundleEntry.
  apply keeps_bind; [apply keeps_Date_now|intros startTime].
  apply keeps_bind; [apply keeps_bundle|intros nccResult].
  apply keeps_bind; [apply keeps_writeFile|intros _].
  apply keeps_bind.
  { destruct (_ && _); [apply keeps_writeFile|apply keeps_succeed]. }
  intros _. apply keeps_bind; [apply keeps_writeAssets|intros _].
  apply keeps_bind; [apply keeps_Date_now|intros endTime]. apply keeps_succeed.
Qed.

Lemma keeps_buildEntries (entries : list DetectedEntry) (config : Config) (cwd : string) :
  keeps P I (buildEntries P entries config cwd).
Proof.
  induction entries as [|entry rest IH]; cbn [buildEntries].
  - apply keeps_succeed.
  - apply keeps_bind; [apply keeps_either, keeps_bundleEntry|intros result].
    apply keeps_bind; [exact IH|intros rs]. apply keeps_succeed.
Qed.

End Writes.

Lemma detectEntries_world (cwd : string) (entries : option EntriesInput) (w : World P) :
  snd (detectEntries P cwd entries w) = w.
Proof.
  destruct (detectEntries_cases P cwd entries w) as [Hmiss Hok]. cbv zeta in Hmiss, Hok.
  destruct (existsSync P (fs w) (path_resolve P cwd _));
    [rewrite (Hok eq_refl)|rewrite (Hmiss eq_refl)]; reflexivity.
Qed.

(** X12: [build] changes the file system only through [mkdirSync],
    [writeFileSync] and, when [clean] is not switched off, [rmSync] of
    [<cwd>/dist]: a property of the file system that these calls keep is
    kept by [build], however it ends.  With [clean: false] nothing is
    required of [rmSync]: it is never called. *)
Theorem build_touches_files_by_three_calls (I : FS P -> Prop) (config : Config)
    (options : BuildRunnerOptions) (w : World P) :
  (forall f d, I f -> I (snd (mkdirSync P f d))) ->
  (forall f p c, I f -> I (snd (writeFileSync P f p c))) ->
  (default true (run_clean options) = true ->
   forall f, I f ->
     I (snd (rmSync P f (path_resolve P (default (process_cwd w) (run_cwd options)) "dist")))) ->
  I (fs w) -> I (fs (snd (build P config options w))).
Proof.
  intros Hm Hw Hrm H0.
  pose proof (build_unfold P config options w) as Hb. cbv zeta in Hb. rewrite Hb. clear Hb.
  set (cwd := default (process_cwd w) (run_cwd options)) in *.
  pose proof (detectEntries_world cwd (Some (entriesConfig config)) w) as Hd.
  destruct (detectEntries P cwd (Some (entriesConfig config)) w) as [[detected|e|d] w0];
    cbn [snd] in Hd; subst w0; try exact H0.
  set (entries := detect_entries detected).
  assert (Hc : keeps P I (if default true (run_clean options)
                        then cleanDirectory P (path_resolve P cwd "dist")
                        else Effect_succeed P tt)).
  { destruct (default true (run_clean options)); [|apply keeps_succeed].
    intros w0 Hw0. unfold cleanDirectory, Effect_try.
    specialize (Hrm eq_refl (fs w0) Hw0).
    destruct (existsSync P (fs w0) (path_resolve P cwd "dist")); [|exact Hw0].
    destruct (rmSync P (fs w0) (path_resolve P cwd "dist")) as [[t|u] f]; exact Hrm. }
  specialize (Hc w H0).
  destruct ((if default true (run_clean options)
             then cleanDirectory P (path_resolve P cwd "dist")
             else Effect_succeed P tt) w) as [[u|e|d] w1];
    cbn [snd] in Hc; try exact Hc.
  pose proof (keeps_buildEntries I Hm Hw entries config cwd w1 Hc) as Hbs.
  destruct (buildEntries P entries config cwd w1) as [[rs|e|d] w2]; cbn [snd] in Hbs;
    try exact Hbs.
  pose proof (keeps_writeFile I Hm Hw (path_resolve P cwd "dist/package.json")
                module_marker w2 Hbs) as Hp.
  destruct (writeFile P _ module_marker w2) as [[u'|e|d] w3]; exact Hp.
Qed.

(** X13: on a file system where a file that was written reads back, every
    [build] that returns a result, also one in which entries failed,
    leaves [<cwd>/dist/package.json] with the text
    [{ "type": "module" }]. *)
Theorem build_marks_dist_as_module (config : Config) (options : BuildRunnerOptions)
    (w : World P) (r : BuildResult) :
  (forall f p c f', writeFileSync P f p c = (Right tt, f') -> readFileSync P f' p = Right c) ->
  fst (build P config options w) = Success r ->
  readFileSync P (fs (snd (build P config options w)))
    (path_resolve P (default (process_cwd w) (run_cwd options)) "dist/package.json")
  = Right module_marker.
Proof.
  intros Hlaw.
  pose proof (build_unfold P config options w) as Hb. cbv zeta in Hb. rewrite Hb. clear Hb.
  set (cwd := default (process_cwd w) (run_cwd options)) in *.
  destruct (detectEntries P cwd (Some (entriesConfig config)) w) as [[detected|e|d] w0];
    try discriminate.
  destruct ((if default true (run_clean options)
             then cleanDirectory P (path_resolve P cwd "dist")
             else Effect_succeed P tt) w0) as [[u|e|d] w1];
    try discriminate.
  destruct (buildEntries P (detect_entries detected) config cwd w1) as [[rs|e|d] w2];
    try discriminate.
  unfold writeFile, Effect_try.
  destruct (mkdirSync P (fs w2) _) as [[t|u0] f1]; try discriminate.
  destruct (writeFileSync P f1 (path_resolve P cwd "dist/package.json") module_marker)
    as [[t|[]] f2] eqn:Ew; try discriminate.
  intros _. cbn [snd fs with_fs]. exact (Hlaw _ _ _ _ Ew).
Qed.

(** X14: when the bundler rejects an entry, [bundleEntry] fails with
    [BundleFailed] for the path of that entry, with what the bundler
    threw as the cause, and has written nothing.  The bundler is asked
    with the build options of the configuration. *)
Theorem rejected_entry_writes_nothing (entry : DetectedEntry) (config : Config)
    (cwd : string) (w : World P) (t : thrown) :
  fst (ncc P (fs w) (entry_path entry) (ncc_options config)) = Left t ->
  fst (bundleEntry P entry config cwd w)
  = Failure (BundleFailed (entry_path entry) (cause_of_thrown t))
  /\ fs (snd (bundleEntry P entry config cwd w)) = fs w.
Proof.
  intros Hn. unfold bundleEntry, Effect_bind, Date_now, bundle, call_ncc.
  match goal with
  | |- context [ncc P (fs w) (entry_path entry) ?o] =>
      change o with (ncc_options config)
  end.
  destruct (ncc P (fs w) (entry_path entry) (ncc_options config)) as [[t'|res] elapsed];
    cbn [fst] in Hn; [|discriminate].
  injection Hn as ->. split; reflexivity.
Qed.

End BuildProperties.

Lemma defineConfig_of_value (i : ConfigInput) :
  defineConfig_unknown (ConfigInput_value i) = defineConfig i.
Proof. destruct i as [[e|] [b|] [v|]]; reflexivity. Qed.

Lemma defineConfig_as_input (c : Config) : defineConfig (as_input c) = Right c.
Proof.
  rewrite defineConfig_resolved. destruct c as [[m p q] [a b s x y] [u v z]]. reflexivity.
Qed.

Section LoadProperties.
Context (P : Platform).
Context (importModule : FS P -> string -> Either thrown value).
Context (rejection_message : Rejection -> string).

Lemma findConfigFile_in_spec (f : FS P) (cwd : string) (filenames : list string) :
  match findConfigFile_in P f cwd filenames with
  | Some p =>
      exists before name after,
        filenames = before ++ name :: after
        /\ p = path_resolve P cwd name
        /\ existsSync P f p = true
        /\ Forall (fun n => existsSync P f (path_resolve P cwd n) = false) before
  | None => Forall (fun n => existsSync P f (path_resolve P cwd n) = false) filenames
  end.
Proof.
  induction filenames as [|name rest IH]; cbn [findConfigFile_in]; [constructor|].
  destruct (existsSync P f (path_resolve P cwd name)) eqn:E.
  - exists [], name, rest. repeat split; [exact E|constructor].
  - destruct (findConfigFile_in P f cwd rest) as [p|].
    + destruct IH as (before & n & after & -> & -> & Hp & Hb).
      exists (name :: before), n, after. repeat split; [exact Hp|constructor; assumption].
    + constructor; assumption.
Qed.

(** X15: [findConfigFile] gives the first of action.config.ts,
    action.config.js and action.config.mjs that exists in the directory,
    resolved against it, and nothing when none of the three exists. *)
Theorem findConfigFile_first_existing (f : FS P) (cwd : string) :
  match findConfigFile P f cwd with
  | Some p =>
      exists before name after,
        ["action.config.ts"; "action.config.js"; "action.config.mjs"]
        = before ++ name :: after
        /\ p = path_resolve P cwd name
        /\ existsSync P f p = true
        /\ Forall (fun n => existsSync P f (path_resolve P cwd n) = false) before
  | None =>
      Forall (fun n => existsSync P f (path_resolve P cwd n) = false)
        ["action.config.ts"; "action.config.js"; "action.config.mjs"]
  end.
Proof.
  unfold findConfigFile, CONFIG_FILENAMES. cbn [findConfigFile_in].
  destruct (existsSync P f (path_resolve P cwd "action.config.ts")) eqn:Ets.
  { exists [], "action.config.ts", ["action.config.js"; "action.config.mjs"].
    split; [reflexivity|]. split; [reflexivity|]. split; [exact Ets|constructor]. }
  destruct (existsSync P f (path_resolve P cwd "action.config.js")) eqn:Ejs.
  { exists ["action.config.ts"], "action.config.js", ["action.config.mjs"].
    split; [reflexivity|]. split; [reflexivity|]. split; [exact Ejs|].
    constructor; [exact Ets|constructor]. }
  destruct (existsSync P f (path_resolve P cwd "action.config.mjs")) eqn:Emjs.
  { exists ["action.config.ts"; "action.config.js"], "action.config.mjs", [].
    split; [reflexivity|]. split; [reflexivity|]. split; [exact Emjs|].
    constructor; [exact Ets|]. constructor; [exact Ejs|constructor]. }
  constructor; [exact Ets|]. constructor; [exact Ejs|]. constructor; [exact Emjs|constructor].
Qed.

Lemma load_world (options : LoadConfigOptions) (w : World P) :
  snd (load P importModule options w) = w.
Proof.
  unfold load.
  destruct (negb (truthy_string _)).
  - unfold Effect_bind, defined. destruct (defineConfig empty_input); reflexivity.
  - destruct (negb (existsSync P (fs w) _)); [reflexivity|].
    destruct (importModule (fs w) _) as [t|m]; [reflexivity|].
    destruct (_ || _); [reflexivity|].
    unfold Effect_bind, defined. destruct (defineConfig_unknown _); reflexivity.
Qed.

(** X16: [load] returns the default configuration, marked
    [usingDefaults] and without a path, and leaves the world as it was,
    when no path is given and none of the three file names exists in the
    directory; and also when the path given is the empty string, whatever
    exists. *)
Theorem load_defaults (options : LoadConfigOptions) (w : World P) :
  load_configPath options = Some ""
  \/ (load_configPath options = None
      /\ Forall (fun n => existsSync P (fs w)
                            (path_resolve P (default (process_cwd w) (load_cwd options)) n)
                          = false)
           ["action.config.ts"; "action.config.js"; "action.config.mjs"]) ->
  load P importModule options w
  = (Success {| loaded_config := Sample.config; loaded_configPath := None;
                loaded_usingDefaults := true |}, w).
Proof.
  intros [H|[H Hnone]]; unfold load; rewrite H.
  - reflexivity.
  - replace (findConfigFile P (fs w) (default (process_cwd w) (load_cwd options)))
      with (@None string); [reflexivity|].
    symmetry. unfold findConfigFile, CONFIG_FILENAMES. cbn [findConfigFile_in].
    inversion Hnone as [|? ? H1 Hn1]; subst. inversion Hn1 as [|? ? H2 Hn2]; subst.
    inversion Hn2 as [|? ? H3 Hn3]; subst. rewrite H1, H2, H3. reflexivity.
Qed.

(** X17: [load] fails with [ConfigNotFound] exactly when a path was given
    that is not empty and does not exist; the error then names that path.
    A file that [findConfigFile] found never gives this error, and a
    missing file that was asked for by name is never replaced by a
    default. *)
Theorem config_not_found_iff (options : LoadConfigOptions) (w : World P) (p m : string) :
  fst (load P importModule options w) = Failure (ConfigNotFound p m)
  <-> load_configPath options = Some p /\ p <> ""
      /\ existsSync P (fs w) p = false
      /\ m = "Specified config file does not exist".
Proof.
  unfold load.
  set (cwd := default (process_cwd w) (load_cwd options)).
  assert (Hfound : forall q, findConfigFile P (fs w) cwd = Some q ->
                             existsSync P (fs w) q = true).
  { intros q Hq. pose proof (findConfigFile_in_spec (fs w) cwd CONFIG_FILENAMES) as Hs.
    fold (findConfigFile P (fs w) cwd) in Hs. rewrite Hq in Hs.
    destruct Hs as (_ & _ & _ & _ & _ & Hex & _). exact Hex. }
  destruct (load_configPath options) as [q|] eqn:Hq.
  - cbn [truthy_string]. destruct (String.eqb_spec q "") as [->|Hne]; cbn [negb default from_option id].
    + split; [|intros (Hp & Hn & _); injection Hp as <-; congruence].
      unfold Effect_bind, defined. destruct (defineConfig empty_input); cbn; discriminate.
    + destruct (existsSync P (fs w) q) eqn:Hex; cbn [negb].
      * split.
        -- destruct (importModule (fs w) _) as [t|md]; [cbn; discriminate|].
           destruct (_ || _); [cbn; discriminate|].
           unfold Effect_bind, defined. destruct (defineConfig_unknown _); cbn; discriminate.
        -- intros (Hp & _ & Hf & _). injection Hp as <-. congruence.
      * cbn [Effect_fail fst]. split.
        -- intros H. injection H as <- <-. auto.
        -- intros (Hp & _ & _ & ->). injection Hp as <-. reflexivity.
  - split; [|intros (Hp & _); discriminate].
    destruct (findConfigFile P (fs w) cwd) as [q|] eqn:Hf.
    + cbn [truthy_string default from_option id]. destruct (negb (negb (String.eqb q ""))).
      * unfold Effect_bind, defined. destruct (defineConfig empty_input); cbn; discriminate.
      * rewrite (Hfound q eq_refl). cbn [negb].
        destruct (importModule (fs w) _) as [t|md]; [cbn; discriminate|].
        destruct (_ || _); [cbn; discriminate|].
        unfold Effect_bind, defined. destruct (defineConfig_unknown _); cbn; discriminate.
    + cbn [truthy_string negb]. unfold Effect_bind, defined.
      destruct (defineConfig empty_input); cbn; discriminate.
Qed.

(** What [load] does with a configuration file: one that was asked for
    and exists, or one that [findConfigFile] found. *)
Lemma load_of_file (options : LoadConfigOptions) (w : World P) (p : string) :
  (load_configPath options = Some p /\ existsSync P (fs w) p = true)
  \/ (load_configPath options = None
      /\ findConfigFile P (fs w) (default (process_cwd w) (load_cwd options)) = Some p) ->
  p <> "" ->
  load P importModule options w
  = match importModule (fs w)
            (path_resolve P (default (process_cwd w) (load_cwd options)) p) with
    | Left error => (Failure (ConfigLoadFailed p (cause_of_thrown error)), w)
    | Right configModule =>
        if negb (truthy (get configModule "default"))
           || negb (match get configModule "default" with
                    | VObj _ | VArr _ => true
                    | _ => false
                    end)
        then (Failure (ConfigInvalid p
                         ["Config file must export a default configuration object"]), w)
        else
          Effect_bind P (defined P (defineConfig_unknown (get configModule "default")))
            (fun config =>
               Effect_succeed P {| loaded_config := config;
                                   loaded_configPath := Some p;
                                   loaded_usingDefaults := false |}) w
    end.
Proof.
  intros Hpath Hne.
  assert (Hex : existsSync P (fs w) p = true).
  { destruct Hpath as [[_ Hex]|[_ Hf]]; [exact Hex|].
    pose proof (findConfigFile_in_spec (fs w) (default (process_cwd w) (load_cwd options))
                  CONFIG_FILENAMES) as Hs.
    fold (findConfigFile P (fs w) (default (process_cwd w) (load_cwd options))) in Hs.
    rewrite Hf in Hs. destruct Hs as (_ & _ & _ & _ & _ & Hex & _). exact Hex. }
  unfold load.
  replace (match load_configPath options with
           | Some p0 => Some p0
           | None => findConfigFile P (fs w) (default (process_cwd w) (load_cwd options))
           end) with (Some p)
    by (destruct Hpath as [[-> _]|[-> ->]]; reflexivity).
  cbn [truthy_string].
  destruct (String.eqb_spec p "") as [->|_]; [congruence|].
  cbn [negb default from_option id]. rewrite Hex. cbn [negb].
  destruct (importModule (fs w) _) as [error|configModule]; reflexivity.
Qed.

(** X18: a configuration file that exists and loads (one that was asked
    for by its path, or one that [findConfigFile] found), and whose
    default export is an input object, or the configuration that
    [defineConfig] made of one, loads as that input resolved with the
    defaults; the result names the path and is not marked
    [usingDefaults], and the world is left as it was. *)
Theorem load_typed_export (options : LoadConfigOptions) (w : World P) (p : string)
    (configModule : value) (i : ConfigInput) (c : Config) :
  (load_configPath options = Some p /\ existsSync P (fs w) p = true)
  \/ (load_configPath options = None
      /\ findConfigFile P (fs w) (default (process_cwd w) (load_cwd options)) = Some p) ->
  p <> "" ->
  importModule (fs w) (path_resolve P (default (process_cwd w) (load_cwd options)) p)
  = Right configModule ->
  defineConfig i = Right c ->
  get configModule "default" = ConfigInput_value i
  \/ get configModule "default" = ConfigInput_value (as_input c) ->
  load P importModule options w
  = (Success {| loaded_config := c; loaded_configPath := Some p;
                loaded_usingDefaults := false |}, w).
Proof.
  intros Hpath Hne Him Hc Hd. rewrite (load_of_file options w p Hpath Hne), Him.
  destruct Hd as [-> | ->]; cbn [truthy ConfigInput_value negb orb];
    rewrite defineConfig_of_value; [rewrite Hc|rewrite defineConfig_as_input]; reflexivity.
Qed.

(** X19: of a configuration file that exists and loads (one that was asked
    for by its path, or one that [findConfigFile] found), a default
    export that is neither an object nor an array fails with
    [ConfigInvalid]; but an object that [defineConfig] rejects is not
    reported as [ConfigInvalid]: the parse error it throws ends [load] as
    a defect; and so does an array, whose [entries] is a method. *)
Theorem load_bad_export (options : LoadConfigOptions) (w : World P) (p : string)
    (configModule : value) :
  (load_configPath options = Some p /\ existsSync P (fs w) p = true)
  \/ (load_configPath options = None
      /\ findConfigFile P (fs w) (default (process_cwd w) (load_cwd options)) = Some p) ->
  p <> "" ->
  importModule (fs w) (path_resolve P (default (process_cwd w) (load_cwd options)) p)
  = Right configModule ->
  ((forall o, get configModule "default" <> VObj o) ->
   (forall l, get configModule "default" <> VArr l) ->
   load P importModule options w
   = (Failure (ConfigInvalid p ["Config file must export a default configuration object"]),
      w))
  /\ (forall o e,
        get configModule "default" = VObj o ->
        defineConfig_unknown (VObj o) = Left e ->
        load P importModule options w = (Die (ThrownError (formatErrorSync P e)), w))
  /\ (forall l,
        get configModule "default" = VArr l ->
        load P importModule options w
        = (Die (ThrownError
                  (formatErrorSync P
                     [ {| issue_path := [Key "entries"];
                          issue_kind := Mismatch "object" (VFun "entries") |} ])), w)).
Proof.
  intros Hpath Hne Him. rewrite (load_of_file options w p Hpath Hne), Him.
  split; [|split].
  - intros Ho Ha.
    destruct (get configModule "default") as [| |b|n|s|l|o|f]; cbn [truthy negb orb];
      try reflexivity.
    + destruct b; reflexivity.
    + rewrite orb_true_r. reflexivity.
    + rewrite orb_true_r. reflexivity.
    + destruct (Ha l eq_refl).
    + destruct (Ho o eq_refl).
  - intros o e -> He. cbn [truthy negb orb]. rewrite He. reflexivity.
  - intros l ->. reflexivity.
Qed.

(** ** The facade *)

Lemma loadConfig_cases (this : GitHubAction) (w : World P) :
  (exists c, loadConfig P importModule this w = (Fulfilled c, with_config this c, w)
             /\ this_config this = None)
  \/ (exists c, loadConfig P importModule this w = (Fulfilled c, this, w)
                /\ this_config this = Some c)
  \/ (exists reason, loadConfig P importModule this w = (Rejected reason, this, w)
                     /\ this_config this = None).
Proof.
  unfold loadConfig. destruct (this_config this) as [c|]; [right; left; eauto|].
  set (program := match this_configSource this with
                  | Some (FromPath s) => _ | Some (FromObject s) => _ | None => _ end).
  assert (Hw : snd (program w) = w).
  { subst program. destruct (this_configSource this) as [[i|s]|].
    - unfold defined. destruct (defineConfig i); reflexivity.
    - unfold Effect_bind. pose proof (load_world {| load_cwd := Some (this_cwd this);
                                                    load_configPath := Some s |} w) as H.
      destruct (load P importModule _ w) as [[r|e|d] w']; exact H.
    - unfold Effect_bind. pose proof (load_world {| load_cwd := Some (this_cwd this);
                                                    load_configPath := None |} w) as H.
      destruct (load P importModule _ w) as [[r|e|d] w']; exact H. }
  unfold runPromise. destruct (program w) as [[c|e|d] w']; cbn [snd] in Hw; subst w';
    [left|right; right|right; right]; eauto.
Qed.

(** X20: [loadConfig] loads once: when it is fulfilled the world is as it
    was, the object holds the configuration, and every later call on that
    object is fulfilled with the same configuration in any world,
    whatever has become of the file. *)
Theorem config_is_loaded_once (this this' : GitHubAction) (w w' : World P) (c : Config) :
  loadConfig P importModule this w = (Fulfilled c, this', w') ->
  w' = w
  /\ this_config this' = Some c
  /\ forall w2, loadConfig P importModule this' w2 = (Fulfilled c, this', w2).
Proof.
  intros H.
  destruct (loadConfig_cases this w) as [(c0 & E & _)|[(c0 & E & Hc)|(r & E & _)]];
    rewrite E in H; try discriminate; injection H as <- <- <-.
  - split; [reflexivity|]. split; [reflexivity|]. intros w2. reflexivity.
  - split; [reflexivity|]. split; [exact Hc|]. intros w2. unfold loadConfig.
    rewrite Hc. reflexivity.
Qed.

End LoadProperties.

Section FacadeProperties.
Context (P : Platform).
Context (importModule : FS P -> string -> Either thrown value).
Context (rejection_message : Rejection -> string).

Lemma validate_exit (config : Config) (options : ValidateOptions) (w : World P) :
  snd (validate P config options w) = w
  /\ ((exists r, fst (validate P config options w) = Success r)
      \/ (exists n, fst (validate P config options w)
                    = Failure (ValidationFailed 0 (S n)
                                 "Warnings treated as errors in strict mode"))).
Proof.
  destruct (checkActionYml_total P config (default (process_cwd w) (validate_cwd options)) w)
    as (ye & yw & Hy).
  rewrite (validate_verdict P config options w _ ye yw (checkEntries_spec P _ _ _) Hy).
  split; [reflexivity|]. cbn [fst].
  destruct (strictOf P config options w), yw as [|y yw]; cbn [length Nat.ltb andb];
    try (left; eexists; reflexivity).
  destruct (Nat.eqb _ 0); [right; exists (length yw)|left; eexists]; reflexivity.
Qed.

Lemma loadConfig_loaded (this this' : GitHubAction) (w w' : World P) (c : Config) :
  loadConfig P importModule this w = (Fulfilled c, this', w') ->
  w' = w
  /\ this_config this' = Some c
  /\ this_cwd this' = this_cwd this
  /\ this_skipValidation this' = this_skipValidation this
  /\ this_clean this' = this_clean this
  /\ forall w2, loadConfig P importModule this' w2 = (Fulfilled c, this', w2).
Proof.
  intros H.
  destruct (loadConfig_cases P importModule this w)
    as [(c0 & E & _)|[(c0 & E & Hc)|(r & E & _)]];
    rewrite E in H; try discriminate; injection H as <- <- <-.
  - repeat (split; [reflexivity|]). intros w2. reflexivity.
  - split; [reflexivity|]. split; [exact Hc|]. repeat (split; [reflexivity|]).
    intros w2. unfold loadConfig. rewrite Hc. reflexivity.
Qed.

Lemma facade_build_unfold (this this1 : GitHubAction) (config : Config) (w w1 : World P) :
  loadConfig P importModule this w = (Fulfilled config, this1, w1) ->
  facade_build P importModule rejection_message this w
  = if this_skipValidation this
    then (fst (build_step P rejection_message this config None w), this1, snd (build_step P rejection_message this config None w))
    else
      match fst (validate P config {| validate_cwd := Some (this_cwd this);
                                      validate_strict := None |} w) with
      | Success v =>
          if valid v
          then (fst (build_step P rejection_message this config (Some v) w), this1,
                snd (build_step P rejection_message this config (Some v) w))
          else ({| outcome_success := false; outcome_build := None;
                   outcome_validation := Some v;
                   outcome_error := Some "Validation failed" |}, this1, w)
      | Failure e =>
          ({| outcome_success := false; outcome_build := None; outcome_validation := None;
              outcome_error := Some (rejection_message (RejectTagged e)) |}, this1, w)
      | Die d =>
          ({| outcome_success := false; outcome_build := None; outcome_validation := None;
              outcome_error := Some (rejection_message (RejectDefect d)) |}, this1, w)
      end.
Proof.
  intros H. unfold facade_build. rewrite H.
  destruct (loadConfig_loaded _ _ _ _ _ H) as (-> & _ & Hcwd & _ & _ & Hagain).
  assert (Hb : forall v w0,
    match runPromise P RejectTagged
            (build P config {| run_cwd := Some (this_cwd this);
                               run_clean := Some (this_clean this) |}) w0 with
    | (Rejected reason, w3) =>
        ({| outcome_success := false; outcome_build := None; outcome_validation := None;
            outcome_error := Some (rejection_message reason) |}, this1, w3)
    | (Fulfilled buildResult, w3) =>
        if negb (result_success buildResult) then
          ({| outcome_success := false; outcome_build := Some buildResult;
              outcome_validation := v;
              outcome_error := Some (default "Build failed" (result_error buildResult)) |},
           this1, w3)
        else
          ({| outcome_success := true; outcome_build := Some buildResult;
              outcome_validation := v; outcome_error := None |}, this1, w3)
    end = (fst (build_step P rejection_message this config v w0), this1, snd (build_step P rejection_message this config v w0))).
  { intros v w0. unfold build_step, runPromise.
    destruct (build P config _ w0) as [[b|e|d] w3]; try reflexivity.
    destruct (result_success b); reflexivity. }
  destruct (this_skipValidation this); cbn [negb].
  - apply Hb.
  - unfold facade_validate. rewrite Hagain. rewrite Hcwd. cbn [validate_cwd validate_strict default from_option id].
    pose proof (validate_exit config {| validate_cwd := Some (this_cwd this);
                                        validate_strict := None |} w) as [Hw _].
    unfold runPromise.
    destruct (validate P config _ w) as [[v|e|d] w2]; cbn [snd fst] in *; subst w2;
      try reflexivity.
    destruct (valid v); cbn [negb]; [apply Hb|reflexivity].
Qed.

(** X21: the [build] of the facade stops at a validation result that is
    not valid: the outcome is a failure that carries the validation
    result, no build result and the error "Validation failed", and the
    world is as it was, so nothing was cleaned, bundled or written. *)
Theorem invalid_project_is_not_built (this this1 : GitHubAction) (config : Config)
    (w w1 : World P) (v : ValidationResult) :
  this_skipValidation this = false ->
  loadConfig P importModule this w = (Fulfilled config, this1, w1) ->
  fst (validate P config {| validate_cwd := Some (this_cwd this);
                            validate_strict := None |} w) = Success v ->
  valid v = false ->
  facade_build P importModule rejection_message this w
  = ({| outcome_success := false; outcome_build := None; outcome_validation := Some v;
        outcome_error := Some "Validation failed" |}, this1, w).
Proof.
  intros Hs Hl Hv Hf. rewrite (facade_build_unfold _ _ _ _ _ Hl), Hs, Hv, Hf. reflexivity.
Qed.

(** X22: when validation fails in strict mode (which it does only with
    [ValidationFailed], for warnings alone), the outcome of the facade's
    [build] carries no validation result and no build result, only the
    message of the rejection; the world is as it was. *)
Theorem strict_failure_carries_no_validation (this this1 : GitHubAction) (config : Config)
    (w w1 : World P) (e : TaggedError) :
  this_skipValidation this = false ->
  loadConfig P importModule this w = (Fulfilled config, this1, w1) ->
  fst (validate P config {| validate_cwd := Some (this_cwd this);
                            validate_strict := None |} w) = Failure e ->
  (exists n, e = ValidationFailed 0 (S n) "Warnings treated as errors in strict mode")
  /\ facade_build P importModule rejection_message this w
     = ({| outcome_success := false; outcome_build := None; outcome_validation := None;
           outcome_error := Some (rejection_message (RejectTagged e)) |}, this1, w).
Proof.
  intros Hs Hl He. split.
  - destruct (validate_exit config {| validate_cwd := Some (this_cwd this);
                                      validate_strict := None |} w)
      as [_ [(r & Hr)|(n & Hn)]]; rewrite He in *; [discriminate|].
    injection Hn as ->. eauto.
  - rewrite (facade_build_unfold _ _ _ _ _ Hl), Hs, He. reflexivity.
Qed.

(** X23: every outcome of the facade's [build]: a success has no error, has
    a build result that succeeded, all of whose entries succeeded, and,
    unless validation is skipped, a validation result that is valid and
    has no error; a failure has an error message; and with
    [skipValidation] there is never a validation result. *)
Theorem facade_build_outcome (this : GitHubAction) (w : World P) :
  let o := fst (fst (facade_build P importModule rejection_message this w)) in
  (outcome_success o = true ->
   outcome_error o = None
   /\ (exists b, outcome_build o = Some b /\ result_success b = true
                 /\ Forall (fun e => bundle_success e = true) (result_entries b))
   /\ (this_skipValidation this = false ->
       exists v, outcome_validation o = Some v /\ valid v = true /\ errors v = []))
  /\ (outcome_success o = false -> exists message, outcome_error o = Some message)
  /\ (this_skipValidation this = true -> outcome_validation o = None).
Proof.
  cbv zeta.
  assert (Hstep : forall config v,
            let o := fst (build_step P rejection_message this config v w) in
            (outcome_success o = true ->
             outcome_error o = None
             /\ (exists b, outcome_build o = Some b /\ result_success b = true
                           /\ Forall (fun e => bundle_success e = true) (result_entries b))
             /\ outcome_validation o = v)
            /\ (outcome_success o = false -> exists message, outcome_error o = Some message)
            /\ (v = None -> outcome_validation o = None)).
  { intros config v. cbv zeta. unfold build_step.
    destruct (build P config _ w) as [[b|e|d] w'] eqn:Eb; cbn.
    - split; [|split].
      + intros Hb. rewrite Hb. split; [reflexivity|]. split; [|reflexivity].
        exists b. split; [reflexivity|]. split; [exact Hb|].
        pose proof (build_result_entries P config _ w b (f_equal fst Eb)) as [Hall _].
        rewrite Hb in Hall. symmetry in Hall.
        apply List.Forall_forall. exact (proj1 (forallb_forall _ _) Hall).
      + intros Hb. rewrite Hb. eauto.
      + auto.
    - split; [discriminate|]. split; [eauto|auto].
    - split; [discriminate|]. split; [eauto|auto]. }
  destruct (loadConfig_cases P importModule this w)
    as [(c & E & _)|[(c & E & _)|(r & E & _)]].
  3: { unfold facade_build. rewrite E. cbn. split; [discriminate|]. split; [eauto|].
       reflexivity. }
  all: rewrite (facade_build_unfold _ _ _ _ _ E).
  all: destruct (this_skipValidation this) eqn:Hs; cbn [fst].
  all: try (destruct (Hstep c None) as (H1 & H2 & H3); split; [|split; [exact H2|auto]];
            intros Hy; destruct (H1 Hy) as (Ha & Hb & _); split; [exact Ha|];
            split; [exact Hb|discriminate]).
  all: destruct (validate P c _ w) as [[v|e|d] w2] eqn:Ev; cbn [fst];
       try (cbn; split; [discriminate|]; split; [eauto|discriminate]).
  all: destruct (valid v) eqn:Hv; cbn [fst];
       try (cbn; split; [discriminate|]; split; [eauto|discriminate]).
  all: destruct (Hstep c (Some v)) as (H1 & H2 & _); split; [|split; [exact H2|discriminate]];
       intros Hy; destruct (H1 Hy) as (Ha & Hb & Hc); split; [exact Ha|];
       split; [exact Hb|]; intros _; exists v; split; [exact Hc|]; split; [exact Hv|];
       apply (validate_result_valid P c _ w v (f_equal fst Ev)); exact Hv.
Qed.

End FacadeProperties.

Section CommandProperties.
Context (P : Platform).
Context (importModule : FS P -> string -> Either thrown value).

Lemma load_pair (options : LoadConfigOptions) (w : World P) :
  load P importModule options w = (fst (load P importModule options w), w).
Proof.
  rewrite <- (load_world P importModule options w) at 3. apply surjective_pairing.
Qed.

Lemma validate_pair (config : Config) (options : ValidateOptions) (w : World P) :
  validate P config options w = (fst (validate P config options w), w).
Proof.
  rewrite <- (proj1 (validate_exit P config options w)) at 3. apply surjective_pairing.
Qed.

Ltac run_handler :=
  unfold buildHandler, validateHandler, Handler_bind, service, when, say,
    Handler_succeed, Handler_fail;
  cbn [fst snd negb andb app].

(** X24: the build command run with [quiet] writes nothing with
    [Console.log]: it writes at most one line, with [Console.error], and
    nothing at all when it succeeds. *)
Theorem quiet_build_prints_only_errors (config : option string) (noValidate : bool)
    (w : World P) :
  let r := buildHandler P importModule config true noValidate (w, []) in
  Forall (fun l => is_error_line l = true) (snd (snd r))
  /\ length (snd (snd r)) <= 1
  /\ (fst r = Success tt -> snd (snd r) = []).
Proof.
  run_handler.
  destruct (load P importModule _ w) as [[cr|e|d] w1]; cbn [fst snd];
    try (split; [constructor|split; [cbn; lia|discriminate]]).
  destruct noValidate; cbn [negb fst snd].
  - destruct (build P (loaded_config cr) _ w1) as [[b|e|d] w2]; cbn [fst snd];
      try (split; [constructor|split; [cbn; lia|discriminate]]).
    destruct (result_success b); cbn [negb fst snd app].
    + split; [constructor|split; [cbn; lia|reflexivity]].
    + split; [repeat constructor|split; [cbn; lia|discriminate]].
  - destruct (validate P (loaded_config cr) _ w1) as [[v|e|d] w2]; cbn [fst snd];
      try (split; [constructor|split; [cbn; lia|discriminate]]).
    destruct (valid v); cbn [negb fst snd app].
    + destruct (build P (loaded_config cr) _ w2) as [[b|e|d] w3]; cbn [fst snd];
        try (split; [constructor|split; [cbn; lia|discriminate]]).
      destruct (result_success b); cbn [negb fst snd app].
      * split; [constructor|split; [cbn; lia|reflexivity]].
      * split; [repeat constructor|split; [cbn; lia|discriminate]].
    + split; [repeat constructor|split; [cbn; lia|discriminate]].
Qed.

(** X25: when the configuration loads and validation returns a result, the
    validate command prints the formatted result with [Console.log],
    also with [quiet], where it is the only line; it succeeds when the
    result is valid and fails with the error "Validation failed" when it
    is not; the world is left as it was. *)
Theorem validate_command_always_reports (config : option string) (quiet : bool)
    (w : World P) (cr : LoadConfigResult) (v : ValidationResult) :
  fst (load P importModule {| load_cwd := Some (process_cwd w); load_configPath := config |} w)
  = Success cr ->
  fst (validate P (loaded_config cr)
         {| validate_cwd := Some (process_cwd w); validate_strict := None |} w) = Success v ->
  let r := validateHandler P importModule config quiet (w, []) in
  fst r = (if valid v then Success tt else Failure (JsError "Validation failed"))
  /\ In (Console_log (newline +:+ formatResult v)) (snd (snd r))
  /\ (quiet = true -> snd (snd r) = [Console_log (newline +:+ formatResult v)])
  /\ fst (snd r) = w.
Proof.
  intros Hl Hv.
  destruct quiet; run_handler; rewrite load_pair, Hl; cbn [fst snd];
    destruct (loaded_usingDefaults cr); cbn [fst snd app];
    rewrite validate_pair, Hv; cbn [fst snd];
    destruct (valid v); cbn [negb fst snd app];
    (split; [reflexivity|]); (split; [cbn; tauto|]);
    (split; [first [reflexivity|discriminate]|reflexivity]).
Qed.

(** X26: when validation fails in the build command (the strict mode
    failure), the command fails with that failure and the report is not
    printed: the console holds the three progress lines, or nothing with
    [quiet], and the world is as it was. *)
Theorem build_command_hides_strict_warnings (config : option string) (quiet : bool)
    (w : World P) (cr : LoadConfigResult) (e : TaggedError) :
  fst (load P importModule {| load_cwd := Some (process_cwd w); load_configPath := config |} w)
  = Success cr ->
  fst (validate P (loaded_config cr)
         {| validate_cwd := Some (process_cwd w); validate_strict := None |} w) = Failure e ->
  buildHandler P importModule config quiet false (w, [])
  = (Failure (OfService e),
     (w, if quiet then []
         else [ Console_log "Loading configuration...";
                (if loaded_usingDefaults cr
                 then Console_log "  Using default configuration"
                 else Console_log ("  Found "
                                   +:+ default "undefined" (loaded_configPath cr)));
                Console_log (newline +:+ "Validating...") ])).
Proof.
  intros Hl Hv.
  destruct quiet; run_handler; rewrite load_pair, Hl; cbn [fst snd];
    destruct (loaded_usingDefaults cr); cbn [negb fst snd app];
    rewrite validate_pair, Hv; reflexivity.
Qed.

Ltac settle_iff :=
  split;
  [ intros H;
    first [ discriminate H
          | eexists _, _; split; [reflexivity|];
            split;
            [ intros Hn; first [discriminate Hn | eexists; split; [eassumption|assumption]]
            | split; [eassumption|assumption] ] ]
  | intros (cr' & b' & Hcr & Hval & Hb' & Hs');
    first [ reflexivity
          | discriminate Hcr
          | injection Hcr as <-;
            first [ destruct (Hval eq_refl) as (v' & Hv' & Hv'');
                    first [congruence | discriminate Hv']
                  | congruence ] ] ].

(** X27: the build command succeeds exactly when the configuration loads,
    validation (unless switched off with [noValidate]) returns a valid
    result, and [build], called with the default [clean], returns a
    result that succeeded. *)
Theorem build_command_succeeds_iff (config : option string) (quiet noValidate : bool)
    (w : World P) :
  fst (buildHandler P importModule config quiet noValidate (w, [])) = Success tt
  <-> exists cr b,
        fst (load P importModule
               {| load_cwd := Some (process_cwd w); load_configPath := config |} w)
        = Success cr
        /\ (noValidate = false ->
            exists v, fst (validate P (loaded_config cr)
                             {| validate_cwd := Some (process_cwd w);
                                validate_strict := None |} w) = Success v
                      /\ valid v = true)
        /\ fst (build P (loaded_config cr)
                  {| run_cwd := Some (process_cwd w); run_clean := None |} w) = Success b
        /\ result_success b = true.
Proof.
  destruct quiet, noValidate; run_handler; rewrite load_pair;
    (destruct (fst (load P importModule _ w)) as [cr|e|d]; cbn [fst snd];
     [|settle_iff|settle_iff]).
  all: try match goal with
           | |- context [loaded_usingDefaults ?c] => destruct (loaded_usingDefaults c)
           end; cbn [fst snd app].
  all: try (rewrite validate_pair;
            match goal with
            | |- context [fst (validate ?p ?c ?o ?w0)] =>
                destruct (fst (validate p c o w0)) as [v|e|d] eqn:Ev
            end; cbn [fst snd]; [|settle_iff|settle_iff];
            match goal with
            | |- context [valid ?v] => destruct (valid v) eqn:Hvalid
            end; cbn [negb andb fst snd app]; [|settle_iff];
            try match goal with
                | |- context [Nat.ltb 0 ?n] => destruct (Nat.ltb 0 n)
                end; cbn [fst snd app]).
  all: rewrite (surjective_pairing (build P (loaded_config cr) _ w));
       match goal with
       | |- context [fst (build ?p ?c ?o ?w0)] =>
           destruct (fst (build p c o w0)) as [b|e|d] eqn:Eb
       end; cbn [fst snd]; [|settle_iff|settle_iff];
       match goal with
       | |- context [result_success ?b] => destruct (result_success b) eqn:Hb
       end; cbn [negb fst snd app]; settle_iff.
Qed.

End CommandProperties.

Section FailedBuildProperties.
Context (P : Platform).
Context (importModule : FS P -> string -> Either thrown value).

(** X28: when the build command gets from [build] a result that did not
    succeed, it fails with the error "Build failed" and the one line it
    writes with [Console.error], its last line, is "Build failed: One or
    more entries failed to build": the entries that failed and their
    causes are not printed. *)
Theorem build_command_names_no_entry (config : option string) (quiet noValidate : bool)
    (w : World P) (cr : LoadConfigResult) (b : BuildResult) :
  fst (load P importModule {| load_cwd := Some (process_cwd w); load_configPath := config |} w)
  = Success cr ->
  (noValidate = false ->
   exists v, fst (validate P (loaded_config cr)
                    {| validate_cwd := Some (process_cwd w); validate_strict := None |} w)
             = Success v /\ valid v = true) ->
  fst (build P (loaded_config cr)
         {| run_cwd := Some (process_cwd w); run_clean := None |} w) = Success b ->
  result_success b = false ->
  let r := buildHandler P importModule config quiet noValidate (w, []) in
  fst r = Failure (JsError "Build failed")
  /\ List.filter is_error_line (snd (snd r))
     = [Console_error (newline +:+ "Build failed: One or more entries failed to build")]
  /\ last (snd (snd r))
     = Some (Console_error
               (newline +:+ "Build failed: One or more entries failed to build")).
Proof.
  intros Hl Hv Hb Hs.
  assert (He : result_error b = Some "One or more entries failed to build").
  { destruct (build_cases P (loaded_config cr)
                {| run_cwd := Some (process_cwd w); run_clean := None |} w)
      as [(_ & E)|(_ & detected & _ & E)].
    - rewrite E in Hb. discriminate Hb.
    - destruct E as [(c & w' & E & _)|(rs & w' & _ & _ & [(c & E)|(d & E)])];
        rewrite E in Hb; try discriminate Hb.
      injection Hb as <-. cbn in Hs |- *. rewrite Hs. reflexivity. }
  destruct quiet, noValidate;
    unfold buildHandler, validateHandler, Handler_bind, service, when, say,
      Handler_succeed, Handler_fail;
    cbn [fst snd negb andb app];
    rewrite (load_pair P importModule), Hl; cbn [fst snd];
    try (destruct (loaded_usingDefaults cr); cbn [fst snd app]);
    try (destruct (Hv eq_refl) as (v & Hv1 & Hv2);
         rewrite (validate_pair P), Hv1; cbn [fst snd]; rewrite Hv2;
         cbn [negb andb fst snd app];
         try (destruct (Nat.ltb 0 (length (warnings v))); cbn [fst snd app]));
    rewrite (surjective_pairing (build P (loaded_config cr) _ w)), Hb; cbn [fst snd];
    rewrite Hs, He; cbn [negb fst snd app default from_option id];
    repeat split; reflexivity.
Qed.

End FailedBuildProperties.

(* ===================================================================== *)
(** * Further sample runs *)
(* ===================================================================== *)

(** Detection with the primary entry alone has the shape of every
    detection. *)
Lemma main_alone_has_the_shape :
  exists r,
    fst (detectEntries Sample.platform "/work" None Sample.ci_without_manifest) = Success r
    /\ detect_success r = true
    /\ 1 <= length (detect_entries r) <= 3.
Proof.
  assert (H : fst (detectEntries Sample.platform "/work" None Sample.ci_without_manifest)
              = Success {| detect_success := true;
                           detect_entries := [ {| entry_type := main;
                                                  entry_path := "/work/src/main.ts";
                                                  entry_output := "dist/main.js" |} ] |})
    by (vm_compute; reflexivity).
  eexists. split; [exact H|].
  destruct (detected_entries_shape Sample.platform _ _ _ _ H) as (Hs & _ & Hl & _).
  split; assumption.
Defined.

(** The terse manifest passes the schema and is warned about the one
    input that has an empty description. *)
Lemma terse_manifest_is_warned_once :
  map message (List.filter (has_code "ACTION_YML_INPUT_NO_DESCRIPTION")
                 (checkRecommendations Cases.terse_manifest None))
  = ["Input 'token' has no description"].
Proof.
  assert (E : exists c, decodeUnknownEither ActionYmlSchema Cases.terse_manifest = Right c)
    by (vm_compute; eexists; reflexivity).
  destruct E as [c E].
  destruct (undescribed_means_empty_description Cases.terse_manifest c None E)
    as (_ & Hi & _).
  rewrite Hi. reflexivity.
Defined.

(** A manifest that is a sequence is a schema error. *)
Lemma sequence_is_a_schema_error :
  exists errs,
    validateActionYml Cases.platform "/work/action.yml" Cases.sequence_project
    = (Failure (ActionYmlSchemaError "/work/action.yml" errs), Cases.sequence_project).
Proof.
  destruct (top_level_of_manifest Cases.platform "/work/action.yml" "a sequence"
              (VArr [ VStr "name"; VStr "runs" ]) Cases.sequence_project)
    as (e & He & errs & ->);
    [vm_compute; reflexivity | vm_compute; reflexivity | vm_compute; reflexivity
    | discriminate |].
  exists errs. exact He.
Defined.

(** Off CI and without a manifest the report opens with the warnings. *)
Lemma lenient_report_opens_with_warnings :
  hd_error (formatResult_lines Cases.lenient_result) = Some "Warnings:".
Proof.
  assert (H : fst (validate Sample.platform Sample.config Sample.no_options
                     Cases.lenient_project) = Success Cases.lenient_result)
    by (vm_compute; reflexivity).
  exact (proj1 (validation_report_opens_with_a_heading Sample.platform _ _ _ _ H)).
Defined.

(** One byte below a megabyte. *)
Lemma just_under_a_megabyte : formatBytes 1048575 = "1024.0 KB".
Proof.
  apply (proj2 (formatBytes_kilobytes 1048575 ltac:(lia))). lia.
Defined.

(** The build of which one entry fails is reported in two lines. *)
Lemma one_failed_entry_one_line :
  exists r,
    fst (build Sample.platform Sample.config Sample.clean_build Sample.three_entries)
    = Success r
    /\ length (formatBuildResult_lines r) = 2.
Proof.
  assert (E : exists r,
            fst (build Sample.platform Sample.config Sample.clean_build
                   Sample.three_entries) = Success r
            /\ result_success r = false
            /\ length (failed_entries (result_entries r)) = 1)
    by (eexists; split; [vm_compute; reflexivity|split; reflexivity]).
  destruct E as (r & E & Hf & Hn).
  destruct (build_report_lists_every_entry Sample.platform _ _ _ r E) as [_ H].
  destruct (H Hf) as (Hlen & _).
  exists r. split; [exact E|]. rewrite Hlen, Hn. reflexivity.
Defined.

(** A build that does not clean keeps a file it does not write. *)
Lemma unclean_build_keeps_the_notes :
  is_Some ((fs (snd (build Sample.platform Sample.config Cases.keep_build
                       Cases.notes_project)) : gmap string string) !! "/work/NOTES.md").
Proof.
  apply (build_touches_files_by_three_calls Sample.platform
           (fun f : gmap string string => is_Some (f !! "/work/NOTES.md"))).
  - intros f d H. exact H.
  - intros f p c H. cbn. apply lookup_insert_is_Some'. right. exact H.
  - discriminate.
  - exists "notes". vm_compute. reflexivity.
Defined.

Lemma written_file_reads_back (locked : list string) (f : gmap string string)
    (p c : string) (f' : gmap string string) :
  Mem.write locked f p c = (Right tt, f') -> Mem.read f' p = Right c.
Proof.
  unfold Mem.write, Mem.read. destruct (Mem.is_locked locked p); [discriminate|].
  intros H. injection H as <-. rewrite lookup_insert_eq. reflexivity.
Qed.

(** The build of which one entry fails still marks dist as a module. *)
Lemma failed_build_still_marks_dist :
  Mem.read (fs (snd (build Sample.platform Sample.config Sample.clean_build
                       Sample.three_entries)))
    "/work/dist/package.json"
  = Right module_marker.
Proof.
  assert (E : exists r,
            fst (build Sample.platform Sample.config Sample.clean_build
                   Sample.three_entries) = Success r)
    by (eexists; vm_compute; reflexivity).
  destruct E as [r E].
  exact (build_marks_dist_as_module Sample.platform Sample.config Sample.clean_build
           Sample.three_entries r (written_file_reads_back []) E).
Defined.

(** The entry the bundler rejects. *)
Lemma rejected_pre_entry_fails :
  fst (bundleEntry Sample.platform Cases.pre_entry Sample.config "/work" Sample.three_entries)
  = Failure (BundleFailed "/work/src/pre.ts" "Module build failed").
Proof.
  refine (proj1 (rejected_entry_writes_nothing Sample.platform Cases.pre_entry Sample.config
                   "/work" Sample.three_entries (ThrownError "Module build failed") _)).
  vm_compute. reflexivity.
Defined.

(** A configuration file that is found in the directory and switches
    minification off. *)
Lemma config_file_switches_minify_off :
  load Sample.platform Cases.importModule Cases.in_work (Cases.configured "minify off")
  = (Success {| loaded_config := Cases.unminified;
                loaded_configPath := Some "/work/action.config.ts";
                loaded_usingDefaults := false |},
     Cases.configured "minify off").
Proof.
  apply (load_typed_export Sample.platform Cases.importModule Cases.in_work
           (Cases.configured "minify off") "/work/action.config.ts"
           (VObj [ ("default", VObj [ ("build", VObj [ ("minify", VBool false) ]) ]) ])
           {| input_entries := None;
              input_build := Some {| input_minify := Some false; input_target := None;
                                     input_sourceMap := None; input_externals := None;
                                     input_quiet := None |};
              input_validation := None |});
    [right; split; [reflexivity | vm_compute; reflexivity] | discriminate
    | vm_compute; reflexivity | reflexivity | left; reflexivity].
Defined.

(** A configuration file that is found in the directory and exports a
    text. *)
Lemma text_export_is_invalid :
  load Sample.platform Cases.importModule Cases.in_work (Cases.configured "a text")
  = (Failure (ConfigInvalid "/work/action.config.ts"
                ["Config file must export a default configuration object"]),
     Cases.configured "a text").
Proof.
  apply (proj1 (load_bad_export Sample.platform Cases.importModule Cases.in_work
                  (Cases.configured "a text") "/work/action.config.ts"
                  (VObj [ ("default", VStr "none") ])
                  ltac:(right; split; [reflexivity | vm_compute; reflexivity])
                  ltac:(discriminate) ltac:(vm_compute; reflexivity)));
    intros x; discriminate.
Defined.

Lemma action_loads_defaults (w : World Sample.platform) :
  existsSync Sample.platform (fs w)
    (path_resolve Sample.platform "/work" "action.config.ts") = false ->
  existsSync Sample.platform (fs w)
    (path_resolve Sample.platform "/work" "action.config.js") = false ->
  existsSync Sample.platform (fs w)
    (path_resolve Sample.platform "/work" "action.config.mjs") = false ->
  loadConfig Sample.platform Cases.importModule Cases.action w
  = (Fulfilled Sample.config, with_config Cases.action Sample.config, w).
Proof.
  intros H1 H2 H3.
  unfold loadConfig. cbn [Cases.action create this_config this_configSource option_config
                          this_cwd option_cwd default from_option id].
  unfold runPromise, Effect_bind, load, findConfigFile, CONFIG_FILENAMES.
  cbn [findConfigFile_in load_cwd load_configPath default from_option id].
  rewrite H1, H2, H3. reflexivity.
Qed.

(** The defaults, once loaded, stay when a configuration file appears. *)
Lemma loaded_defaults_stay :
  loadConfig Sample.platform Cases.importModule (with_config Cases.action Sample.config)
    (Cases.configured "minify off")
  = (Fulfilled Sample.config, with_config Cases.action Sample.config,
     Cases.configured "minify off").
Proof.
  refine (proj2 (proj2 (config_is_loaded_once Sample.platform Cases.importModule
                          Cases.action (with_config Cases.action Sample.config)
                          Cases.lenient_project Cases.lenient_project Sample.config _))
            (Cases.configured "minify off")).
  apply action_loads_defaults; vm_compute; reflexivity.
Defined.

(** Without the primary entry the facade does not build. *)
Lemma facade_stops_without_main :
  exists v,
    valid v = false
    /\ facade_build Sample.platform Cases.importModule Cases.rejection_message
         Cases.action Sample.only_dist
       = ({| outcome_success := false; outcome_build := None;
             outcome_validation := Some v;
             outcome_error := Some "Validation failed" |},
          with_config Cases.action Sample.config, Sample.only_dist).
Proof.
  assert (Hv : exists v,
            fst (validate Sample.platform Sample.config
                   {| validate_cwd := Some "/work"; validate_strict := None |}
                   Sample.only_dist) = Success v
            /\ valid v = false)
    by (eexists; split; [vm_compute; reflexivity|reflexivity]).
  destruct Hv as (v & Hv & Hf). exists v. split; [exact Hf|].
  apply (invalid_project_is_not_built Sample.platform Cases.importModule
           Cases.rejection_message Cases.action _ Sample.config _ Sample.only_dist v
           eq_refl);
    [apply action_loads_defaults; vm_compute; reflexivity | exact Hv | exact Hf].
Defined.

(** On CI and without a manifest the facade reports the strict failure
    alone. *)
Lemma facade_reports_strict_failure_alone :
  facade_build Sample.platform Cases.importModule Cases.rejection_message
    Cases.action Sample.ci_without_manifest
  = ({| outcome_success := false; outcome_build := None; outcome_validation := None;
        outcome_error := Some "Warnings treated as errors in strict mode" |},
     with_config Cases.action Sample.config, Sample.ci_without_manifest).
Proof.
  refine (proj2 (strict_failure_carries_no_validation Sample.platform Cases.importModule
                   Cases.rejection_message Cases.action _ Sample.config _
                   Sample.ci_without_manifest
                   (ValidationFailed 0 1 "Warnings treated as errors in strict mode")
                   eq_refl _ _)).
  - apply action_loads_defaults; vm_compute; reflexivity.
  - vm_compute. reflexivity.
Defined.

(** The quiet validate command prints the report and nothing else. *)
Lemma quiet_validate_prints_the_report :
  snd (snd (validateHandler Sample.platform Cases.importModule None true
              (Cases.lenient_project, [])))
  = [Console_log (newline +:+ formatResult Cases.lenient_result)].
Proof.
  destruct (validate_command_always_reports Sample.platform Cases.importModule None true
              Cases.lenient_project
              {| loaded_config := Sample.config; loaded_configPath := None;
                 loaded_usingDefaults := true |}
              Cases.lenient_result)
    as (_ & _ & Hq & _);
    [vm_compute; reflexivity | vm_compute; reflexivity |].
  exact (Hq eq_refl).
Defined.

(** On CI and without a manifest the build command fails before it
    reports. *)
Lemma build_command_fails_on_ci :
  buildHandler Sample.platform Cases.importModule None false false
    (Sample.ci_without_manifest, [])
  = (Failure (OfService (ValidationFailed 0 1 "Warnings treated as errors in strict mode")),
     (Sample.ci_without_manifest,
      [ Console_log "Loading configuration...";
        Console_log "  Using default configuration";
        Console_log (newline +:+ "Validating...") ])).
Proof.
  apply (build_command_hides_strict_warnings Sample.platform Cases.importModule None false
           Sample.ci_without_manifest
           {| loaded_config := Sample.config; loaded_configPath := None;
              loaded_usingDefaults := true |});
    vm_compute; reflexivity.
Defined.

(** An empty path loads the defaults, beside a configuration file. *)
Lemma empty_path_loads_defaults :
  load Sample.platform Cases.importModule
    {| load_cwd := None; load_configPath := Some "" |} (Cases.configured "minify off")
  = (Success {| loaded_config := Sample.config; loaded_configPath := None;
                loaded_usingDefaults := true |},
     Cases.configured "minify off").
Proof. apply load_defaults. left. reflexivity. Defined.

(** The build command on the project of which one entry fails. *)
Lemma build_command_on_a_failed_entry :
  fst (buildHandler Sample.platform Cases.importModule None true true
         (Sample.three_entries, []))
  = Failure (JsError "Build failed").
Proof.
  assert (E : exists b,
            fst (build Sample.platform Sample.config
                   {| run_cwd := Some "/work"; run_clean := None |} Sample.three_entries)
            = Success b /\ result_success b = false)
    by (eexists; split; [vm_compute; reflexivity|reflexivity]).
  destruct E as (b & E & Hs).
  refine (proj1 (build_command_names_no_entry Sample.platform Cases.importModule None true
                   true Sample.three_entries
                   {| loaded_config := Sample.config; loaded_configPath := None;
                      loaded_usingDefaults := true |} b _ _ E Hs)).
  - vm_compute. reflexivity.
  - discriminate.
Defined.
